(** * gspay-go-sdk: signer, sanitizer, callback allow-list and client options

    A shallow embedding of the Go sources

      - [src/internal/signature/signature.go]: [GenerateWithDigest],
        [Generate], [Verify];
      - [src/internal/sanitize/sanitize.go]: [Endpoint], in its
        position-based revision and in the revision that scans the path;
      - [src/client/option.go]: the options, [parseIPWhitelist] and
        [IsIPWhitelisted];
      - package [client]: the [Client] structure and [New], and
        [VerifyCallbackIP];

    together with the functions of the Go standard library that these
    call ([crypto/subtle], [crypto/md5], [encoding/hex], [strings],
    [net], [net/netip]), modelled after their Go implementation.

    Conventions.  A Go [string] is a sequence of bytes and is modelled
    by [string] (a list of 8-bit [ascii]).  A Go [byte] is a [Z] in
    [0, 256); [uint32] arithmetic is [Z] arithmetic reduced modulo
    [2^32].  A Go function returning [(v, err)] returns an [option]. *)

From Stdlib Require Import ZArith List String Ascii Bool Lia Arith.
Import ListNotations.

Local Open Scope string_scope.
Local Open Scope list_scope.
Local Open Scope Z_scope.

(* ================================================================== *)
(** * Part I.  The program                                            *)
(* ================================================================== *)

(** ** Go values *)

Module Go.

(** [[]byte(s)]: the bytes of a string. *)
Definition byte_of_ascii (a : ascii) : Z := Z.of_N (N_of_ascii a).

Definition bytes (s : string) : list Z :=
  map byte_of_ascii (list_ascii_of_string s).

(** [s[i]], with a default where Go would panic (never reached by the
    code below, which guards every index by a length test). *)
Definition index (l : list Z) (i : nat) : Z := nth i l 0.

Definition is_byte (b : Z) : Prop := 0 <= b < 256.

Definition uint32 (x : Z) : Z := x mod 2 ^ 32.

Definition uint8 (x : Z) : Z := x mod 2 ^ 8.

End Go.

(** ** crypto/subtle *)

Module Subtle.

(** [func ConstantTimeByteEq(x, y uint8) int {
       return int((uint32(x^y) - 1) >> 31) }] *)
Definition ConstantTimeByteEq (x y : Z) : Z :=
  Z.shiftr (Go.uint32 (Go.uint32 (Z.lxor x y) - 1)) 31.

(** The loop body [v |= x[i] ^ y[i]]. *)
Definition step (x y : list Z) (v : Z) (i : nat) : Z :=
  Z.lor v (Z.lxor (Go.index x i) (Go.index y i)).

(** [func ConstantTimeCompare(x, y []byte) int {
       if len(x) != len(y) { return 0 }
       var v byte
       for i := 0; i < len(x); i++ { v |= x[i] ^ y[i] }
       return ConstantTimeByteEq(v, 0) }] *)
Definition ConstantTimeCompare (x y : list Z) : Z :=
  if negb (Nat.eqb (List.length x) (List.length y)) then 0
  else
    let v := fold_left (step x y) (seq 0 (List.length x)) 0 in
    ConstantTimeByteEq v 0.

(** *** The same function, instrumented

    To speak about what the comparison looks at, the loop is run in a
    small logging monad that records every slice access. *)

Inductive access : Type :=
| ReadX (i : nat)
| ReadY (i : nat).

Definition Logged (A : Type) : Type := (A * list access)%type.

Definition ret {A} (a : A) : Logged A := (a, []).

Definition bind {A B} (m : Logged A) (k : A -> Logged B) : Logged B :=
  let (a, l1) := m in
  let (b, l2) := k a in
  (b, l1 ++ l2).

Definition readX (x : list Z) (i : nat) : Logged Z :=
  (Go.index x i, [ReadX i]).

Definition readY (y : list Z) (i : nat) : Logged Z :=
  (Go.index y i, [ReadY i]).

Definition stepL (x y : list Z) (v : Z) (i : nat) : Logged Z :=
  bind (readX x i) (fun a =>
  bind (readY y i) (fun b =>
  ret (Z.lor v (Z.lxor a b)))).

Fixpoint forL (body : Z -> nat -> Logged Z) (idx : list nat) (v : Z)
  : Logged Z :=
  match idx with
  | [] => ret v
  | i :: rest => bind (body v i) (fun v' => forL body rest v')
  end.

Definition ConstantTimeCompareL (x y : list Z) : Logged Z :=
  if negb (Nat.eqb (List.length x) (List.length y)) then ret 0
  else
    bind (forL (stepL x y) (seq 0 (List.length x)) 0) (fun v =>
    ret (ConstantTimeByteEq v 0)).

End Subtle.

(** ** encoding/hex *)

Module Hex.

(** [const hextable = "0123456789abcdef"] *)
Definition hextable : string := "0123456789abcdef".

Definition hexdigit (n : Z) : ascii :=
  match String.get (Z.to_nat n) hextable with
  | Some c => c
  | None => "0"%char
  end.

(** [func Encode(dst, src []byte) int]:
    [dst[j] = hextable[v>>4]; dst[j+1] = hextable[v&0x0f]]. *)
Fixpoint EncodeToString (src : list Z) : string :=
  match src with
  | [] => EmptyString
  | v :: rest =>
      String (hexdigit (Z.shiftr v 4))
        (String (hexdigit (Z.land v 15)) (EncodeToString rest))
  end.

End Hex.

(** ** crypto/md5

    [md5.Sum] as the standard library computes it (RFC 1321): the message
    is padded with [0x80], zeros up to 56 modulo 64 and the bit length as
    a little-endian 64-bit integer, and absorbed in 64-byte blocks by
    four rounds of sixteen steps over a state of four [uint32] words. *)

Module MD5.

(** [const Size = 16], [const BlockSize = 64] *)
Definition Size : nat := 16.
Definition BlockSize : nat := 64.

Definition init0 : Z := 0x67452301.
Definition init1 : Z := 0xefcdab89.
Definition init2 : Z := 0x98badcfe.
Definition init3 : Z := 0x10325476.

(** The additive constants [floor (2^32 * |sin (i + 1)|)]. *)
Definition K : list Z :=
  [ 0xd76aa478; 0xe8c7b756; 0x242070db; 0xc1bdceee;
    0xf57c0faf; 0x4787c62a; 0xa8304613; 0xfd469501;
    0x698098d8; 0x8b44f7af; 0xffff5bb1; 0x895cd7be;
    0x6b901122; 0xfd987193; 0xa679438e; 0x49b40821;
    0xf61e2562; 0xc040b340; 0x265e5a51; 0xe9b6c7aa;
    0xd62f105d; 0x02441453; 0xd8a1e681; 0xe7d3fbc8;
    0x21e1cde6; 0xc33707d6; 0xf4d50d87; 0x455a14ed;
    0xa9e3e905; 0xfcefa3f8; 0x676f02d9; 0x8d2a4c8a;
    0xfffa3942; 0x8771f681; 0x6d9d6122; 0xfde5380c;
    0xa4beea44; 0x4bdecfa9; 0xf6bb4b60; 0xbebfbc70;
    0x289b7ec6; 0xeaa127fa; 0xd4ef3085; 0x04881d05;
    0xd9d4d039; 0xe6db99e5; 0x1fa27cf8; 0xc4ac5665;
    0xf4292244; 0x432aff97; 0xab9423a7; 0xfc93a039;
    0x655b59c3; 0x8f0ccc92; 0xffeff47d; 0x85845dd1;
    0x6fa87e4f; 0xfe2ce6e0; 0xa3014314; 0x4e0811a1;
    0xf7537e82; 0xbd3af235; 0x2ad7d2bb; 0xeb86d391 ].

(** The per-step left-rotation amounts. *)
Definition S : list Z :=
  [ 7; 12; 17; 22; 7; 12; 17; 22; 7; 12; 17; 22; 7; 12; 17; 22;
    5;  9; 14; 20; 5;  9; 14; 20; 5;  9; 14; 20; 5;  9; 14; 20;
    4; 11; 16; 23; 4; 11; 16; 23; 4; 11; 16; 23; 4; 11; 16; 23;
    6; 10; 15; 21; 6; 10; 15; 21; 6; 10; 15; 21; 6; 10; 15; 21 ].

(** [bits.RotateLeft32] *)
Definition RotateLeft32 (x n : Z) : Z :=
  Go.uint32 (Z.lor (Z.shiftl x n) (Z.shiftr x (32 - n))).

(** [^x] on a [uint32] *)
Definition not32 (x : Z) : Z := Z.lxor x 0xffffffff.

(** [binary.LittleEndian.Uint32] *)
Definition le_uint32 (b : list Z) : Z :=
  Z.lor (Go.index b 0)
    (Z.lor (Z.shiftl (Go.index b 1) 8)
       (Z.lor (Z.shiftl (Go.index b 2) 16) (Z.shiftl (Go.index b 3) 24))).

(** [binary.LittleEndian.PutUint32] *)
Definition put_uint32 (w : Z) : list Z :=
  [ Z.land w 255; Z.land (Z.shiftr w 8) 255;
    Z.land (Z.shiftr w 16) 255; Z.land (Z.shiftr w 24) 255 ].

(** [binary.LittleEndian.PutUint64] *)
Definition put_uint64 (w : Z) : list Z :=
  put_uint32 (Z.land w 0xffffffff) ++ put_uint32 (Z.shiftr w 32).

Record digest : Type := mkDigest { s0 : Z; s1 : Z; s2 : Z; s3 : Z }.

(** The sixteen message words of one block. *)
Definition words (p : list Z) : list Z :=
  map (fun j => le_uint32 (skipn (4 * j) p)) (List.seq 0 16).

(** One of the 64 steps on the working variables [(a, b, c, d)]. *)
Definition step (M : list Z) (st : digest) (i : nat) : digest :=
  let a := s0 st in let b := s1 st in
  let c := s2 st in let d := s3 st in
  let '(f, g) :=
    if (i <? 16)%nat then
      (Z.lor (Z.land b c) (Z.land (not32 b) d), i)
    else if (i <? 32)%nat then
      (Z.lor (Z.land d b) (Z.land (not32 d) c), ((5 * i + 1) mod 16)%nat)
    else if (i <? 48)%nat then
      (Z.lxor b (Z.lxor c d), ((3 * i + 5) mod 16)%nat)
    else
      (Z.lxor c (Z.lor b (not32 d)), ((7 * i) mod 16)%nat) in
  let F := Go.uint32 (f + a + Go.index K i + Go.index M g) in
  mkDigest d (Go.uint32 (b + RotateLeft32 F (Go.index S i))) b c.

(** [func block(dig *digest, p []byte)] on one 64-byte block. *)
Definition block (dig : digest) (p : list Z) : digest :=
  let r := fold_left (step (words p)) (List.seq 0 64) dig in
  mkDigest (Go.uint32 (s0 dig + s0 r)) (Go.uint32 (s1 dig + s1 r))
           (Go.uint32 (s2 dig + s2 r)) (Go.uint32 (s3 dig + s3 r)).

(** Absorb [n] consecutive blocks of [p]. *)
Fixpoint blocks (n : nat) (dig : digest) (p : list Z) : digest :=
  match n with
  | O => dig
  | Datatypes.S n' => blocks n' (block dig (firstn 64 p)) (skipn 64 p)
  end.

(** The tail written by [checkSum]:
    [tmp := [1 + 63 + 8]byte{0x80}; pad := (55 - d.len) % 64;
     PutUint64(tmp[1+pad:], d.len<<3)]. *)
Definition padding (len : Z) : list Z :=
  128 :: repeat 0 (Z.to_nat ((55 - len) mod 64))
      ++ put_uint64 ((len * 8) mod 2 ^ 64).

(** [func Sum(data []byte) [Size]byte] *)
Definition Sum (data : list Z) : list Z :=
  let msg := data ++ padding (Z.of_nat (List.length data)) in
  let d := blocks (List.length msg / 64) (mkDigest init0 init1 init2 init3) msg in
  put_uint32 (s0 d) ++ put_uint32 (s1 d) ++ put_uint32 (s2 d) ++ put_uint32 (s3 d).

End MD5.

(** ** internal/signature *)

Module Signature.

(** [hash.Hash]: an accumulator with [Write] and [Sum]. *)
Record Hash : Type := mkHash {
  state : Type;
  current : state;
  write : state -> list Z -> state;
  sum : state -> list Z -> list Z
}.

Definition Write (h : Hash) (p : list Z) : Hash :=
  mkHash (state h) (write h (current h) p) (write h) (sum h).

Definition Sum (h : Hash) (b : list Z) : list Z := sum h (current h) b.

(** [type Digest func() hash.Hash], for a digest that returns the same
    hash at every call, as [md5.New] and the other constructors of the
    standard library do; a nil [Digest] is [None].  [SignatureState] below has
    the digests that read or change the state of the process. *)
Definition Digest : Type := option (unit -> Hash).

(** [func GenerateWithDigest(data string, digest Digest) string] *)
Definition GenerateWithDigest (data : string) (digest : Digest) : string :=
  match digest with
  | None =>
      let hash := MD5.Sum (Go.bytes data) in
      Hex.EncodeToString hash
  | Some digest =>
      let h := digest tt in
      let h := Write h (Go.bytes data) in
      Hex.EncodeToString (Sum h [])
  end.

(** [func Generate(data string) string] *)
Definition Generate (data : string) : string :=
  GenerateWithDigest data None.

(** [func Verify(expected, actual string) bool] *)
Definition Verify (expected actual : string) : bool :=
  Z.eqb (Subtle.ConstantTimeCompare (Go.bytes expected) (Go.bytes actual)) 1.

(** [Verify] over the instrumented comparison: the verdict together
    with the log of the bytes of the two operands that were read. *)
Definition VerifyL (expected actual : string) : Subtle.Logged bool :=
  Subtle.bind
    (Subtle.ConstantTimeCompareL (Go.bytes expected) (Go.bytes actual))
    (fun r => Subtle.ret (Z.eqb r 1)).

(** [crypto/md5.New] as a [Digest]. *)
Definition md5_New : unit -> Hash := fun _ =>
  mkHash (list Z) [] (fun s p => s ++ p) (fun s b => b ++ MD5.Sum s).

End Signature.

(** ** internal/signature, with the state of the process

    A [Digest] is any Go function [func() hash.Hash]: a call may read and
    change the state of the process (a seed, a counter, the random source),
    and it may return a nil hash. *)

Module SignatureState.

Section World.

(** The state of the process outside [GenerateWithDigest]. *)
Variable World : Type.

(** [type Digest func() hash.Hash]: a call takes the state of the process
    to a hash, or to nil ([None]), and to the state it leaves; a nil [Digest]
    is [None]. *)
Definition Digest : Type :=
  option (World -> option Signature.Hash * World).

(** [func GenerateWithDigest(data string, digest Digest) string], run in
    the state [w]: the signature and the state that the call leaves.  The
    result [None] is the run-time panic of [h.Write] on a nil hash. *)
Definition GenerateWithDigest (data : string) (digest : Digest) (w : World)
  : option string * World :=
  match digest with
  | None =>
      let hash := MD5.Sum (Go.bytes data) in
      (Some (Hex.EncodeToString hash), w)
  | Some digest =>
      let '(h, w) := digest w in
      match h with
      | None => (None, w)
      | Some h =>
          let h := Signature.Write h (Go.bytes data) in
          (Some (Hex.EncodeToString (Signature.Sum h [])), w)
      end
  end.

End World.

Arguments GenerateWithDigest {World} data digest w.

End SignatureState.

(** ** strings *)

Module Strings.

(** [len(s)] *)
Definition len (s : string) : Z := Z.of_nat (String.length s).

(** [s[lo:hi]] *)
Definition slice (s : string) (lo hi : Z) : string :=
  substring (Z.to_nat lo) (Z.to_nat (hi - lo)) s.

(** [s[lo:]] *)
Definition slice_from (s : string) (lo : Z) : string :=
  slice s lo (len s).

(** [strings.IndexByte(s, c)]: the index of the first [c], or [-1]. *)
Fixpoint IndexByte (s : string) (c : ascii) : Z :=
  match s with
  | EmptyString => -1
  | String a rest =>
      if Ascii.eqb a c then 0
      else
        let r := IndexByte rest c in
        if r <? 0 then -1 else r + 1
  end.

(** [strings.LastIndexByte(s, c)]: the index of the last [c], or [-1]. *)
Fixpoint LastIndexByte (s : string) (c : ascii) : Z :=
  match s with
  | EmptyString => -1
  | String a rest =>
      let r := LastIndexByte rest c in
      if 0 <=? r then r + 1
      else if Ascii.eqb a c then 0 else -1
  end.

(** [strings.Split(s, sep)] for a one-byte separator [sep]: the
    substrings between the separators; never empty. *)
Fixpoint Split (s : string) (sep : ascii) : list string :=
  match s with
  | EmptyString => [EmptyString]
  | String a rest =>
      if Ascii.eqb a sep then EmptyString :: Split rest sep
      else
        match Split rest sep with
        | h :: t => String a h :: t
        | [] => [String a EmptyString]
        end
  end.

(** [strings.Join(elems, sep)] *)
Fixpoint Join (elems : list string) (sep : string) : string :=
  match elems with
  | [] => EmptyString
  | [a] => a
  | a :: rest => (a ++ sep ++ Join rest sep)%string
  end.

(** [strings.TrimRight(s, cutset)] for a one-byte cutset. *)
Fixpoint TrimRight (s : string) (c : ascii) : string :=
  match s with
  | EmptyString => EmptyString
  | String a rest =>
      match TrimRight rest c with
      | EmptyString => if Ascii.eqb a c then EmptyString else String a EmptyString
      | r => String a r
      end
  end.

(** [strings.Cut(s, sep)] for a one-byte separator. *)
Definition Cut (s : string) (sep : ascii) : string * string * bool :=
  let i := IndexByte s sep in
  if 0 <=? i then (slice s 0 i, slice_from s (i + 1), true)
  else (s, EmptyString, false).

End Strings.

(** [parts[i]] and [parts[i] = v] on a slice of strings. *)
Definition at_ (parts : list string) (i : nat) : string :=
  nth i parts EmptyString.

Fixpoint set_at (parts : list string) (i : nat) (v : string) : list string :=
  match parts, i with
  | [], _ => []
  | _ :: t, O => v :: t
  | h :: t, Datatypes.S i' => h :: set_at t i' v
  end.

(** ** internal/sanitize, position-based revision
    ([src/internal/sanitize/sanitize.go]) *)

Module Sanitize.

(** [func Endpoint(endpoint string) string {
       parts := strings.Split(endpoint, "/")
       if len(parts) >= 5 && parts[1] == "v2" && parts[2] == "integrations"
          && len(parts[4]) > 0 {
         if parts[3] == "operator" || parts[3] == "operators" {
           parts[4] = "[REDACTED]"
           return strings.Join(parts, "/") } }
       return endpoint }] *)
Definition Endpoint (endpoint : string) : string :=
  let parts := Strings.Split endpoint "/" in
  if (5 <=? List.length parts)%nat
     && String.eqb (at_ parts 1) "v2"
     && String.eqb (at_ parts 2) "integrations"
     && (0 <? String.length (at_ parts 4))%nat
  then
    if String.eqb (at_ parts 3) "operator"
       || String.eqb (at_ parts 3) "operators"
    then
      let parts := set_at parts 4 "[REDACTED]" in
      Strings.Join parts "/"
    else endpoint
  else endpoint.

End Sanitize.

(** ** internal/sanitize, scanning revision *)

Module SanitizeScan.

(** The body of [for i, part := range parts]: [Some r] when the loop
    returns [r] at index [i] or later, [None] when it runs to the end. *)
Fixpoint scan (parts : list string) (idx : list nat) : option string :=
  match idx with
  | [] => None
  | i :: rest =>
      let part := at_ parts i in
      if (String.eqb part "operator" || String.eqb part "operators")
         && (i + 1 <? List.length parts)%nat
      then
        if (0 <? String.length (at_ parts (i + 1)))%nat then
          let parts := set_at parts (i + 1) "[REDACTED]" in
          Some (Strings.Join parts "/")
        else scan parts rest
      else scan parts rest
  end.

(** [func Endpoint(endpoint string) string {
       parts := strings.Split(endpoint, "/")
       for i, part := range parts {
         if (part == "operator" || part == "operators") && i+1 < len(parts) {
           if len(parts[i+1]) > 0 {
             parts[i+1] = "[REDACTED]"
             return strings.Join(parts, "/") } } }
       return endpoint }] *)
Definition Endpoint (endpoint : string) : string :=
  let parts := Strings.Split endpoint "/" in
  match scan parts (List.seq 0 (List.length parts)) with
  | Some r => r
  | None => endpoint
  end.

End SanitizeScan.

(** ** net/netip and net

    The parsers of the standard library that the allow-list uses.  An
    [error] result is [None]; the text of the error is not modelled. *)

Module Netip.

Definition byte (c : ascii) : Z := Go.byte_of_ascii c.

Definition is_digit (c : ascii) : bool :=
  (48 <=? byte c) && (byte c <=? 57).

(** [type Addr]: the 16-byte form, whether the address is an IPv4
    address ([z == z4]), and the IPv6 zone. *)
Record Addr : Type := mkAddr {
  is4 : bool;
  as16 : list Z;
  zone : string
}.

(** [v4InV6Prefix]: the prefix [::ffff:0:0/96] of an IPv4-mapped address. *)
Definition v4InV6Prefix : list Z := [0; 0; 0; 0; 0; 0; 0; 0; 0; 0; 255; 255].

(** [func (ip Addr) BitLen() int] *)
Definition BitLen (a : Addr) : Z := if is4 a then 32 else 128.

(** [func parseIPv4Fields(in string, off, end int, fields []uint8) error]
    on the substring [s = in[off:end]].  [prev] is [s[i-1]] ([None] at
    [i = 0]); [fields] holds the [pos] octets stored so far. *)
Fixpoint parseIPv4Loop (s : string) (prev : option ascii)
    (fields : list Z) (val pos digLen : Z) : option (list Z) :=
  match s with
  | EmptyString =>
      if pos <? 3 then None
      else Some (fields ++ [Go.uint8 val])
  | String c rest =>
      if is_digit c then
        if (digLen =? 1) && (val =? 0) then None
        else
          let val := val * 10 + byte c - 48 in
          let digLen := digLen + 1 in
          if 255 <? val then None
          else parseIPv4Loop rest (Some c) fields val pos digLen
      else if Ascii.eqb c "."%char then
        let first := match prev with None => true | Some _ => false end in
        let last := match rest with EmptyString => true | _ => false end in
        let afterDot :=
          match prev with Some p => Ascii.eqb p "."%char | None => false end in
        if first || last || afterDot then None
        else if pos =? 3 then None
        else parseIPv4Loop rest (Some c) (fields ++ [Go.uint8 val]) 0 (pos + 1) 0
      else None
  end.

Definition parseIPv4Fields (s : string) : option (list Z) :=
  parseIPv4Loop s None [] 0 0 0.

(** [func parseIPv4(s string) (ip Addr, err error)] *)
Definition parseIPv4 (s : string) : option Addr :=
  match parseIPv4Fields s with
  | Some fields => Some (mkAddr true (v4InV6Prefix ++ fields) EmptyString)
  | None => None
  end.

Definition hexval (c : ascii) : option Z :=
  let b := byte c in
  if (48 <=? b) && (b <=? 57) then Some (b - 48)
  else if (97 <=? b) && (b <=? 102) then Some (b - 97 + 10)
  else if (65 <=? b) && (b <=? 70) then Some (b - 65 + 10)
  else None.

(** The inner loop of [parseIPv6] reading one hexadecimal group:
    returns [(off, acc)], or [None] on a group of more than four digits
    or a value above [math.MaxUint16]. *)
Fixpoint hexGroup (s : string) (off acc : Z) : option (Z * Z) :=
  match s with
  | EmptyString => Some (off, acc)
  | String c rest =>
      match hexval c with
      | None => Some (off, acc)
      | Some d =>
          let acc := Go.uint32 (Z.shiftl acc 4 + d) in
          if 3 <? off then None
          else if 65535 <? acc then None
          else hexGroup rest (off + 1) acc
      end
  end.

Definition byte_at (s : string) (i : Z) : option ascii :=
  if i <? 0 then None else String.get (Z.to_nat i) s.

Definition byte_is (s : string) (i : Z) (c : ascii) : bool :=
  match byte_at s i with
  | Some a => Ascii.eqb a c
  | None => false
  end.

(** The main loop [for i < 16 { ... }] of [parseIPv6].  [ip] holds the
    [i] bytes written so far.  Every round writes at least two bytes, so
    nine rounds of [fuel] are never used up.  The result is the state
    [(s, ip, ellipsis)] at the exit of the loop. *)
Fixpoint parseIPv6Loop (fuel : nat) (s : string) (ip : list Z)
    (ellipsis : Z) : option (string * list Z * Z) :=
  match fuel with
  | O => None
  | Datatypes.S fuel' =>
      let i := Z.of_nat (List.length ip) in
      if negb (i <? 16) then Some (s, ip, ellipsis)
      else
        match hexGroup s 0 0 with
        | None => None
        | Some (off, acc) =>
            if off =? 0 then None
            else if (off <? Strings.len s) && byte_is s off "."%char then
              if (ellipsis <? 0) && negb (i =? 12) then None
              else if 16 <? i + 4 then None
              else
                match parseIPv4Fields s with
                | None => None
                | Some fields => Some (EmptyString, ip ++ fields, ellipsis)
                end
            else
              let ip := ip ++ [Go.uint8 (Z.shiftr acc 8); Go.uint8 acc] in
              let i := i + 2 in
              let s := Strings.slice_from s off in
              if Strings.len s =? 0 then Some (s, ip, ellipsis)
              else if negb (byte_is s 0 ":"%char) then None
              else if Strings.len s =? 1 then None
              else
                let s := Strings.slice_from s 1 in
                if byte_is s 0 ":"%char then
                  if 0 <=? ellipsis then None
                  else
                    let ellipsis := i in
                    let s := Strings.slice_from s 1 in
                    if Strings.len s =? 0 then Some (s, ip, ellipsis)
                    else parseIPv6Loop fuel' s ip ellipsis
                else parseIPv6Loop fuel' s ip ellipsis
        end
  end.

(** [func parseIPv6(in string) (Addr, error)] *)
Definition parseIPv6 (input : string) : option Addr :=
  let i := Strings.IndexByte input "%"%char in
  let '(s, zone, zoneOK) :=
    if negb (i =? -1) then
      let zone := Strings.slice_from input (i + 1) in
      (Strings.slice input 0 i, zone, negb (String.eqb zone EmptyString))
    else (input, EmptyString, true) in
  if negb zoneOK then None
  else
    let leading :=
      (2 <=? Strings.len s) && byte_is s 0 ":"%char && byte_is s 1 ":"%char in
    let ellipsis := if leading then 0 else -1 in
    let s := if leading then Strings.slice_from s 2 else s in
    if leading && (Strings.len s =? 0) then
      Some (mkAddr false (repeat 0 16) zone)
    else
      match parseIPv6Loop 9 s [] ellipsis with
      | None => None
      | Some (s, ip, ellipsis) =>
          let i := Z.of_nat (List.length ip) in
          if negb (Strings.len s =? 0) then None
          else if i <? 16 then
            if ellipsis <? 0 then None
            else
              (* n := 16 - i; ip[j+n] = ip[j] for j = i-1 .. ellipsis;
                 clear(ip[ellipsis : ellipsis+n]) *)
              let n := 16 - i in
              let e := Z.to_nat ellipsis in
              Some (mkAddr false
                      (firstn e ip ++ repeat 0 (Z.to_nat n) ++ skipn e ip)
                      zone)
          else if 0 <=? ellipsis then None
          else Some (mkAddr false ip zone)
      end.

(** [func ParseAddr(s string) (Addr, error)]: dispatch on the first of
    ['.'], [':'] and ['%'] found in [s]. *)
Fixpoint ParseAddrScan (rest s : string) : option Addr :=
  match rest with
  | EmptyString => None
  | String c rest' =>
      if Ascii.eqb c "."%char then parseIPv4 s
      else if Ascii.eqb c ":"%char then parseIPv6 s
      else if Ascii.eqb c "%"%char then None
      else ParseAddrScan rest' s
  end.

Definition ParseAddr (s : string) : option Addr := ParseAddrScan s s.

End Netip.

Module Net.

(** [type IP []byte]; the nil slice is [[]]. *)
Definition IP : Type := list Z.

(** [type IPMask []byte] *)
Definition IPMask : Type := list Z.

(** [type IPNet struct { IP IP; Mask IPMask }] *)
Record IPNet : Type := mkIPNet { IPNet_IP : IP; IPNet_Mask : IPMask }.

Definition IPv4len : nat := 4.
Definition IPv6len : nat := 16.

Definition bytes_eqb (a b : list Z) : bool :=
  if list_eq_dec Z.eq_dec a b then true else false.

(** [func ParseIP(s string) IP]: [nil] unless [netip.ParseAddr]
    succeeds with an empty zone; then the 16-byte form. *)
Definition ParseIP (s : string) : option IP :=
  match Netip.ParseAddr s with
  | Some a =>
      if negb (String.eqb (Netip.zone a) EmptyString) then None
      else Some (Netip.as16 a)
  | None => None
  end.

Definition isZeros (p : list Z) : bool := forallb (Z.eqb 0) p.

Definition allFF (p : list Z) : bool := forallb (Z.eqb 255) p.

(** [func (ip IP) To4() IP]; [None] is the nil result. *)
Definition To4 (ip : IP) : option IP :=
  if (List.length ip =? IPv4len)%nat then Some ip
  else if (List.length ip =? IPv6len)%nat
          && isZeros (firstn 10 ip)
          && (Go.index ip 10 =? 255) && (Go.index ip 11 =? 255)
  then Some (skipn 12 ip)
  else None.

(** [func (ip IP) Equal(x IP) bool] *)
Definition Equal (ip x : IP) : bool :=
  if (List.length ip =? List.length x)%nat then bytes_eqb ip x
  else if (List.length ip =? IPv4len)%nat && (List.length x =? IPv6len)%nat
  then bytes_eqb (firstn 12 x) Netip.v4InV6Prefix && bytes_eqb ip (skipn 12 x)
  else if (List.length ip =? IPv6len)%nat && (List.length x =? IPv4len)%nat
  then bytes_eqb (firstn 12 ip) Netip.v4InV6Prefix && bytes_eqb (skipn 12 ip) x
  else false.

(** [func CIDRMask(ones, bits int) IPMask], for [bits] 32 or 128 and
    [0 <= ones <= bits] (its callers below guarantee both). *)
Fixpoint CIDRMaskLoop (l : nat) (n : Z) : IPMask :=
  match l with
  | O => []
  | Datatypes.S l' =>
      if 8 <=? n then 255 :: CIDRMaskLoop l' (n - 8)
      else Z.lxor (Z.shiftr 255 n) 255 :: CIDRMaskLoop l' 0
  end.

Definition CIDRMask (ones bits : Z) : IPMask :=
  if negb (bits =? 32) && negb (bits =? 128) then []
  else if (ones <? 0) || (bits <? ones) then []
  else CIDRMaskLoop (Z.to_nat (bits / 8)) ones.

(** [func (ip IP) Mask(mask IPMask) IP] *)
Definition Mask (ip : IP) (mask : IPMask) : IP :=
  let mask :=
    if (List.length mask =? IPv6len)%nat && (List.length ip =? IPv4len)%nat
       && allFF (firstn 12 mask)
    then skipn 12 mask else mask in
  let ip :=
    if (List.length mask =? IPv4len)%nat && (List.length ip =? IPv6len)%nat
       && bytes_eqb (firstn 12 ip) Netip.v4InV6Prefix
    then skipn 12 ip else ip in
  if negb (List.length ip =? List.length mask)%nat then []
  else map (fun '(a, m) => Z.land a m) (combine ip mask).

(** [func dtoi(s string) (n int, i int, ok bool)]: a decimal prefix. *)
Fixpoint dtoiLoop (s : string) (n i : Z) : Z * Z * bool :=
  match s with
  | String c rest =>
      if Netip.is_digit c then
        let n := n * 10 + (Netip.byte c - 48) in
        if 16777215 <=? n then (16777215, i, false)
        else dtoiLoop rest n (i + 1)
      else if i =? 0 then (0, 0, false) else (n, i, true)
  | EmptyString => if i =? 0 then (0, 0, false) else (n, i, true)
  end.

Definition dtoi (s : string) : Z * Z * bool := dtoiLoop s 0 0.

(** [func ParseCIDR(s string) (IP, *IPNet, error)] *)
Definition ParseCIDR (s : string) : option (IP * IPNet) :=
  let '(addr, mask, found) := Strings.Cut s "/"%char in
  if negb found then None
  else
    match Netip.ParseAddr addr with
    | None => None
    | Some ipAddr =>
        if negb (String.eqb (Netip.zone ipAddr) EmptyString) then None
        else
          let '(n, i, ok) := dtoi mask in
          if negb ok || negb (i =? Strings.len mask) || (n <? 0)
             || (Netip.BitLen ipAddr <? n)
          then None
          else
            let m := CIDRMask n (Netip.BitLen ipAddr) in
            let addr16 := Netip.as16 ipAddr in
            Some (addr16, mkIPNet (Mask addr16 m) m)
    end.

(** [func networkNumberAndMask(n *IPNet) (ip IP, m IPMask)];
    [None] is the pair of nils. *)
Definition networkNumberAndMask (n : IPNet) : option (IP * IPMask) :=
  let ip :=
    match To4 (IPNet_IP n) with
    | Some ip4 => Some ip4
    | None =>
        if negb (List.length (IPNet_IP n) =? IPv6len)%nat then None
        else Some (IPNet_IP n)
    end in
  match ip with
  | None => None
  | Some ip =>
      if (List.length (IPNet_Mask n) =? IPv4len)%nat then
        if negb (List.length ip =? IPv4len)%nat then None
        else Some (ip, IPNet_Mask n)
      else if (List.length (IPNet_Mask n) =? IPv6len)%nat then
        if (List.length ip =? IPv4len)%nat
        then Some (ip, skipn 12 (IPNet_Mask n))
        else Some (ip, IPNet_Mask n)
      else None
  end.

(** [func (n *IPNet) Contains(ip IP) bool] *)
Definition Contains (n : IPNet) (ip : IP) : bool :=
  let '(nn, m) :=
    match networkNumberAndMask n with
    | Some r => r
    | None => ([], [])
    end in
  let ip := match To4 ip with Some x => x | None => ip end in
  let l := List.length ip in
  if negb (l =? List.length nn)%nat then false
  else
    forallb
      (fun i => Z.land (Go.index nn i) (Go.index m i)
                =? Z.land (Go.index ip i) (Go.index m i))
      (List.seq 0 l).

(** [func SplitHostPort(hostport string) (host, port string, err error)] *)
Definition SplitHostPort (hostport : string) : option (string * string) :=
  let i := Strings.LastIndexByte hostport ":"%char in
  if i <? 0 then None
  else
    let bracketed :=
      if Netip.byte_is hostport 0 "["%char then
        let close := Strings.IndexByte hostport "]"%char in
        if close <? 0 then None
        else if close + 1 =? Strings.len hostport then None
        else if close + 1 =? i then
          Some (Strings.slice hostport 1 close, 1, close + 1)
        else None
      else
        let host := Strings.slice hostport 0 i in
        if 0 <=? Strings.IndexByte host ":"%char then None
        else Some (host, 0, 0) in
    match bracketed with
    | None => None
    | Some (host, j, k) =>
        if 0 <=? Strings.IndexByte (Strings.slice_from hostport j) "["%char
        then None
        else if 0 <=? Strings.IndexByte (Strings.slice_from hostport k) "]"%char
        then None
        else Some (host, Strings.slice_from hostport (i + 1))
    end.

End Net.

(** ** i18n, errors, logger, constants: what the client needs of them *)

Module I18n.

(** Modelled from the spec: [i18n.Language] and its [IsValid] method
    ([language.go] is not among the sources).  The package documents two
    supported languages; any other value is not valid. *)
Inductive Language : Type :=
| English
| Indonesian
| Unsupported (code : string).

Definition IsValid (l : Language) : bool :=
  match l with
  | English | Indonesian => true
  | Unsupported _ => false
  end.

End I18n.

Module Errors.

(** The sentinel errors of [errors/sentinel.go]. *)
Inductive Sentinel : Type :=
| ErrInvalidTransactionID
| ErrInvalidAmount
| ErrInvalidBankCode
| ErrInvalidSignature
| ErrMissingCallbackField
| ErrEmptyResponse
| ErrInvalidJSON
| ErrRequestFailed
| ErrIPNotWhitelisted
| ErrInvalidIPAddress
| ErrRateLimited
| ErrEmptyQRContent.

Definition Sentinel_eq_dec (a b : Sentinel) : {a = b} + {a <> b}.
Proof. decide equality. Defined.

(** Modelled from the spec: [errors.New(lang, sentinel, args...)] and the
    [LocalizedError] it returns (their file is not among the sources).
    The package documentation describes a wrapper carrying a localized
    message for which [errors.Is(err, sentinel)] holds. *)
Record LocalizedError : Type := mkLocalizedError {
  Lang : I18n.Language;
  Unwrap : Sentinel
}.

Definition New (lang : I18n.Language) (sentinel : Sentinel) : LocalizedError :=
  mkLocalizedError lang sentinel.

(** [errors.Is(err, target)] *)
Definition Is (err : LocalizedError) (target : Sentinel) : bool :=
  if Sentinel_eq_dec (Unwrap err) target then true else false.

End Errors.

Module Logger.

(** [type Level int] *)
Inductive Level : Type :=
| LevelDebug | LevelInfo | LevelWarn | LevelError | LevelNone.

(** The [io.Writer] a [Std] logger writes to. *)
Inductive Writer : Type :=
| Stderr
| Stdout
| OtherWriter (name : string).

(** [type Handler interface]: the implementations [Nop] and [Std] of the
    package, or one supplied by the caller. *)
Inductive Handler : Type :=
| Nop
| Std (w : Writer) (level : Level)
| Custom (name : string).

(** [func NewStd(w io.Writer, level Level) *Std] *)
Definition NewStd (w : Writer) (level : Level) : Handler := Std w level.

(** [func Default() *Std { return NewStd(os.Stderr, LevelDebug) }] *)
Definition Default : Handler := NewStd Stderr LevelDebug.

Definition isNop (h : Handler) : bool :=
  match h with Nop => true | _ => false end.

End Logger.

Module Constants.

(** Modelled from the spec: the defaults of package [constants] (its
    file of constants is not among the sources), with the values that
    the documentation of the options in [option.go] states: base URL
    [https://api.thegspay.com], 30 seconds, 3 retries, 500 ms and 2 s. *)
Definition DefaultBaseURL : string := "https://api.thegspay.com".
Definition DefaultTimeout : Z := 30.
Definition DefaultRetries : Z := 3.
Definition DefaultRetryWaitMin : Z := 500.
Definition DefaultRetryWaitMax : Z := 2000.

End Constants.

(** [time.Duration] is a count of nanoseconds. *)
Module Time.

Definition Duration : Type := Z.
Definition Millisecond : Duration := 1000000.
Definition Second : Duration := 1000000000.

End Time.

(** ** client *)

Module Client.

(** A [http.Client], of which the SDK sets the [Timeout]. *)
Record HTTPClient : Type := mkHTTPClient { HTTP_Timeout : Time.Duration }.

(** [type QRRecoveryLevel = goqrcode.RecoveryLevel] *)
Inductive QRRecoveryLevel : Type :=
| QRRecoveryLow | QRRecoveryMedium | QRRecoveryHigh | QRRecoveryHighest.

(** [color.Color] *)
Inductive Color : Type :=
| Black
| White
| RGBA (r g b a : Z).

(** [type qrConfig struct] *)
Record qrConfig : Type := mkQRConfig {
  size : Z;
  level : QRRecoveryLevel;
  foregroundColor : Color;
  backgroundColor : Color
}.

Definition DefaultQRSize : Z := 256.

(** [func qrDefaults() *qrConfig] *)
Definition qrDefaults : qrConfig :=
  mkQRConfig DefaultQRSize QRRecoveryMedium Black White.

(** [type QROption func(c *qrConfig)] *)
Definition QROption : Type := qrConfig -> qrConfig.

(** [type Client struct] *)
Record Client : Type := mkClient {
  AuthKey : string;
  SecretKey : string;
  BaseURL : string;
  HTTPClient_ : option HTTPClient;
  Timeout : Time.Duration;
  Retries : Z;
  RetryWaitMin : Time.Duration;
  RetryWaitMax : Time.Duration;
  CallbackIPWhitelist : list string;
  parsedIPNets : list Net.IPNet;
  Debug : bool;
  parsedIPs : list Net.IP;
  Language : I18n.Language;
  logger : Logger.Handler;
  digest : Signature.Digest;
  qrOpts : list QROption;
  qrCfg : option qrConfig
}.

(** Assignments to the fields of [*c]. *)
Definition set_BaseURL (v : string) (c : Client) : Client :=
  mkClient (AuthKey c) (SecretKey c) v (HTTPClient_ c) (Timeout c)
    (Retries c) (RetryWaitMin c) (RetryWaitMax c) (CallbackIPWhitelist c)
    (parsedIPNets c) (Debug c) (parsedIPs c) (Language c) (logger c)
    (digest c) (qrOpts c) (qrCfg c).

Definition set_HTTPClient (v : option HTTPClient) (c : Client) : Client :=
  mkClient (AuthKey c) (SecretKey c) (BaseURL c) v (Timeout c)
    (Retries c) (RetryWaitMin c) (RetryWaitMax c) (CallbackIPWhitelist c)
    (parsedIPNets c) (Debug c) (parsedIPs c) (Language c) (logger c)
    (digest c) (qrOpts c) (qrCfg c).

Definition set_Timeout (v : Time.Duration) (c : Client) : Client :=
  mkClient (AuthKey c) (SecretKey c) (BaseURL c) (HTTPClient_ c) v
    (Retries c) (RetryWaitMin c) (RetryWaitMax c) (CallbackIPWhitelist c)
    (parsedIPNets c) (Debug c) (parsedIPs c) (Language c) (logger c)
    (digest c) (qrOpts c) (qrCfg c).

Definition set_Retries (v : Z) (c : Client) : Client :=
  mkClient (AuthKey c) (SecretKey c) (BaseURL c) (HTTPClient_ c) (Timeout c)
    v (RetryWaitMin c) (RetryWaitMax c) (CallbackIPWhitelist c)
    (parsedIPNets c) (Debug c) (parsedIPs c) (Language c) (logger c)
    (digest c) (qrOpts c) (qrCfg c).

Definition set_RetryWaitMin (v : Time.Duration) (c : Client) : Client :=
  mkClient (AuthKey c) (SecretKey c) (BaseURL c) (HTTPClient_ c) (Timeout c)
    (Retries c) v (RetryWaitMax c) (CallbackIPWhitelist c)
    (parsedIPNets c) (Debug c) (parsedIPs c) (Language c) (logger c)
    (digest c) (qrOpts c) (qrCfg c).

Definition set_RetryWaitMax (v : Time.Duration) (c : Client) : Client :=
  mkClient (AuthKey c) (SecretKey c) (BaseURL c) (HTTPClient_ c) (Timeout c)
    (Retries c) (RetryWaitMin c) v (CallbackIPWhitelist c)
    (parsedIPNets c) (Debug c) (parsedIPs c) (Language c) (logger c)
    (digest c) (qrOpts c) (qrCfg c).

Definition set_CallbackIPWhitelist (v : list string) (c : Client) : Client :=
  mkClient (AuthKey c) (SecretKey c) (BaseURL c) (HTTPClient_ c) (Timeout c)
    (Retries c) (RetryWaitMin c) (RetryWaitMax c) v
    (parsedIPNets c) (Debug c) (parsedIPs c) (Language c) (logger c)
    (digest c) (qrOpts c) (qrCfg c).

Definition set_parsedIPNets (v : list Net.IPNet) (c : Client) : Client :=
  mkClient (AuthKey c) (SecretKey c) (BaseURL c) (HTTPClient_ c) (Timeout c)
    (Retries c) (RetryWaitMin c) (RetryWaitMax c) (CallbackIPWhitelist c)
    v (Debug c) (parsedIPs c) (Language c) (logger c)
    (digest c) (qrOpts c) (qrCfg c).

Definition set_Debug (v : bool) (c : Client) : Client :=
  mkClient (AuthKey c) (SecretKey c) (BaseURL c) (HTTPClient_ c) (Timeout c)
    (Retries c) (RetryWaitMin c) (RetryWaitMax c) (CallbackIPWhitelist c)
    (parsedIPNets c) v (parsedIPs c) (Language c) (logger c)
    (digest c) (qrOpts c) (qrCfg c).

Definition set_parsedIPs (v : list Net.IP) (c : Client) : Client :=
  mkClient (AuthKey c) (SecretKey c) (BaseURL c) (HTTPClient_ c) (Timeout c)
    (Retries c) (RetryWaitMin c) (RetryWaitMax c) (CallbackIPWhitelist c)
    (parsedIPNets c) (Debug c) v (Language c) (logger c)
    (digest c) (qrOpts c) (qrCfg c).

Definition set_Language (v : I18n.Language) (c : Client) : Client :=
  mkClient (AuthKey c) (SecretKey c) (BaseURL c) (HTTPClient_ c) (Timeout c)
    (Retries c) (RetryWaitMin c) (RetryWaitMax c) (CallbackIPWhitelist c)
    (parsedIPNets c) (Debug c) (parsedIPs c) v (logger c)
    (digest c) (qrOpts c) (qrCfg c).

Definition set_logger (v : Logger.Handler) (c : Client) : Client :=
  mkClient (AuthKey c) (SecretKey c) (BaseURL c) (HTTPClient_ c) (Timeout c)
    (Retries c) (RetryWaitMin c) (RetryWaitMax c) (CallbackIPWhitelist c)
    (parsedIPNets c) (Debug c) (parsedIPs c) (Language c) v
    (digest c) (qrOpts c) (qrCfg c).

Definition set_digest (v : Signature.Digest) (c : Client) : Client :=
  mkClient (AuthKey c) (SecretKey c) (BaseURL c) (HTTPClient_ c) (Timeout c)
    (Retries c) (RetryWaitMin c) (RetryWaitMax c) (CallbackIPWhitelist c)
    (parsedIPNets c) (Debug c) (parsedIPs c) (Language c) (logger c)
    v (qrOpts c) (qrCfg c).

Definition set_qrCfg (v : option qrConfig) (c : Client) : Client :=
  mkClient (AuthKey c) (SecretKey c) (BaseURL c) (HTTPClient_ c) (Timeout c)
    (Retries c) (RetryWaitMin c) (RetryWaitMax c) (CallbackIPWhitelist c)
    (parsedIPNets c) (Debug c) (parsedIPs c) (Language c) (logger c)
    (digest c) (qrOpts c) v.

(** [type Option func(c *Client)]: an option updates the client in place. *)
Definition Option : Type := Client -> Client.

(** [func (c *Client) Error(sentinel error, args ...any) error] *)
Definition Error (c : Client) (sentinel : Errors.Sentinel)
  : Errors.LocalizedError :=
  Errors.New (Language c) sentinel.

(** One round of the loop of [parseIPWhitelist]. *)
Definition parseEntry (c : Client) (ipStr : string) : Client :=
  match Net.ParseCIDR ipStr with
  | Some (_, ipNet) => set_parsedIPNets (parsedIPNets c ++ [ipNet]) c
  | None =>
      match Net.ParseIP ipStr with
      | Some ip => set_parsedIPs (parsedIPs c ++ [ip]) c
      | None => c
      end
  end.

(** [func (c *Client) parseIPWhitelist() {
       c.parsedIPNets = nil
       c.parsedIPs = nil
       for _, ipStr := range c.CallbackIPWhitelist {
         if _, ipNet, err := net.ParseCIDR(ipStr); err == nil {
           c.parsedIPNets = append(c.parsedIPNets, ipNet)
           continue }
         if ip := net.ParseIP(ipStr); ip != nil {
           c.parsedIPs = append(c.parsedIPs, ip) } } }] *)
Definition parseIPWhitelist (c : Client) : Client :=
  let c := set_parsedIPNets [] c in
  let c := set_parsedIPs [] c in
  fold_left parseEntry (CallbackIPWhitelist c) c.

(** [func (c *Client) IsIPWhitelisted(ipStr string) bool] *)
Definition IsIPWhitelisted (c : Client) (ipStr : string) : bool :=
  if (List.length (CallbackIPWhitelist c) =? 0)%nat then true
  else
    let host :=
      match Net.SplitHostPort ipStr with
      | Some (h, _) => h
      | None => ipStr
      end in
    match Net.ParseIP host with
    | None => false
    | Some ip =>
        if existsb (fun whitelistedIP => Net.Equal whitelistedIP ip)
             (parsedIPs c)
        then true
        else if existsb (fun ipNet => Net.Contains ipNet ip) (parsedIPNets c)
        then true
        else false
    end.

(** [func (c *Client) VerifyCallbackIP(ipStr string) error];
    [None] is the nil error. *)
Definition VerifyCallbackIP (c : Client) (ipStr : string)
  : option Errors.LocalizedError :=
  if (List.length (CallbackIPWhitelist c) =? 0)%nat then None
  else
    let host :=
      match Net.SplitHostPort ipStr with
      | Some (h, _) => h
      | None => ipStr
      end in
    match Net.ParseIP host with
    | None => Some (Error c Errors.ErrInvalidIPAddress)
    | Some _ =>
        if negb (IsIPWhitelisted c ipStr)
        then Some (Error c Errors.ErrIPNotWhitelisted)
        else None
    end.

(** *** The options of [option.go] *)

Definition WithBaseURL (baseURL : string) : Option :=
  fun c => set_BaseURL (Strings.TrimRight baseURL "/"%char) c.

Definition WithHTTPClient (httpClient : option HTTPClient) : Option :=
  fun c => set_HTTPClient httpClient c.

Definition WithTimeout (timeout : Time.Duration) : Option :=
  fun c => if 5 * Time.Second <=? timeout then set_Timeout timeout c else c.

Definition WithRetries (retries : Z) : Option :=
  fun c => if 0 <=? retries then set_Retries retries c else c.

Definition WithDebug (debug : bool) : Option :=
  fun c =>
    let c := set_Debug debug c in
    if debug then
      if Logger.isNop (logger c) then set_logger Logger.Default c else c
    else c.

(** [func WithRetryWait(min, max time.Duration) Option {
       return func(c *Client) {
         c.RetryWaitMin = min
         c.RetryWaitMax = max } }] *)
Definition WithRetryWait (min max : Time.Duration) : Option :=
  fun c =>
    let c := set_RetryWaitMin min c in
    set_RetryWaitMax max c.

Definition WithCallbackIPWhitelist (ips : list string) : Option :=
  fun c =>
    let c := set_CallbackIPWhitelist ips c in
    parseIPWhitelist c.

Definition WithLanguage (lang : I18n.Language) : Option :=
  fun c => if I18n.IsValid lang then set_Language lang c else c.

Definition WithLogger (l : option Logger.Handler) : Option :=
  fun c =>
    match l with
    | None => set_logger Logger.Nop c
    | Some l => set_logger l c
    end.

Definition WithDigest (digest : Signature.Digest) : Option :=
  fun c => set_digest digest c.

(** [func New(authKey, secretKey string, opts ...Option) *Client] *)
Definition New (authKey secretKey : string) (opts : list Option) : Client :=
  let c :=
    mkClient authKey secretKey Constants.DefaultBaseURL None
      (Constants.DefaultTimeout * Time.Second)
      Constants.DefaultRetries
      (Constants.DefaultRetryWaitMin * Time.Millisecond)
      (Constants.DefaultRetryWaitMax * Time.Millisecond)
      [] [] false [] I18n.English Logger.Nop None [] None in
  let c := fold_left (fun c opt => opt c) opts c in
  let c :=
    match HTTPClient_ c with
    | None => set_HTTPClient (Some (mkHTTPClient (Timeout c))) c
    | Some _ => c
    end in
  set_qrCfg (Some (fold_left (fun cfg opt => opt cfg) (qrOpts c) qrDefaults)) c.

End Client.

(** ** Vocabulary of the statements *)

(** The accesses of a comparison that visits every index below [n] of
    both operands, in order. *)
Definition full_scan (n : nat) : list Subtle.access :=
  flat_map (fun i => [Subtle.ReadX i; Subtle.ReadY i]) (seq 0 n).

(** A lowercase hexadecimal digit: ['0'..'9'] or ['a'..'f']. *)
Definition is_lower_hex (c : ascii) : bool :=
  let b := Go.byte_of_ascii c in
  ((48 <=? b) && (b <=? 57)) || ((97 <=? b) && (b <=? 102)).

(** The candidate with its port suffix, if any, removed. *)
Definition hostOf (ipStr : string) : string :=
  match Net.SplitHostPort ipStr with
  | Some (h, _) => h
  | None => ipStr
  end.

(** The ranges of a list of entries: the entries that parse as CIDR. *)
Definition netsOf (ips : list string) : list Net.IPNet :=
  flat_map (fun s => match Net.ParseCIDR s with
                     | Some (_, ipNet) => [ipNet]
                     | None => []
                     end) ips.

(** Its literal addresses: the entries that do not parse as CIDR and do
    parse as an address. *)
Definition literalsOf (ips : list string) : list Net.IP :=
  flat_map (fun s => match Net.ParseCIDR s with
                     | Some _ => []
                     | None => match Net.ParseIP s with
                               | Some ip => [ip]
                               | None => []
                               end
                     end) ips.

(** An entry that is neither a range nor an address. *)
Definition unparseable (s : string) : Prop :=
  Net.ParseCIDR s = None /\ Net.ParseIP s = None.

(** [ip] equals the literal address written by some entry of [ips]. *)
Definition equals_literal (ips : list string) (ip : Net.IP) : Prop :=
  exists s w, In s ips /\ Net.ParseCIDR s = None
              /\ Net.ParseIP s = Some w /\ Net.Equal w ip = true.

(** [ip] lies in the range written by some entry of [ips]. *)
Definition inside_range (ips : list string) (ip : Net.IP) : Prop :=
  exists s a ipNet, In s ips /\ Net.ParseCIDR s = Some (a, ipNet)
                    /\ Net.Contains ipNet ip = true.

(** The client holds the allow-list [ips] and its parsed form, as
    [WithCallbackIPWhitelist] leaves it. *)
Definition whitelist_configured (ips : list string) (c : Client.Client) : Prop :=
  Client.CallbackIPWhitelist c = ips
  /\ Client.parsedIPNets c = netsOf ips
  /\ Client.parsedIPs c = literalsOf ips.

(** The client of the examples: [New] with the allow-list [10.0.0.0/8]. *)
Definition client_10_8 : Client.Client :=
  Client.New "auth" "secret" [Client.WithCallbackIPWhitelist ["10.0.0.0/8"]].

(** The client of the example in the documentation of
    [WithCallbackIPWhitelist]. *)
Definition client_documented : Client.Client :=
  Client.New "auth" "secret"
    [Client.WithCallbackIPWhitelist
       ["192.168.1.1"; "10.0.0.0/8"; "2001:db8::/32"]].

(** A client whose only allow-list entry is not an address. *)
Definition client_unparseable : Client.Client :=
  Client.New "auth" "secret" [Client.WithCallbackIPWhitelist ["not-an-ip"]].

(** The options that the constructors of [option.go] build, those of
    [WithRetryWait] being given their bounds in order. *)
Inductive ordered_option : Client.Option -> Prop :=
| ordered_BaseURL (baseURL : string) :
    ordered_option (Client.WithBaseURL baseURL)
| ordered_HTTPClient (h : option Client.HTTPClient) :
    ordered_option (Client.WithHTTPClient h)
| ordered_Timeout (t : Time.Duration) :
    ordered_option (Client.WithTimeout t)
| ordered_Retries (n : Z) :
    ordered_option (Client.WithRetries n)
| ordered_Debug (b : bool) :
    ordered_option (Client.WithDebug b)
| ordered_RetryWait (min max : Time.Duration) :
    min <= max -> ordered_option (Client.WithRetryWait min max)
| ordered_CallbackIPWhitelist (ips : list string) :
    ordered_option (Client.WithCallbackIPWhitelist ips)
| ordered_Language (l : I18n.Language) :
    ordered_option (Client.WithLanguage l)
| ordered_Logger (l : option Logger.Handler) :
    ordered_option (Client.WithLogger l)
| ordered_Digest (d : Signature.Digest) :
    ordered_option (Client.WithDigest d).

(** The invariant of the retry policy. *)
Definition retry_wait_ordered (c : Client.Client) : Prop :=
  Client.RetryWaitMin c <= Client.RetryWaitMax c.

(** A segment that announces an auth key. *)
Definition is_operator (part : string) : bool :=
  String.eqb part "operator" || String.eqb part "operators".

(** The shape the position-based sanitizer redacts:
    [_/v2/integrations/operator(s)/key/...] with a non-empty key. *)
Definition position_pattern (parts : list string) : bool :=
  (5 <=? List.length parts)%nat
  && String.eqb (at_ parts 1) "v2"
  && String.eqb (at_ parts 2) "integrations"
  && (0 <? String.length (at_ parts 4))%nat
  && is_operator (at_ parts 3).

(** No segment [operator(s)] is followed by a non-empty segment. *)
Definition no_key_segment (parts : list string) : Prop :=
  forall i : nat,
    is_operator (at_ parts i) = true ->
    (i + 1 < List.length parts)%nat ->
    at_ parts (i + 1) = EmptyString.

(** ** unicode/utf8 and unicode: runes

    What the sanitizers of account data use of the standard library: the
    decoding of a string into runes ([[]rune(s)], [utf8.RuneCountInString]),
    the encoding back ([string(runes)]) and [unicode.IsSpace]. *)

Module Utf8.

Definition RuneError : Z := 65533.
Definition RuneSelf : Z := 128.
Definition MaxRune : Z := 1114111.
Definition surrogateMin : Z := 55296.
Definition surrogateMax : Z := 57343.

(** The codes of the table [first]: [xx] invalid, [as] ASCII, and for
    the leading bytes of longer encodings the size in the low three bits and
    the index of the range of the second byte in the high four. *)
Definition xx : Z := 241.
Definition as_ : Z := 240.
Definition s1 : Z := 2.
Definition s2 : Z := 19.
Definition s3 : Z := 3.
Definition s4 : Z := 35.
Definition s5 : Z := 52.
Definition s6 : Z := 4.
Definition s7 : Z := 68.

(** [first[b]] *)
Definition first (b : Z) : Z :=
  if b <? 128 then as_
  else if b <? 194 then xx
  else if b <? 224 then s1
  else if b =? 224 then s2
  else if b <? 237 then s3
  else if b =? 237 then s4
  else if b <? 240 then s3
  else if b =? 240 then s5
  else if b <? 244 then s6
  else if b =? 244 then s7
  else xx.

(** [acceptRanges[i]]: the bounds [(lo, hi)] of the second byte. *)
Definition acceptRanges (i : Z) : Z * Z :=
  if i =? 0 then (128, 191)
  else if i =? 1 then (160, 191)
  else if i =? 2 then (128, 159)
  else if i =? 3 then (144, 191)
  else if i =? 4 then (128, 143)
  else (0, 0).

(** [func DecodeRuneInString(s string) (rune, int)]: the first rune of
    [s] and its width in bytes; [(RuneError, 1)] for an invalid or short
    encoding, [(RuneError, 0)] for the empty string. *)
Definition DecodeRuneInString (s : list Z) : Z * nat :=
  match s with
  | [] => (RuneError, 0%nat)
  | b0 :: _ =>
      let n := Z.of_nat (List.length s) in
      let x := first b0 in
      if as_ <=? x then
        (* mask := rune(x) << 31 >> 31: all ones exactly when x is xx *)
        ((if Z.odd x then RuneError else b0), 1%nat)
      else
        let sz := Z.land x 7 in
        let '(lo, hi) := acceptRanges (Z.shiftr x 4) in
        if n <? sz then (RuneError, 1%nat)
        else
          let b1 := Go.index s 1 in
          if (b1 <? lo) || (hi <? b1) then (RuneError, 1%nat)
          else if sz <=? 2 then
            (Z.lor (Z.shiftl (Z.land b0 31) 6) (Z.land b1 63), 2%nat)
          else
            let b2 := Go.index s 2 in
            if (b2 <? 128) || (191 <? b2) then (RuneError, 1%nat)
            else if sz <=? 3 then
              (Z.lor (Z.shiftl (Z.land b0 15) 12)
                 (Z.lor (Z.shiftl (Z.land b1 63) 6) (Z.land b2 63)), 3%nat)
            else
              let b3 := Go.index s 3 in
              if (b3 <? 128) || (191 <? b3) then (RuneError, 1%nat)
              else
                (Z.lor (Z.shiftl (Z.land b0 7) 18)
                   (Z.lor (Z.shiftl (Z.land b1 63) 12)
                      (Z.lor (Z.shiftl (Z.land b2 63) 6) (Z.land b3 63))),
                 4%nat)
  end.

(** [[]rune(s)], as [for _, r := range s] yields them.  Every round
    consumes at least one byte, so [fuel = len(s)] is enough. *)
Fixpoint runesLoop (fuel : nat) (s : list Z) : list Z :=
  match fuel with
  | O => []
  | Datatypes.S fuel' =>
      match s with
      | [] => []
      | _ =>
          let '(r, w) := DecodeRuneInString s in
          r :: runesLoop fuel' (skipn w s)
      end
  end.

Definition runes (s : list Z) : list Z := runesLoop (List.length s) s.

(** [func RuneCountInString(s string) int]: one for every valid encoding
    and one for every byte that starts none. *)
Fixpoint runeCountLoop (fuel : nat) (s : list Z) : Z :=
  match fuel with
  | O => 0
  | Datatypes.S fuel' =>
      match s with
      | [] => 0
      | _ => 1 + runeCountLoop fuel' (skipn (snd (DecodeRuneInString s)) s)
      end
  end.

Definition RuneCountInString (s : list Z) : Z :=
  runeCountLoop (List.length s) s.

(** [func AppendRune(p []byte, r rune) []byte], on an empty [p]. *)
Definition EncodeRune (r : Z) : list Z :=
  let i := Go.uint32 r in
  let three (r : Z) :=
    [ Z.lor 224 (Go.uint8 (Z.shiftr r 12));
      Z.lor 128 (Z.land (Go.uint8 (Z.shiftr r 6)) 63);
      Z.lor 128 (Z.land (Go.uint8 r) 63) ] in
  if i <=? 127 then [Go.uint8 r]
  else if i <=? 2047 then
    [ Z.lor 192 (Go.uint8 (Z.shiftr r 6));
      Z.lor 128 (Z.land (Go.uint8 r) 63) ]
  else if (MaxRune <? i) || ((surrogateMin <=? i) && (i <=? surrogateMax))
  then three RuneError
  else if i <=? 65535 then three r
  else
    [ Z.lor 240 (Go.uint8 (Z.shiftr r 18));
      Z.lor 128 (Z.land (Go.uint8 (Z.shiftr r 12)) 63);
      Z.lor 128 (Z.land (Go.uint8 (Z.shiftr r 6)) 63);
      Z.lor 128 (Z.land (Go.uint8 r) 63) ].

(** [string(runes)] *)
Definition encode (rs : list Z) : list Z := flat_map EncodeRune rs.

End Utf8.

Module Unicode.

(** [func IsSpace(r rune) bool]: in Latin-1 the six ASCII spaces, U+0085
    and U+00A0; beyond it the ranges of the property [White_Space]. *)
Definition IsSpace (r : Z) : bool :=
  if Go.uint32 r <=? 255 then
    (r =? 9) || (r =? 10) || (r =? 11) || (r =? 12) || (r =? 13)
    || (r =? 32) || (r =? 133) || (r =? 160)
  else
    (r =? 5760) || ((8192 <=? r) && (r <=? 8202))
    || (r =? 8232) || (r =? 8233) || (r =? 8239) || (r =? 8287)
    || (r =? 12288).

End Unicode.

(** ** strings.Fields *)

Module Fields.

(** [asciiSpace[b]]: tab, line feed, vertical tab, form feed, carriage
    return and space. *)
Definition asciiSpace (b : Z) : bool :=
  (b =? 9) || (b =? 10) || (b =? 11) || (b =? 12) || (b =? 13) || (b =? 32).

(** The ASCII path of [Fields]: the maximal runs of bytes that are not
    spaces.  [cur] is the field begun and not yet ended, if any
    ([s[fieldStart:i]]). *)
Fixpoint fieldsASCII (s : list Z) (cur : option (list Z)) : list (list Z) :=
  match s with
  | [] => match cur with Some f => [f] | None => [] end
  | b :: rest =>
      if asciiSpace b then
        match cur with
        | Some f => f :: fieldsASCII rest None
        | None => fieldsASCII rest None
        end
      else
        match cur with
        | Some f => fieldsASCII rest (Some (f ++ [b]))
        | None => fieldsASCII rest (Some [b])
        end
  end.

(** [func FieldsFunc(s string, f func(rune) bool) []string]: the same over
    runes; [cur] is the span [s[start:end]] begun. *)
Fixpoint fieldsFuncLoop (fuel : nat) (f : Z -> bool) (s : list Z)
    (cur : option (list Z)) : list (list Z) :=
  match fuel with
  | O => match cur with Some fld => [fld] | None => [] end
  | Datatypes.S fuel' =>
      match s with
      | [] => match cur with Some fld => [fld] | None => [] end
      | _ =>
          let '(r, w) := Utf8.DecodeRuneInString s in
          if f r then
            match cur with
            | Some fld => fld :: fieldsFuncLoop fuel' f (skipn w s) None
            | None => fieldsFuncLoop fuel' f (skipn w s) None
            end
          else
            match cur with
            | Some fld =>
                fieldsFuncLoop fuel' f (skipn w s) (Some (fld ++ firstn w s))
            | None => fieldsFuncLoop fuel' f (skipn w s) (Some (firstn w s))
            end
      end
  end.

Definition FieldsFunc (s : list Z) (f : Z -> bool) : list (list Z) :=
  fieldsFuncLoop (List.length s) f s None.

(** [func Fields(s string) []string]: the ASCII path when every byte of
    [s] is below [utf8.RuneSelf], [FieldsFunc(s, unicode.IsSpace)]
    otherwise. *)
Definition Fields (s : list Z) : list (list Z) :=
  if forallb (fun b => b <? Utf8.RuneSelf) s then fieldsASCII s None
  else FieldsFunc s Unicode.IsSpace.

End Fields.

(** ** internal/sanitize: account data (same file as the scanning
    [Endpoint]) *)

Module SanitizeAccount.

(** [string(b)] for a slice of bytes. *)
Definition of_bytes (l : list Z) : string :=
  string_of_list_ascii (map (fun b => ascii_of_N (Z.to_N b)) l).

(** [func AccountNumber(accountNumber string) string {
       if accountNumber == "" { return "" }
       runeCount := utf8.RuneCountInString(accountNumber)
       if runeCount <= 4 { return "****" }
       runes := []rune(accountNumber)
       return "****" + string(runes[runeCount-4:]) }] *)
Definition AccountNumber (accountNumber : string) : string :=
  if String.eqb accountNumber EmptyString then EmptyString
  else
    let runeCount := Utf8.RuneCountInString (Go.bytes accountNumber) in
    if runeCount <=? 4 then "****"
    else
      let runes := Utf8.runes (Go.bytes accountNumber) in
      ("****" ++ of_bytes (Utf8.encode (skipn (Z.to_nat (runeCount - 4)) runes)))%string.

(** The body of the loop of [AccountName]:
    [runes := []rune(word); if len(runes) > 0 { masked[i] = string(runes[0]) + "***" }];
    an entry of [masked] that is not assigned stays empty. *)
Definition maskWord (word : list Z) : string :=
  match Utf8.runes word with
  | r :: _ => (of_bytes (Utf8.EncodeRune r) ++ "***")%string
  | [] => EmptyString
  end.

(** [func AccountName(accountName string) string {
       if accountName == "" { return "" }
       words := strings.Fields(accountName)
       if len(words) == 0 { return "" }
       masked := make([]string, len(words))
       for i, word := range words { ... }
       return strings.Join(masked, " ") }] *)
Definition AccountName (accountName : string) : string :=
  if String.eqb accountName EmptyString then EmptyString
  else
    let words := Fields.Fields (Go.bytes accountName) in
    if (List.length words =? 0)%nat then EmptyString
    else
      let masked := map maskWord words in
      Strings.Join masked " ".

End SanitizeAccount.


(** ** fmt: the verbs [%d] and [%03d] *)

Module Fmt.

(** [digits[d]] for [digits = "0123456789abcdefx"] and a decimal [d]. *)
Definition digit (d : Z) : ascii := ascii_of_N (Z.to_N (48 + d)).

(** The loop of [fmtInteger] for base 10, which writes [u] into [buf]
    from the right:
    [for u >= 10 { i--; next := u / 10; buf[i] = byte('0' + u - next*10); u = next };
     i--; buf[i] = digits[u]].
    A [uint64] has at most twenty digits, so the loop runs at most nineteen
    times. *)
Fixpoint fmtDigits (fuel : nat) (u : Z) (buf : string) : string :=
  match fuel with
  | O => String (digit u) buf
  | Datatypes.S fuel' =>
      if 10 <=? u then
        let next := u / 10 in
        fmtDigits fuel' next (String (digit (u - next * 10)) buf)
      else String (digit u) buf
  end.

(** [for i > 0 && prec > len(buf)-i { i--; buf[i] = '0' }] *)
Fixpoint zeros (k : nat) (buf : string) : string :=
  match k with
  | O => buf
  | Datatypes.S k' => zeros k' (String "0" buf)
  end.

(** [func (f *fmt) fmtInteger(u uint64, base int, isSigned bool, ...)] for
    a signed value [v] in base 10; [zeroWid] is the width of a verb with the
    flag [0] ([%03d] has 3), or [0] for the plain [%d].  With the flag the
    digits are filled with zeros up to the width, less one for a sign. *)
Definition fmtInteger (v : Z) (zeroWid : Z) : string :=
  let negative := v <? 0 in
  let u := if negative then - v else v in
  let prec :=
    if (0 <? zeroWid) && negative then zeroWid - 1 else zeroWid in
  let buf := fmtDigits 19 u EmptyString in
  let buf := zeros (Z.to_nat (prec - Strings.len buf)) buf in
  if negative then String "-" buf else buf.

(** [fmt.Sprintf("%d", v)] *)
Definition Sprintf_d (v : Z) : string := fmtInteger v 0.

(** [fmt.Sprintf("%03d", v)] *)
Definition Sprintf_03d (v : Z) : string := fmtInteger v 3.

End Fmt.

(** ** net/url: QueryEscape *)

Module Url.

Definition upperhex : string := "0123456789ABCDEF".

Definition upperhexdigit (n : Z) : ascii :=
  match String.get (Z.to_nat n) upperhex with
  | Some c => c
  | None => "0"%char
  end.

(** [func shouldEscape(c byte, mode encoding) bool] for
    [mode == encodeQueryComponent]: letters, digits and [-_.~] are kept,
    every other byte is escaped. *)
Definition shouldEscape (c : Z) : bool :=
  if ((97 <=? c) && (c <=? 122)) || ((65 <=? c) && (c <=? 90))
     || ((48 <=? c) && (c <=? 57))
  then false
  else if (c =? 45) || (c =? 95) || (c =? 46) || (c =? 126) then false
  else true.

(** The first loop of [escape]: the numbers of spaces and of other bytes
    to escape. *)
Fixpoint counts (s : string) (spaceCount hexCount : Z) : Z * Z :=
  match s with
  | EmptyString => (spaceCount, hexCount)
  | String a rest =>
      let c := Go.byte_of_ascii a in
      if shouldEscape c then
        if c =? 32 then counts rest (spaceCount + 1) hexCount
        else counts rest spaceCount (hexCount + 1)
      else counts rest spaceCount hexCount
  end.

(** [copy(t, s); for i := 0; i < len(s); i++ { if s[i] == ' ' { t[i] = '+' } }] *)
Fixpoint plusSpaces (s : string) : string :=
  match s with
  | EmptyString => EmptyString
  | String a rest =>
      String (if Go.byte_of_ascii a =? 32 then "+"%char else a)
        (plusSpaces rest)
  end.

(** The last loop of [escape]: [+] for a space, [%XX] for a byte to
    escape, the byte itself otherwise. *)
Fixpoint escapeLoop (s : string) : string :=
  match s with
  | EmptyString => EmptyString
  | String a rest =>
      let c := Go.byte_of_ascii a in
      if c =? 32 then String "+" (escapeLoop rest)
      else if shouldEscape c then
        String "%"
          (String (upperhexdigit (Z.shiftr c 4))
             (String (upperhexdigit (Z.land c 15)) (escapeLoop rest)))
      else String a (escapeLoop rest)
  end.

(** [func escape(s string, mode encoding) string] *)
Definition escape (s : string) : string :=
  let '(spaceCount, hexCount) := counts s 0 0 in
  if (spaceCount =? 0) && (hexCount =? 0) then s
  else if hexCount =? 0 then plusSpaces s
  else escapeLoop s.

(** [func QueryEscape(s string) string] *)
Definition QueryEscape (s : string) : string := escape s.

End Url.

(** ** github.com/google/uuid *)

Module Uuid.

(** [type UUID [16]byte] *)
Definition UUID : Type := list Z.

Definition sub (u : UUID) (lo hi : nat) : list Z :=
  firstn (hi - lo) (skipn lo u).

(** [func (uuid UUID) String() string], through [encodeHex]: the bytes in
    hexadecimal, with hyphens after the bytes 4, 6, 8 and 10. *)
Definition String_ (u : UUID) : string :=
  (Hex.EncodeToString (sub u 0 4) ++ "-"
   ++ Hex.EncodeToString (sub u 4 6) ++ "-"
   ++ Hex.EncodeToString (sub u 6 8) ++ "-"
   ++ Hex.EncodeToString (sub u 8 10) ++ "-"
   ++ Hex.EncodeToString (sub u 10 16))%string.

End Uuid.

(** ** client: helpers.go *)

Module Helpers.

(** [strings.Contains(s, substr)] for a one-byte [substr]. *)
Definition Contains (s : string) (c : ascii) : bool :=
  0 <=? Strings.IndexByte s c.

(** [strings.ReplaceAll(s, old, new)] for a one-byte [old]. *)
Fixpoint ReplaceAll (s : string) (old : ascii) (new : string) : string :=
  match s with
  | EmptyString => EmptyString
  | String a rest =>
      if Ascii.eqb a old then (new ++ ReplaceAll rest old new)%string
      else String a (ReplaceAll rest old new)
  end.

(** [if len(prefix) > 3 { prefix = prefix[:3] }] *)
Definition shorten (prefix : string) : string :=
  if 3 <? Strings.len prefix then Strings.slice prefix 0 3 else prefix.

(** [func GenerateTransactionID(prefix string) string].  What the function
    reads from its environment is given as arguments: [timestamp] is
    [time.Now().Format("20060102150405")], [randomNum] the number that
    [rand.Int(rand.Reader, big.NewInt(1000))] returns, or [None] for its
    error, and [nanosecond] is [time.Now().Nanosecond()]. *)
Definition GenerateTransactionID (prefix timestamp : string)
    (randomNum : option Z) (nanosecond : Z) : string :=
  let prefix := shorten prefix in
  match randomNum with
  | None =>
      (prefix ++ timestamp ++ Fmt.Sprintf_03d (Z.rem nanosecond 1000))%string
  | Some r => (prefix ++ timestamp ++ Fmt.Sprintf_03d r)%string
  end.

(** [func GenerateUUIDTransactionID(prefix string) string]; [id] is the
    UUID that [uuid.NewRandom()] returns, or [None] for its error. *)
Definition GenerateUUIDTransactionID (prefix : string)
    (id : option Uuid.UUID) (timestamp : string) (randomNum : option Z)
    (nanosecond : Z) : string :=
  let prefix := shorten prefix in
  match id with
  | None => GenerateTransactionID prefix timestamp randomNum nanosecond
  | Some u =>
      let uuidStr := ReplaceAll (Uuid.String_ u) "-" EmptyString in
      let uuidStr :=
        if 17 <? Strings.len uuidStr then Strings.slice uuidStr 0 17
        else uuidStr in
      (prefix ++ uuidStr)%string
  end.

(** [func BuildReturnURL(paymentURL, returnURL string) string] *)
Definition BuildReturnURL (paymentURL returnURL : string) : string :=
  let separator := if Contains paymentURL "?" then "&" else "?" in
  (paymentURL ++ separator ++ "return=" ++ Url.QueryEscape returnURL)%string.

(** The loop of [FormatAmountIDR]:
    [for i := remainder; i < n; i += 3 {
       if i > remainder { result.WriteString(".") }
       result.WriteString(str[i : i+3]) }] *)
Fixpoint groupLoop (fuel : nat) (str : string) (remainder n i : Z)
    (result : string) : string :=
  match fuel with
  | O => result
  | Datatypes.S fuel' =>
      if i <? n then
        let result :=
          if remainder <? i then (result ++ ".")%string else result in
        let result := (result ++ Strings.slice str i (i + 3))%string in
        groupLoop fuel' str remainder n (i + 3) result
      else result
  end.

(** [func FormatAmountIDR(amount int64) string] *)
Definition FormatAmountIDR (amount : Z) : string :=
  let str := Fmt.Sprintf_d amount in
  let n := Strings.len str in
  if n <=? 3 then ("Rp " ++ str)%string
  else
    let result := "Rp " in
    let remainder := Z.rem n 3 in
    let result :=
      if 0 <? remainder then
        let result := (result ++ Strings.slice str 0 remainder)%string in
        if 3 <? n then (result ++ ".")%string else result
      else result in
    groupLoop (String.length str) str remainder n remainder result.

End Helpers.

(** ** client: qr_option.go *)

Module QROptions.

(** [func WithQRSize(pixels int) QROption {
       return func(c *qrConfig) { if pixels > 0 { c.size = pixels } } }] *)
Definition WithQRSize (pixels : Z) : Client.QROption :=
  fun c =>
    if 0 <? pixels then
      Client.mkQRConfig pixels (Client.level c) (Client.foregroundColor c)
        (Client.backgroundColor c)
    else c.

(** [func WithQRRecoveryLevel(level QRRecoveryLevel) QROption] *)
Definition WithQRRecoveryLevel (level : Client.QRRecoveryLevel)
  : Client.QROption :=
  fun c =>
    Client.mkQRConfig (Client.size c) level (Client.foregroundColor c)
      (Client.backgroundColor c).

(** [func WithQRForegroundColor(fg color.Color) QROption]; [None] is the
    nil colour, which is ignored. *)
Definition WithQRForegroundColor (fg : option Client.Color)
  : Client.QROption :=
  fun c =>
    match fg with
    | Some col =>
        Client.mkQRConfig (Client.size c) (Client.level c) col
          (Client.backgroundColor c)
    | None => c
    end.

(** [func WithQRBackgroundColor(bg color.Color) QROption] *)
Definition WithQRBackgroundColor (bg : option Client.Color)
  : Client.QROption :=
  fun c =>
    match bg with
    | Some col =>
        Client.mkQRConfig (Client.size c) (Client.level c)
          (Client.foregroundColor c) col
    | None => c
    end.

End QROptions.
(** ** Vocabulary of the further properties *)

(** [c] does not occur in [s]. *)
Fixpoint free_of (c : ascii) (s : string) : bool :=
  match s with
  | EmptyString => true
  | String a rest => negb (Ascii.eqb a c) && free_of c rest
  end.

(** The replacement text of the sanitizers. *)
Definition REDACTED : string := "[REDACTED]".

(** Segment [i] announces a key that the scanning sanitizer redacts:
    it is [operator(s)] and is followed by a non-empty segment. *)
Definition redactable (parts : list string) (i : nat) : bool :=
  is_operator (at_ parts i)
  && (i + 1 <? List.length parts)%nat
  && (0 <? String.length (at_ parts (i + 1)))%nat.

(** The first such segment, if any. *)
Definition first_key (parts : list string) : option nat :=
  find (redactable parts) (seq 0 (List.length parts)).

(** The options that the constructors of [option.go] build, with any
    arguments. *)
Inductive sdk_option : Client.Option -> Prop :=
| sdk_BaseURL (baseURL : string) :
    sdk_option (Client.WithBaseURL baseURL)
| sdk_HTTPClient (h : option Client.HTTPClient) :
    sdk_option (Client.WithHTTPClient h)
| sdk_Timeout (t : Time.Duration) :
    sdk_option (Client.WithTimeout t)
| sdk_Retries (n : Z) :
    sdk_option (Client.WithRetries n)
| sdk_Debug (b : bool) :
    sdk_option (Client.WithDebug b)
| sdk_RetryWait (min max : Time.Duration) :
    sdk_option (Client.WithRetryWait min max)
| sdk_CallbackIPWhitelist (ips : list string) :
    sdk_option (Client.WithCallbackIPWhitelist ips)
| sdk_Language (l : I18n.Language) :
    sdk_option (Client.WithLanguage l)
| sdk_Logger (l : option Logger.Handler) :
    sdk_option (Client.WithLogger l)
| sdk_Digest (d : Signature.Digest) :
    sdk_option (Client.WithDigest d).

(** [s] ends with the byte [c] ([strings.HasSuffix] for one byte). *)
Fixpoint ends_with (c : ascii) (s : string) : bool :=
  match s with
  | EmptyString => false
  | String a EmptyString => Ascii.eqb a c
  | String _ rest => ends_with c rest
  end.

(** [n] copies of the byte [c]. *)
Fixpoint replicate (n : nat) (c : ascii) : string :=
  match n with
  | O => EmptyString
  | Datatypes.S n' => String c (replicate n' c)
  end.

(** An option that leaves the HTTP client of the client alone. *)
Definition keeps_http (o : Client.Option) : Prop :=
  forall c, Client.HTTPClient_ (o c) = Client.HTTPClient_ c.

(** The client that [New] starts from, before it applies the options. *)
Definition defaults (authKey secretKey : string) : Client.Client :=
  Client.mkClient authKey secretKey Constants.DefaultBaseURL None
    (Constants.DefaultTimeout * Time.Second)
    Constants.DefaultRetries
    (Constants.DefaultRetryWaitMin * Time.Millisecond)
    (Constants.DefaultRetryWaitMax * Time.Millisecond)
    [] [] false [] I18n.English Logger.Nop None [] None.

(** The options applied in order, [for _, opt := range opts { opt(c) }]. *)
Definition apply_options (opts : list Client.Option) (c : Client.Client)
  : Client.Client :=
  fold_left (fun c opt => opt c) opts c.

(** ** client/signature.go *)

Module ClientSignature.

(** [func (c *Client) GenerateSignature(data string) string {
       return signature.GenerateWithDigest(data, c.digest) }] *)
Definition GenerateSignature (c : Client.Client) (data : string) : string :=
  Signature.GenerateWithDigest data (Client.digest c).

(** [func (c *Client) VerifySignature(expected, actual string) bool {
       return signature.Verify(expected, actual) }] *)
Definition VerifySignature (c : Client.Client) (expected actual : string)
  : bool :=
  Signature.Verify expected actual.

End ClientSignature.

(** The digest bytes that [GenerateWithDigest] renders in hexadecimal. *)
Definition digest_bytes (data : string) (digest : Signature.Digest) : list Z :=
  match digest with
  | None => MD5.Sum (Go.bytes data)
  | Some digest =>
      Signature.Sum (Signature.Write (digest tt) (Go.bytes data)) []
  end.

(** The digest [d] does not depend on the state of the process: it is nil,
    or whenever it is called it returns the hash that the digest [p] without
    state returns. *)
Inductive state_free {World : Type}
  : SignatureState.Digest World -> Signature.Digest -> Prop :=
| state_free_nil : state_free None None
| state_free_new (new : World -> option Signature.Hash * World)
    (p : unit -> Signature.Hash) :
    (forall w, fst (new w) = Some (p tt)) ->
    state_free (Some new) (Some p).

(** [md5.New] in a process that counts the hashes it has made:
    [func() hash.Hash { made++; return md5.New() }]. *)
Definition counted_md5 : SignatureState.Digest Z :=
  Some (fun made => (Some (Signature.md5_New tt), made + 1)).

(** MD5 salted with a counter of the process, which every call moves on:
    [func() hash.Hash { h := md5.New(); h.Write([]byte{salt}); salt++; return h }]
    for a variable [salt] of type [byte]. *)
Definition salted_md5 : SignatureState.Digest Z :=
  Some (fun salt =>
          (Some (Signature.Write (Signature.md5_New tt) [salt]),
           (salt + 1) mod 256)).


(** An option that leaves the digest of the client alone. *)
Definition keeps_digest (o : Client.Option) : Prop :=
  forall c, Client.digest (o c) = Client.digest c.

(** Every byte of [s] is an ASCII character. *)
Definition ascii_only (s : string) : bool :=
  forallb (fun b => b <? 128) (Go.bytes s).


(** No byte of [s] is one of the six ASCII white spaces. *)
Definition no_space (s : string) : bool :=
  forallb (fun b => negb (Fields.asciiSpace b)) (Go.bytes s).

(** Two masked names put side by side: a single space between them when
    neither is empty. *)
Definition beside (x y : string) : string :=
  if String.eqb x EmptyString then y
  else if String.eqb y EmptyString then x
  else (x ++ " " ++ y)%string.

(** A masked word: one character that is no space, then three stars. *)
Definition masked_initial (seg : string) : bool :=
  match seg with
  | String c rest =>
      negb (Fields.asciiSpace (Go.byte_of_ascii c)) && String.eqb rest "***"
  | EmptyString => false
  end.

(** A word as [strings.Fields] gives them for an ASCII string: not empty,
    and of ASCII bytes that are no spaces. *)
Definition word_ok (w : list Z) : Prop :=
  w <> [] /\
  Forall (fun b => 0 <= b /\ (b <? 128) = true
                   /\ Fields.asciiSpace b = false) w.

(** The values of [int64]. *)
Definition int64 (a : Z) : Prop := - 2 ^ 63 <= a < 2 ^ 63.

(** Reading a string of decimal digits from the left, from the value [acc]
    of the digits read before; [None] when a byte is no digit. *)
Fixpoint dec (acc : Z) (s : string) : option Z :=
  match s with
  | EmptyString => Some acc
  | String c rest =>
      let b := Go.byte_of_ascii c in
      if (48 <=? b) && (b <=? 57) then dec (acc * 10 + (b - 48)) rest
      else None
  end.

(** Groups of an amount: one to three bytes first, then three bytes
    each. *)
Definition grouped (groups : list string) : bool :=
  match groups with
  | [] => false
  | first :: others =>
      (1 <=? String.length first)%nat && (String.length first <=? 3)%nat
      && forallb (fun g => (String.length g =? 3)%nat) others
  end.

(** [s] without its dots. *)
Definition undot (s : string) : string :=
  Helpers.ReplaceAll s "." EmptyString.

(** The text of a formatted amount after the currency sign ["Rp "]. *)
Definition figures (formatted : string) : string :=
  Strings.slice_from formatted 3.

(** The strings of [l] one after the other. *)
Definition flatten (l : list string) : string :=
  fold_right append EmptyString l.

(** A byte that may stand in an escaped query value: a letter, a digit,
    one of [-_.~], or the [+] and [%] that the escaping writes. *)
Definition query_safe (c : ascii) : bool :=
  negb (Url.shouldEscape (Go.byte_of_ascii c))
  || Ascii.eqb c "+" || Ascii.eqb c "%".

(** The value of an upper-case hexadecimal digit. *)
Definition upperhexval (c : ascii) : Z :=
  let b := Go.byte_of_ascii c in
  if (48 <=? b) && (b <=? 57) then b - 48 else b - 55.

(** Reading an escaped query value back: a space for [+], the byte for
    [%XX], any other byte as it is. *)
Fixpoint unescape (s : string) : string :=
  match s with
  | EmptyString => EmptyString
  | String c rest =>
      if Ascii.eqb c "+" then String " " (unescape rest)
      else if Ascii.eqb c "%" then
        match rest with
        | String h (String l rest') =>
            String (ascii_of_N (Z.to_N (16 * upperhexval h + upperhexval l)))
              (unescape rest')
        | _ => String c (unescape rest)
        end
      else String c (unescape rest)
  end.

(** What stands after [return=] in the result of [BuildReturnURL] for the
    payment URL [paymentURL]: the separator and [return=] take eight
    bytes. *)
Definition return_value (paymentURL result : string) : string :=
  Strings.slice_from result (Strings.len paymentURL + 8).

(** The QR options that the constructors of [qr_option.go] build, with
    any arguments. *)
Inductive qr_option : Client.QROption -> Prop :=
| qr_Size (pixels : Z) : qr_option (QROptions.WithQRSize pixels)
| qr_RecoveryLevel (level : Client.QRRecoveryLevel) :
    qr_option (QROptions.WithQRRecoveryLevel level)
| qr_ForegroundColor (fg : option Client.Color) :
    qr_option (QROptions.WithQRForegroundColor fg)
| qr_BackgroundColor (bg : option Client.Color) :
    qr_option (QROptions.WithQRBackgroundColor bg).

(** An option of the client that stores the QR options [v], to be applied
    by [New]. *)
Definition set_qrOpts (v : list Client.QROption) : Client.Option :=
  fun c =>
    Client.mkClient (Client.AuthKey c) (Client.SecretKey c) (Client.BaseURL c)
      (Client.HTTPClient_ c) (Client.Timeout c) (Client.Retries c)
      (Client.RetryWaitMin c) (Client.RetryWaitMax c)
      (Client.CallbackIPWhitelist c) (Client.parsedIPNets c) (Client.Debug c)
      (Client.parsedIPs c) (Client.Language c) (Client.logger c)
      (Client.digest c) v (Client.qrCfg c).
(* ================================================================== *)
(** * Part II.  Properties                                            *)
(* ================================================================== *)

(** ** Bytes *)

Lemma is_byte_land (a : Z) : Go.is_byte a <-> Z.land a 255 = a.
Proof.
  unfold Go.is_byte.
  change 255 with (Z.ones 8).
  rewrite Z.land_ones by lia.
  change (2 ^ 8) with 256.
  split; intros H.
  - apply Z.mod_small; exact H.
  - rewrite <- H. apply Z.mod_pos_bound. lia.
Qed.

Lemma is_byte_lor (a b : Z) :
  Go.is_byte a -> Go.is_byte b -> Go.is_byte (Z.lor a b).
Proof.
  rewrite !is_byte_land. intros Ha Hb.
  rewrite Z.land_lor_distr_l, Ha, Hb. reflexivity.
Qed.

Lemma is_byte_lxor (a b : Z) :
  Go.is_byte a -> Go.is_byte b -> Go.is_byte (Z.lxor a b).
Proof.
  rewrite !is_byte_land. intros Ha Hb.
  apply Z.bits_inj'. intros n Hn.
  assert (Ha' := f_equal (fun z => Z.testbit z n) Ha).
  assert (Hb' := f_equal (fun z => Z.testbit z n) Hb).
  cbv beta in Ha', Hb'.
  rewrite Z.land_spec in Ha', Hb'.
  rewrite Z.land_spec, Z.lxor_spec.
  destruct (Z.testbit a n), (Z.testbit b n), (Z.testbit 255 n);
    simpl in *; congruence.
Qed.

Lemma is_byte_of_ascii (a : ascii) : Go.is_byte (Go.byte_of_ascii a).
Proof.
  unfold Go.is_byte, Go.byte_of_ascii.
  pose proof (N_ascii_bounded a). lia.
Qed.

Lemma byte_of_ascii_inj (a b : ascii) :
  Go.byte_of_ascii a = Go.byte_of_ascii b -> a = b.
Proof.
  unfold Go.byte_of_ascii. intros H.
  apply N2Z.inj in H.
  rewrite <- (ascii_N_embedding a), <- (ascii_N_embedding b), H.
  reflexivity.
Qed.

Lemma bytes_inj (s t : string) : Go.bytes s = Go.bytes t -> s = t.
Proof.
  unfold Go.bytes. revert t.
  induction s as [|a s IH]; intros [|b t] H; simpl in H;
    try discriminate; [reflexivity|].
  injection H as Hab Hst.
  f_equal; [apply byte_of_ascii_inj; assumption | apply IH; assumption].
Qed.

Lemma bytes_all_byte (s : string) : Forall Go.is_byte (Go.bytes s).
Proof.
  unfold Go.bytes.
  induction (list_ascii_of_string s); simpl; constructor;
    auto using is_byte_of_ascii.
Qed.

(** ** crypto/subtle *)

Lemma ConstantTimeByteEq_zero (v : Z) :
  Go.is_byte v -> (Subtle.ConstantTimeByteEq v 0 = 1 <-> v = 0).
Proof.
  unfold Go.is_byte, Subtle.ConstantTimeByteEq, Go.uint32.
  intros Hv. rewrite Z.lxor_0_r.
  rewrite (Z.mod_small v) by lia.
  rewrite Z.shiftr_div_pow2 by lia.
  destruct (Z.eq_dec v 0) as [->|Hnz].
  - split; [reflexivity|]. intros _. reflexivity.
  - split; [|contradiction].
    rewrite (Z.mod_small (v - 1)) by lia.
    rewrite Z.div_small by lia. discriminate.
Qed.

(** The loop over the indices of [a :: x] from [k + 1] on is the loop over
    the indices of [x] from [k] on. *)
Lemma fold_step_cons (a b : Z) (x y : list Z) (n k : nat) (v : Z) :
  fold_left (Subtle.step (a :: x) (b :: y)) (seq (S k) n) v
  = fold_left (Subtle.step x y) (seq k n) v.
Proof.
  revert k v. induction n as [|n IH]; intros k v; simpl; [reflexivity|].
  rewrite IH. reflexivity.
Qed.

Lemma fold_step_zero (x y : list Z) (v : Z) :
  List.length x = List.length y ->
  Forall Go.is_byte x -> Forall Go.is_byte y -> Go.is_byte v ->
  let r := fold_left (Subtle.step x y) (seq 0 (List.length x)) v in
  Go.is_byte r /\ (r = 0 <-> v = 0 /\ x = y).
Proof.
  revert y v. induction x as [|a x IH]; intros [|b y] v Hlen Hx Hy Hv;
    simpl in Hlen; try discriminate.
  - simpl. split; [assumption|]. tauto.
  - injection Hlen as Hlen.
    inversion Hx as [|? ? Ha Hx']; subst.
    inversion Hy as [|? ? Hb Hy']; subst.
    cbn [List.length seq fold_left].
    rewrite fold_step_cons.
    assert (Hv' : Go.is_byte (Subtle.step (a :: x) (b :: y) v 0)).
    { unfold Subtle.step, Go.index. simpl.
      apply is_byte_lor; [assumption | apply is_byte_lxor; assumption]. }
    destruct (IH y _ Hlen Hx' Hy' Hv') as [Hr Hiff].
    split; [exact Hr|].
    rewrite Hiff. unfold Subtle.step, Go.index. simpl.
    rewrite Z.lor_eq_0_iff, Z.lxor_eq_0_iff.
    split.
    + intros [[-> ->] ->]. auto.
    + intros [-> Heq]. injection Heq as -> ->. auto.
Qed.

Lemma ConstantTimeCompare_spec (x y : list Z) :
  Forall Go.is_byte x -> Forall Go.is_byte y ->
  (Subtle.ConstantTimeCompare x y = 1 <-> x = y).
Proof.
  intros Hx Hy. unfold Subtle.ConstantTimeCompare.
  destruct (Nat.eqb (List.length x) (List.length y)) eqn:Hlen; simpl.
  - apply Nat.eqb_eq in Hlen.
    destruct (fold_step_zero x y 0 Hlen Hx Hy) as [Hr Hiff];
      [unfold Go.is_byte; lia|].
    rewrite (ConstantTimeByteEq_zero _ Hr), Hiff. tauto.
  - apply Nat.eqb_neq in Hlen.
    split; [discriminate|]. intros ->. contradiction.
Qed.

(** ** internal/signature *)

Lemma Verify_iff (expected actual : string) :
  Signature.Verify expected actual = true <-> expected = actual.
Proof.
  unfold Signature.Verify.
  rewrite Z.eqb_eq, ConstantTimeCompare_spec by apply bytes_all_byte.
  split; [apply bytes_inj | intros ->; reflexivity].
Qed.

Lemma Verify_false_iff (expected actual : string) :
  Signature.Verify expected actual = false <-> expected <> actual.
Proof.
  rewrite <- Verify_iff.
  destruct (Signature.Verify expected actual); split; intros;
    try discriminate; congruence.
Qed.

(** C1.  [Verify(expected, actual)] is a total boolean function that is
    [true] exactly when the two strings are equal byte for byte: every
    mismatch, operands of different lengths included, gives [false], and
    two empty signatures compare equal. *)
Theorem Verify_true_iff_equal :
  (forall expected actual : string,
      Signature.Verify expected actual = true <-> expected = actual)
  /\ (forall expected actual : string,
         Signature.Verify expected actual = false <-> expected <> actual)
  /\ (forall expected actual : string,
         String.length expected <> String.length actual ->
         Signature.Verify expected actual = false)
  /\ Signature.Verify "" "" = true.
Proof.
  split; [exact Verify_iff|]. split; [exact Verify_false_iff|].
  split; [|reflexivity].
  intros e a Hlen. apply Verify_false_iff. intros ->. apply Hlen. reflexivity.
Qed.

(** C2.  [GenerateWithDigest] is deterministic for the nil digest and
    for every digest that does not depend on the state of the process: in any
    two states, the one reached after an earlier evaluation among them, it
    returns the same signature, the hexadecimal form of the digest of the
    message, and [Verify] of the two is true. *)
Theorem GenerateWithDigest_deterministic {World : Type} (m : string)
    (d : SignatureState.Digest World) (p : Signature.Digest) :
  state_free d p ->
  forall w1 w2 : World,
    fst (SignatureState.GenerateWithDigest m d w1)
    = Some (Hex.EncodeToString (digest_bytes m p))
    /\ fst (SignatureState.GenerateWithDigest m d w2)
       = fst (SignatureState.GenerateWithDigest m d w1)
    /\ (forall s1 s2 : string,
          fst (SignatureState.GenerateWithDigest m d w1) = Some s1 ->
          fst (SignatureState.GenerateWithDigest m d w2) = Some s2 ->
          Signature.Verify s1 s2 = true).
Proof.
  intros Hd.
  assert (Hsig : forall w,
             fst (SignatureState.GenerateWithDigest m d w)
             = Some (Hex.EncodeToString (digest_bytes m p))).
  { intros w. destruct Hd as [|new p Hnew]; [reflexivity|].
    unfold SignatureState.GenerateWithDigest, digest_bytes.
    specialize (Hnew w). destruct (new w) as [h w'].
    cbn [fst] in Hnew. rewrite Hnew. reflexivity. }
  intros w1 w2. rewrite (Hsig w1), (Hsig w2).
  split; [reflexivity|]. split; [reflexivity|].
  intros s1 s2 H1 H2. apply Verify_iff. congruence.
Qed.

Lemma GenerateWithDigest_deterministic_witness :
  state_free counted_md5 (Some Signature.md5_New)
  /\ fst (SignatureState.GenerateWithDigest "hello" counted_md5 0)
     = Some "5d41402abc4b2a76b9719d911017c592"
  /\ fst (SignatureState.GenerateWithDigest "hello" counted_md5
            (snd (SignatureState.GenerateWithDigest "hello" counted_md5 0)))
     = fst (SignatureState.GenerateWithDigest "hello" counted_md5 0).
Proof.
  assert (H : state_free counted_md5 (Some Signature.md5_New))
    by (apply state_free_new; intros w; reflexivity).
  split; [exact H|].
  destruct (GenerateWithDigest_deterministic "hello" counted_md5
              (Some Signature.md5_New) H 0
              (snd (SignatureState.GenerateWithDigest "hello" counted_md5 0)))
    as [H1 [H2 _]].
  split; [rewrite H1; vm_compute; reflexivity | exact H2].
Defined.

(** With a digest that depends on the state of the process the second
    evaluation gives another signature: the salted MD5 signs ["hello"] twice
    in a row, and [Verify] of the two signatures is false. *)
Lemma GenerateWithDigest_salted_differs :
  fst (SignatureState.GenerateWithDigest "hello" salted_md5 0)
  = Some "8c0a92934b5f5f6972f00f57de154a71"
  /\ snd (SignatureState.GenerateWithDigest "hello" salted_md5 0) = 1
  /\ fst (SignatureState.GenerateWithDigest "hello" salted_md5 1)
     = Some "93629c643845ed323d45e3e46fe524a8"
  /\ Signature.Verify "8c0a92934b5f5f6972f00f57de154a71"
                      "93629c643845ed323d45e3e46fe524a8" = false.
Proof. vm_compute. repeat split. Qed.

(** ** encoding/hex and crypto/md5 *)

Lemma hexdigit_lower (n : Z) :
  0 <= n < 16 -> is_lower_hex (Hex.hexdigit n) = true.
Proof.
  intros Hn. unfold Hex.hexdigit.
  assert (Hk : (Z.to_nat n < 16)%nat) by lia.
  revert Hk. generalize (Z.to_nat n) as k. intros k Hk.
  do 16 (destruct k as [|k]; [reflexivity|]).
  lia.
Qed.

Lemma EncodeToString_length (src : list Z) :
  String.length (Hex.EncodeToString src) = (2 * List.length src)%nat.
Proof.
  induction src as [|v src IH]; simpl; [reflexivity|].
  rewrite IH. lia.
Qed.

Lemma EncodeToString_lower (src : list Z) :
  Forall Go.is_byte src ->
  forallb is_lower_hex (list_ascii_of_string (Hex.EncodeToString src)) = true.
Proof.
  induction 1 as [|v src Hv _ IH]; simpl; [reflexivity|].
  rewrite IH, !andb_true_r.
  unfold Go.is_byte in Hv.
  apply andb_true_intro. split; apply hexdigit_lower.
  - rewrite Z.shiftr_div_pow2 by lia. change (2 ^ 4) with 16.
    split; [apply Z.div_pos; lia | apply Z.div_lt_upper_bound; lia].
  - change 15 with (Z.ones 4). rewrite Z.land_ones by lia.
    apply Z.mod_pos_bound. lia.
Qed.

Lemma put_uint32_bytes (w : Z) :
  List.length (MD5.put_uint32 w) = 4%nat /\ Forall Go.is_byte (MD5.put_uint32 w).
Proof.
  split; [reflexivity|].
  unfold MD5.put_uint32.
  repeat constructor;
    change 255 with (Z.ones 8); rewrite Z.land_ones by lia;
    apply Z.mod_pos_bound; lia.
Qed.

Lemma MD5_Sum_bytes (data : list Z) :
  List.length (MD5.Sum data) = MD5.Size /\ Forall Go.is_byte (MD5.Sum data).
Proof.
  unfold MD5.Sum.
  set (d := MD5.blocks _ _ _).
  split.
  - rewrite !length_app.
    rewrite !(proj1 (put_uint32_bytes _)). reflexivity.
  - repeat (apply Forall_app; split); apply put_uint32_bytes.
Qed.

(** C3.  With a nil digest, [GenerateWithDigest] is the MD5 digest of the
    message in hexadecimal: the 16 bytes (128 bits) of [md5.Sum] rendered
    as 32 characters, each a digit or a lowercase letter [a..f].  The empty
    message is accepted and gives the MD5 of the empty byte sequence. *)
Theorem GenerateWithDigest_nil_md5_hex (m : string) :
  Signature.GenerateWithDigest m None
  = Hex.EncodeToString (MD5.Sum (Go.bytes m))
  /\ List.length (MD5.Sum (Go.bytes m)) = 16%nat
  /\ String.length (Signature.GenerateWithDigest m None) = 32%nat
  /\ forallb is_lower_hex
       (list_ascii_of_string (Signature.GenerateWithDigest m None)) = true
  /\ MD5.Sum [] = [212; 29; 140; 217; 143; 0; 178; 4;
                   233; 128; 9; 152; 236; 248; 66; 126]
  /\ Signature.GenerateWithDigest "" None = "d41d8cd98f00b204e9800998ecf8427e".
Proof.
  destruct (MD5_Sum_bytes (Go.bytes m)) as [Hlen Hbytes].
  unfold Signature.GenerateWithDigest.
  split; [reflexivity|]. split; [exact Hlen|].
  split; [rewrite EncodeToString_length, Hlen; reflexivity|].
  split; [apply EncodeToString_lower; exact Hbytes|].
  split; vm_compute; reflexivity.
Qed.

(** The vectors of [signature_test.go]. *)
Example Generate_hello :
  Signature.Generate "hello" = "5d41402abc4b2a76b9719d911017c592".
Proof. vm_compute. reflexivity. Qed.

Example Generate_test_data :
  Signature.Generate "test data" = "eb733a00c0c9d336e65691a37ab54293".
Proof. vm_compute. reflexivity. Qed.

(** Passing [md5.New] is passing no digest. *)
Lemma GenerateWithDigest_md5_New (m : string) :
  Signature.GenerateWithDigest m (Some Signature.md5_New)
  = Signature.GenerateWithDigest m None.
Proof. reflexivity. Qed.

(** *** What the comparison reads *)

Lemma forL_stepL (x y : list Z) (idx : list nat) (v : Z) :
  Subtle.forL (Subtle.stepL x y) idx v
  = (fold_left (Subtle.step x y) idx v,
     flat_map (fun i => [Subtle.ReadX i; Subtle.ReadY i]) idx).
Proof.
  revert v. induction idx as [|i idx IH]; intros v; simpl; [reflexivity|].
  rewrite IH. reflexivity.
Qed.

Lemma ConstantTimeCompareL_spec (x y : list Z) :
  Subtle.ConstantTimeCompareL x y
  = (Subtle.ConstantTimeCompare x y,
     if Nat.eqb (List.length x) (List.length y)
     then full_scan (List.length x) else []).
Proof.
  unfold Subtle.ConstantTimeCompareL, Subtle.ConstantTimeCompare, full_scan.
  destruct (Nat.eqb (List.length x) (List.length y)); simpl; [|reflexivity].
  rewrite forL_stepL. simpl. rewrite app_nil_r. reflexivity.
Qed.

Lemma length_bytes (s : string) : List.length (Go.bytes s) = String.length s.
Proof.
  unfold Go.bytes. rewrite length_map.
  induction s; simpl; congruence.
Qed.

Lemma VerifyL_spec (expected actual : string) :
  Signature.VerifyL expected actual
  = (Signature.Verify expected actual,
     if Nat.eqb (String.length expected) (String.length actual)
     then full_scan (String.length expected)
     else []).
Proof.
  unfold Signature.VerifyL, Signature.Verify.
  rewrite ConstantTimeCompareL_spec, !length_bytes.
  simpl. rewrite app_nil_r. reflexivity.
Qed.

Lemma length_flat_map_pairs (k n : nat) :
  List.length
    (flat_map (fun i => [Subtle.ReadX i; Subtle.ReadY i]) (seq k n))
  = (2 * n)%nat.
Proof.
  revert k. induction n as [|n IH]; intros k; simpl; [reflexivity|].
  rewrite IH. lia.
Qed.

(** C4.  The comparison behind [Verify] has no exit that depends on the
    contents of its operands: for operands of equal length it reads every
    byte of both, whatever they hold and wherever they first differ, so
    two comparisons at one common length leave the same log; it reads
    nothing only when the lengths differ.  The instrumented function
    returns the verdict of [Verify]. *)
Theorem Verify_reads_full_length (expected actual : string) :
  fst (Signature.VerifyL expected actual) = Signature.Verify expected actual
  /\ snd (Signature.VerifyL expected actual)
     = (if Nat.eqb (String.length expected) (String.length actual)
        then full_scan (String.length expected)
        else [])
  /\ List.length (full_scan (String.length expected))
     = (2 * String.length expected)%nat
  /\ (forall expected' actual' : string,
         String.length expected = String.length actual ->
         String.length expected' = String.length expected ->
         String.length actual' = String.length expected ->
         snd (Signature.VerifyL expected actual)
         = snd (Signature.VerifyL expected' actual')).
Proof.
  rewrite VerifyL_spec. simpl.
  split; [reflexivity|]. split; [reflexivity|].
  split; [apply length_flat_map_pairs|].
  intros e' a' H1 H2 H3.
  rewrite VerifyL_spec. simpl.
  rewrite H2, H3, <- H1, !Nat.eqb_refl. reflexivity.
Qed.

(** ** net: the parsers *)

(** The fuel of the loop of [parseIPv6] is not a restriction: beyond what
    the 16 bytes of an address need, more fuel changes nothing. *)
Lemma parseIPv6Loop_fuel (n m : nat) (s : string) (ip : list Z) (e : Z) :
  (1 <= n)%nat -> (18 - List.length ip <= 2 * n)%nat ->
  (1 <= m)%nat -> (18 - List.length ip <= 2 * m)%nat ->
  Netip.parseIPv6Loop n s ip e = Netip.parseIPv6Loop m s ip e.
Proof.
  revert m s ip e.
  induction n as [|n IH]; intros m s ip e Hn1 Hn Hm1 Hm; [lia|].
  destruct m as [|m]; [lia|].
  cbn [Netip.parseIPv6Loop].
  destruct (Z.of_nat (List.length ip) <? 16) eqn:Hi; cbn [negb]; [|reflexivity].
  apply Z.ltb_lt in Hi.
  assert (Hrec : forall s' e' a b,
             Netip.parseIPv6Loop n s' (ip ++ [a; b]) e'
             = Netip.parseIPv6Loop m s' (ip ++ [a; b]) e').
  { intros. apply IH; rewrite ?length_app; cbn [List.length]; lia. }
  destruct (Netip.hexGroup s 0 0) as [[off acc]|]; [|reflexivity].
  rewrite !Hrec. reflexivity.
Qed.

Corollary parseIPv6Loop_enough (k : nat) (s : string) (e : Z) :
  Netip.parseIPv6Loop (9 + k) s [] e = Netip.parseIPv6Loop 9 s [] e.
Proof. apply parseIPv6Loop_fuel; simpl; lia. Qed.

Example ParseIP_examples :
  map Net.ParseIP
    ["10.1.2.3"; "2001:db8::1"; "::ffff:1.2.3.4";
     "10.1.2.3:9999"; "01.2.3.4"; "256.1.1.1"; "1.2.3"; "fe80::1%eth0";
     "1::2::3"; "localhost"]
  = [Some [0; 0; 0; 0; 0; 0; 0; 0; 0; 0; 255; 255; 10; 1; 2; 3];
     Some [32; 1; 13; 184; 0; 0; 0; 0; 0; 0; 0; 0; 0; 0; 0; 1];
     Some [0; 0; 0; 0; 0; 0; 0; 0; 0; 0; 255; 255; 1; 2; 3; 4];
     None; None; None; None; None; None; None].
Proof. vm_compute. reflexivity. Qed.

Example ParseCIDR_examples :
  map Net.ParseCIDR ["10.0.0.0/8"; "10.0.0.0/33"; "10.0.0.0"; "10.0.0.0/"]
  = [Some ([0; 0; 0; 0; 0; 0; 0; 0; 0; 0; 255; 255; 10; 0; 0; 0],
           Net.mkIPNet [10; 0; 0; 0] [255; 0; 0; 0]);
     None; None; None].
Proof. vm_compute. reflexivity. Qed.

Example SplitHostPort_examples :
  map Net.SplitHostPort
    ["10.1.2.3:9999"; "[::1]:80"; "10.1.2.3"; "::1"; "[::1]"]
  = [Some ("10.1.2.3", "9999"); Some ("::1", "80"); None; None; None].
Proof. vm_compute. reflexivity. Qed.

(** ** client: the callback allow-list *)

Lemma fold_parseEntry (l : list string) (c : Client.Client) :
  let c' := fold_left Client.parseEntry l c in
  Client.CallbackIPWhitelist c' = Client.CallbackIPWhitelist c
  /\ Client.parsedIPNets c' = Client.parsedIPNets c ++ netsOf l
  /\ Client.parsedIPs c' = Client.parsedIPs c ++ literalsOf l.
Proof.
  revert c. induction l as [|s l IH]; intros c; simpl.
  - rewrite !app_nil_r. auto.
  - destruct (IH (Client.parseEntry c s)) as (Hw & Hn & Hi).
    rewrite Hw, Hn, Hi. clear IH Hw Hn Hi.
    unfold Client.parseEntry.
    destruct (Net.ParseCIDR s) as [[a ipNet]|]; simpl.
    + rewrite <- app_assoc. auto.
    + destruct (Net.ParseIP s) as [ip|]; simpl.
      * rewrite <- app_assoc. auto.
      * auto.
Qed.

Lemma parseIPWhitelist_spec (c : Client.Client) :
  whitelist_configured (Client.CallbackIPWhitelist c) (Client.parseIPWhitelist c).
Proof.
  unfold whitelist_configured, Client.parseIPWhitelist.
  destruct (fold_parseEntry
              (Client.CallbackIPWhitelist c)
              (Client.set_parsedIPs [] (Client.set_parsedIPNets [] c)))
    as (Hw & Hn & Hi).
  simpl in *. auto.
Qed.

Lemma WithCallbackIPWhitelist_configured (ips : list string) (c : Client.Client) :
  whitelist_configured ips (Client.WithCallbackIPWhitelist ips c).
Proof.
  unfold Client.WithCallbackIPWhitelist.
  apply (parseIPWhitelist_spec (Client.set_CallbackIPWhitelist ips c)).
Qed.

Lemma New_whitelist_configured
    (authKey secretKey : string) (opts : list Client.Option) (ips : list string) :
  whitelist_configured ips
    (Client.New authKey secretKey (opts ++ [Client.WithCallbackIPWhitelist ips])).
Proof.
  unfold Client.New. rewrite fold_left_app. cbn [fold_left].
  match goal with
  | |- context [Client.WithCallbackIPWhitelist ips ?c0] =>
      pose proof (WithCallbackIPWhitelist_configured ips c0) as H;
      set (c1 := Client.WithCallbackIPWhitelist ips c0) in *
  end.
  destruct (Client.HTTPClient_ c1); exact H.
Qed.

Lemma New_default_whitelist (authKey secretKey : string) :
  whitelist_configured [] (Client.New authKey secretKey []).
Proof. repeat split. Qed.

Lemma In_netsOf (ips : list string) (ipNet : Net.IPNet) :
  In ipNet (netsOf ips)
  <-> exists s a, In s ips /\ Net.ParseCIDR s = Some (a, ipNet).
Proof.
  unfold netsOf. rewrite in_flat_map. split.
  - intros (s & Hs & Hin).
    destruct (Net.ParseCIDR s) as [[a n]|] eqn:E; simpl in Hin; [|tauto].
    destruct Hin as [->|[]]. eauto.
  - intros (s & a & Hs & E). exists s. rewrite E. simpl. auto.
Qed.

Lemma In_literalsOf (ips : list string) (ip : Net.IP) :
  In ip (literalsOf ips)
  <-> exists s, In s ips /\ Net.ParseCIDR s = None /\ Net.ParseIP s = Some ip.
Proof.
  unfold literalsOf. rewrite in_flat_map. split.
  - intros (s & Hs & Hin).
    destruct (Net.ParseCIDR s) as [[a n]|] eqn:E; simpl in Hin; [tauto|].
    destruct (Net.ParseIP s) as [w|] eqn:E'; simpl in Hin; [|tauto].
    destruct Hin as [->|[]]. eauto.
  - intros (s & Hs & E & E'). exists s. rewrite E, E'. simpl. auto.
Qed.

Lemma unparseable_empty (ips : list string) :
  Forall unparseable ips -> netsOf ips = [] /\ literalsOf ips = [].
Proof.
  unfold netsOf, literalsOf.
  induction 1 as [|s l Hs _ IH]; simpl; [auto|].
  destruct Hs as [E E']. destruct IH as [IH1 IH2].
  rewrite E, E', IH1, IH2. auto.
Qed.

(** C7.  [parseIPWhitelist] is total and raises nothing; it leaves the
    list of entries as it was, and afterwards the parsed ranges are those
    of the entries that parse as CIDR, and the parsed literal addresses
    those of the entries that fail as CIDR and parse as an address, in the
    order of the entries.  An entry that parses as neither contributes to
    neither list. *)
Theorem parseIPWhitelist_keeps_parseable (c : Client.Client) :
  let c' := Client.parseIPWhitelist c in
  let ips := Client.CallbackIPWhitelist c in
  Client.CallbackIPWhitelist c' = ips
  /\ Client.parsedIPNets c' = netsOf ips
  /\ Client.parsedIPs c' = literalsOf ips
  /\ (forall ipNet, In ipNet (Client.parsedIPNets c')
        <-> exists s a, In s ips /\ Net.ParseCIDR s = Some (a, ipNet))
  /\ (forall ip, In ip (Client.parsedIPs c')
        <-> exists s, In s ips /\ Net.ParseCIDR s = None
                      /\ Net.ParseIP s = Some ip)
  /\ (Forall unparseable ips ->
        Client.parsedIPNets c' = [] /\ Client.parsedIPs c' = []).
Proof.
  intros c' ips.
  destruct (parseIPWhitelist_spec c) as (Hw & Hn & Hi).
  fold c' ips in Hw, Hn, Hi.
  rewrite Hn, Hi.
  split; [exact Hw|]. split; [reflexivity|]. split; [reflexivity|].
  split; [intros; apply In_netsOf|]. split; [intros; apply In_literalsOf|].
  intros Hall. apply unparseable_empty. exact Hall.
Qed.

Lemma whitelist_nonempty (c : Client.Client) :
  Client.CallbackIPWhitelist c <> [] ->
  (List.length (Client.CallbackIPWhitelist c) =? 0)%nat = false.
Proof.
  destruct (Client.CallbackIPWhitelist c); [congruence | reflexivity].
Qed.

(** [IsIPWhitelisted] in terms of the parsed fields of any client. *)
Lemma IsIPWhitelisted_parsed (c : Client.Client) (ipStr : string) :
  Client.CallbackIPWhitelist c <> [] ->
  Client.IsIPWhitelisted c ipStr
  = match Net.ParseIP (hostOf ipStr) with
    | None => false
    | Some ip =>
        existsb (fun w => Net.Equal w ip) (Client.parsedIPs c)
        || existsb (fun n => Net.Contains n ip) (Client.parsedIPNets c)
    end.
Proof.
  intros Hne. unfold Client.IsIPWhitelisted, hostOf.
  rewrite (whitelist_nonempty c Hne).
  destruct (Net.ParseIP _) as [ip|]; [|reflexivity].
  destruct (existsb _ (Client.parsedIPs c)); simpl; [reflexivity|].
  destruct (existsb _ (Client.parsedIPNets c)); reflexivity.
Qed.

Lemma IsIPWhitelisted_empty (c : Client.Client) (ipStr : string) :
  Client.CallbackIPWhitelist c = [] -> Client.IsIPWhitelisted c ipStr = true.
Proof.
  intros E. unfold Client.IsIPWhitelisted. rewrite E. reflexivity.
Qed.

Lemma configured_match (ips : list string) (c : Client.Client) (ip : Net.IP) :
  whitelist_configured ips c ->
  (existsb (fun w => Net.Equal w ip) (Client.parsedIPs c)
   || existsb (fun n => Net.Contains n ip) (Client.parsedIPNets c) = true
   <-> equals_literal ips ip \/ inside_range ips ip).
Proof.
  intros (_ & Hn & Hi). rewrite Hn, Hi.
  rewrite orb_true_iff, !existsb_exists.
  unfold equals_literal, inside_range.
  split.
  - intros [(w & Hin & Heq)|(n & Hin & Hc)].
    + apply In_literalsOf in Hin. destruct Hin as (s & Hs & E & E').
      left. exists s, w. auto.
    + apply In_netsOf in Hin. destruct Hin as (s & a & Hs & E).
      right. exists s, a, n. auto.
  - intros [(s & w & Hs & E & E' & Heq)|(s & a & n & Hs & E & Hc)].
    + left. exists w. split; [|exact Heq]. apply In_literalsOf. eauto.
    + right. exists n. split; [|exact Hc]. apply In_netsOf. eauto.
Qed.

(** C5.  For a client holding the allow-list [ips]: when [ips] is empty
    every candidate is allowed; when it is not, the candidate is allowed
    exactly when, its port suffix removed, it parses as an address that
    equals a literal entry or lies inside a range entry, and a candidate
    that does not parse is denied.  With the allow-list [10.0.0.0/8],
    [10.1.2.3] and [10.1.2.3:9999] are allowed and [11.1.2.3] is not. *)
Theorem IsIPWhitelisted_spec
    (ips : list string) (c : Client.Client) (ipStr : string) :
  whitelist_configured ips c ->
  (ips = [] -> Client.IsIPWhitelisted c ipStr = true)
  /\ (ips <> [] ->
        (Client.IsIPWhitelisted c ipStr = true
         <-> exists ip, Net.ParseIP (hostOf ipStr) = Some ip
                        /\ (equals_literal ips ip \/ inside_range ips ip)))
  /\ (ips <> [] -> Net.ParseIP (hostOf ipStr) = None ->
        Client.IsIPWhitelisted c ipStr = false)
  /\ hostOf "10.1.2.3:9999" = "10.1.2.3"
  /\ Client.IsIPWhitelisted client_10_8 "10.1.2.3" = true
  /\ Client.IsIPWhitelisted client_10_8 "11.1.2.3" = false
  /\ Client.IsIPWhitelisted client_10_8 "10.1.2.3:9999" = true.
Proof.
  intros Hcfg. pose proof Hcfg as (Hw & _).
  split; [intros E; apply IsIPWhitelisted_empty; congruence|].
  split.
  { intros Hne. rewrite IsIPWhitelisted_parsed by congruence.
    destruct (Net.ParseIP (hostOf ipStr)) as [ip|].
    - rewrite (configured_match ips c ip Hcfg). split.
      + intros H. exists ip. auto.
      + intros (ip' & E & H). injection E as ->. exact H.
    - split; [discriminate|]. intros (ip' & E & _). discriminate. }
  split.
  { intros Hne E. rewrite IsIPWhitelisted_parsed by congruence.
    rewrite E. reflexivity. }
  repeat split; vm_compute; reflexivity.
Qed.

(** Both address families, with and without a port. *)
Example IsIPWhitelisted_documented :
  map (Client.IsIPWhitelisted client_documented)
    ["192.168.1.1"; "192.168.1.1:8080"; "192.168.1.2"; "10.200.0.7";
     "2001:db8::1"; "[2001:db8::1]:443"; "2001:db9::1"; "::ffff:10.1.2.3";
     "localhost"; ""]
  = [true; true; false; true; true; true; false; true; false; false].
Proof. vm_compute. reflexivity. Qed.

Lemma IsIPWhitelisted_spec_witness :
  whitelist_configured ["10.0.0.0/8"] client_10_8
  /\ Client.IsIPWhitelisted client_10_8 "10.1.2.3:9999" = true.
Proof.
  assert (H : whitelist_configured ["10.0.0.0/8"] client_10_8)
    by (repeat split; vm_compute; reflexivity).
  split; [exact H|].
  apply (IsIPWhitelisted_spec ["10.0.0.0/8"] client_10_8 "10.1.2.3:9999" H).
Defined.

(** ** client: [VerifyCallbackIP] *)

Lemma VerifyCallbackIP_nonempty (c : Client.Client) (ipStr : string) :
  Client.CallbackIPWhitelist c <> [] ->
  Client.VerifyCallbackIP c ipStr
  = match Net.ParseIP (hostOf ipStr) with
    | None => Some (Client.Error c Errors.ErrInvalidIPAddress)
    | Some _ =>
        if Client.IsIPWhitelisted c ipStr then None
        else Some (Client.Error c Errors.ErrIPNotWhitelisted)
    end.
Proof.
  intros Hne. unfold Client.VerifyCallbackIP, hostOf.
  rewrite (whitelist_nonempty c Hne).
  destruct (Net.ParseIP _); [|reflexivity].
  destruct (Client.IsIPWhitelisted c ipStr); reflexivity.
Qed.

Lemma existsb_false_forall {A} (f : A -> bool) (l : list A) :
  (forall x, In x l -> f x = false) -> existsb f l = false.
Proof.
  intros H. destruct (existsb f l) eqn:E; [|reflexivity].
  apply existsb_exists in E. destruct E as (x & Hin & Hx).
  rewrite (H x Hin) in Hx. discriminate.
Qed.

(** C6.  With a non-empty allow-list, [VerifyCallbackIP] answers a
    candidate whose host part is not an IP address with the error wrapping
    [ErrInvalidIPAddress], and an address that no literal entry equals and
    no range contains with the error wrapping [ErrIPNotWhitelisted]; the
    two are told apart by [errors.Is].  It returns nil exactly when the
    allow-list is empty or [IsIPWhitelisted] holds of the candidate. *)
Theorem VerifyCallbackIP_error_kinds (c : Client.Client) (ipStr : string) :
  (Client.CallbackIPWhitelist c <> [] ->
   Net.ParseIP (hostOf ipStr) = None ->
   Client.VerifyCallbackIP c ipStr
   = Some (Client.Error c Errors.ErrInvalidIPAddress))
  /\ (forall ip : Net.IP,
         Client.CallbackIPWhitelist c <> [] ->
         Net.ParseIP (hostOf ipStr) = Some ip ->
         (forall w, In w (Client.parsedIPs c) -> Net.Equal w ip = false) ->
         (forall n, In n (Client.parsedIPNets c) -> Net.Contains n ip = false) ->
         Client.VerifyCallbackIP c ipStr
         = Some (Client.Error c Errors.ErrIPNotWhitelisted))
  /\ (Client.VerifyCallbackIP c ipStr = None
      <-> Client.CallbackIPWhitelist c = []
          \/ Client.IsIPWhitelisted c ipStr = true)
  /\ Errors.Is (Client.Error c Errors.ErrInvalidIPAddress)
               Errors.ErrInvalidIPAddress = true
  /\ Errors.Is (Client.Error c Errors.ErrInvalidIPAddress)
               Errors.ErrIPNotWhitelisted = false
  /\ Errors.Is (Client.Error c Errors.ErrIPNotWhitelisted)
               Errors.ErrIPNotWhitelisted = true
  /\ Errors.Is (Client.Error c Errors.ErrIPNotWhitelisted)
               Errors.ErrInvalidIPAddress = false.
Proof.
  split.
  { intros Hne E. rewrite VerifyCallbackIP_nonempty, E by assumption.
    reflexivity. }
  split.
  { intros ip Hne E Hlit Hnet.
    rewrite VerifyCallbackIP_nonempty, E by assumption.
    rewrite IsIPWhitelisted_parsed, E by assumption.
    rewrite !existsb_false_forall by assumption. reflexivity. }
  split.
  { destruct (Client.CallbackIPWhitelist c) as [|s l] eqn:Hw.
    - unfold Client.VerifyCallbackIP. rewrite Hw. simpl. tauto.
    - assert (Hne : Client.CallbackIPWhitelist c <> []) by congruence.
      rewrite VerifyCallbackIP_nonempty by assumption.
      destruct (Net.ParseIP (hostOf ipStr)) as [ip|] eqn:E.
      + destruct (Client.IsIPWhitelisted c ipStr); split; intros H;
          try discriminate; auto.
        destruct H as [H|H]; discriminate.
      + rewrite IsIPWhitelisted_parsed, E by assumption.
        split; [discriminate|]. intros [H|H]; discriminate. }
  repeat split.
Qed.

(** C9.  An allow-list that is not empty but whose entries all fail to
    parse denies every candidate: the test that disables validation looks
    at the list of entry strings, not at what is left of it after parsing.
    [IsIPWhitelisted] is then false and [VerifyCallbackIP] an error,
    whatever the candidate. *)
Theorem unparseable_whitelist_denies_all
    (ips : list string) (c : Client.Client) (ipStr : string) :
  whitelist_configured ips c ->
  ips <> [] ->
  Forall unparseable ips ->
  Client.parsedIPNets c = [] /\ Client.parsedIPs c = []
  /\ Client.IsIPWhitelisted c ipStr = false
  /\ Client.VerifyCallbackIP c ipStr <> None
  /\ (Client.VerifyCallbackIP c ipStr
      = Some (Client.Error c Errors.ErrInvalidIPAddress)
      \/ Client.VerifyCallbackIP c ipStr
         = Some (Client.Error c Errors.ErrIPNotWhitelisted)).
Proof.
  intros (Hw & Hn & Hi) Hne Hall.
  destruct (unparseable_empty ips Hall) as [En Ei].
  rewrite En in Hn. rewrite Ei in Hi.
  assert (Hne' : Client.CallbackIPWhitelist c <> []) by congruence.
  assert (Hden : Client.IsIPWhitelisted c ipStr = false).
  { rewrite IsIPWhitelisted_parsed, Hn, Hi by assumption.
    destruct (Net.ParseIP (hostOf ipStr)); reflexivity. }
  split; [exact Hn|]. split; [exact Hi|]. split; [exact Hden|].
  rewrite VerifyCallbackIP_nonempty, Hden by assumption.
  destruct (Net.ParseIP (hostOf ipStr)); split; try discriminate; auto.
Qed.

Lemma unparseable_whitelist_denies_all_witness :
  Client.IsIPWhitelisted client_unparseable "10.1.2.3" = false
  /\ Client.VerifyCallbackIP client_unparseable "10.1.2.3" <> None.
Proof.
  assert (Hcfg : whitelist_configured ["not-an-ip"] client_unparseable)
    by (repeat split; vm_compute; reflexivity).
  assert (Hne : ["not-an-ip"] <> @nil string) by discriminate.
  assert (Hall : Forall unparseable ["not-an-ip"])
    by (repeat constructor; vm_compute; reflexivity).
  pose proof (unparseable_whitelist_denies_all
                ["not-an-ip"] client_unparseable "10.1.2.3" Hcfg Hne Hall)
    as (_ & _ & H1 & H2 & _).
  split; assumption.
Defined.

(** ** client: the retry waits *)

Lemma fold_parseEntry_retry (l : list string) (c : Client.Client) :
  Client.RetryWaitMin (fold_left Client.parseEntry l c) = Client.RetryWaitMin c
  /\ Client.RetryWaitMax (fold_left Client.parseEntry l c) = Client.RetryWaitMax c.
Proof.
  revert c. induction l as [|s l IH]; intros c; simpl; [auto|].
  destruct (IH (Client.parseEntry c s)) as [-> ->].
  unfold Client.parseEntry.
  destruct (Net.ParseCIDR s) as [[a n]|]; [auto|].
  destruct (Net.ParseIP s); auto.
Qed.

Lemma ordered_option_keeps (o : Client.Option) (c : Client.Client) :
  ordered_option o -> retry_wait_ordered c -> retry_wait_ordered (o c).
Proof.
  unfold retry_wait_ordered.
  intros Ho Hc. destruct Ho; try exact Hc.
  - unfold Client.WithTimeout. destruct (_ <=? _); exact Hc.
  - unfold Client.WithRetries. destruct (_ <=? _); exact Hc.
  - unfold Client.WithDebug. destruct b; [|exact Hc].
    simpl. destruct (Logger.isNop _); exact Hc.
  - simpl. assumption.
  - unfold Client.WithCallbackIPWhitelist, Client.parseIPWhitelist.
    match goal with
    | |- Client.RetryWaitMin (fold_left _ ?l ?c0) <= _ =>
        destruct (fold_parseEntry_retry l c0) as [-> ->]
    end.
    exact Hc.
  - unfold Client.WithLanguage. destruct (I18n.IsValid l); exact Hc.
  - unfold Client.WithLogger. destruct l; exact Hc.
Qed.

Lemma fold_options_keep (opts : list Client.Option) (c : Client.Client) :
  Forall ordered_option opts ->
  retry_wait_ordered c ->
  retry_wait_ordered (fold_left (fun c opt => opt c) opts c).
Proof.
  intros Hall. revert c.
  induction Hall as [|o opts Ho _ IH]; intros c Hc; simpl; [exact Hc|].
  apply IH. apply ordered_option_keeps; assumption.
Qed.

(** [WithRetryWait] stores its two arguments as they are given. *)
Lemma WithRetryWait_stores (min max : Time.Duration) (c : Client.Client) :
  Client.RetryWaitMin (Client.WithRetryWait min max c) = min
  /\ Client.RetryWaitMax (Client.WithRetryWait min max c) = max.
Proof. split; reflexivity. Qed.

(** C8, amended.  A client that [New] builds from options of the package
    has [RetryWaitMin <= RetryWaitMax] when every [WithRetryWait(min, max)]
    among them was given [min <= max]. *)
Theorem New_retry_wait_ordered
    (authKey secretKey : string) (opts : list Client.Option) :
  Forall ordered_option opts ->
  Client.RetryWaitMin (Client.New authKey secretKey opts)
  <= Client.RetryWaitMax (Client.New authKey secretKey opts).
Proof.
  intros Hall. unfold Client.New.
  match goal with
  | |- context [fold_left (fun c opt => opt c) opts ?c0] =>
      assert (H : retry_wait_ordered (fold_left (fun c opt => opt c) opts c0))
        by (apply fold_options_keep; [exact Hall | vm_compute; discriminate]);
      set (c1 := fold_left (fun c opt => opt c) opts c0) in *
  end.
  destruct (Client.HTTPClient_ c1); exact H.
Qed.

Lemma New_retry_wait_ordered_witness :
  Client.RetryWaitMin
    (Client.New "auth" "secret"
       [Client.WithRetryWait (1 * Time.Second) (5 * Time.Second);
        Client.WithRetries 5])
  <= Client.RetryWaitMax
       (Client.New "auth" "secret"
          [Client.WithRetryWait (1 * Time.Second) (5 * Time.Second);
           Client.WithRetries 5]).
Proof.
  apply New_retry_wait_ordered.
  repeat constructor. vm_compute. discriminate.
Defined.

(** With no option the waits are the defaults, 500 ms and 2 s. *)
Lemma New_default_retry_wait (authKey secretKey : string) :
  Client.RetryWaitMin (Client.New authKey secretKey []) = 500 * Time.Millisecond
  /\ Client.RetryWaitMax (Client.New authKey secretKey []) = 2 * Time.Second.
Proof. split; reflexivity. Qed.

(** C8 does not hold as stated: [New] with [WithRetryWait(5s, 1s)]
    has [RetryWaitMin = 5s] and [RetryWaitMax = 1s]. *)
Lemma New_retry_wait_unordered :
  ~ (Client.RetryWaitMin
       (Client.New "auth" "secret"
          [Client.WithRetryWait (5 * Time.Second) (1 * Time.Second)])
     <= Client.RetryWaitMax
          (Client.New "auth" "secret"
             [Client.WithRetryWait (5 * Time.Second) (1 * Time.Second)])).
Proof.
  vm_compute. intros H. apply H. reflexivity.
Qed.

(** ** internal/sanitize: the two revisions of [Endpoint] *)

(** [Split] never returns the empty slice, and [Join] undoes it: when
    [Endpoint] returns [endpoint] it returns the segments unchanged. *)
Lemma Split_not_nil (s : string) (c : ascii) : Strings.Split s c <> [].
Proof.
  destruct s as [|a s]; simpl; [discriminate|].
  destruct (Ascii.eqb a c); [discriminate|].
  destruct (Strings.Split s c); discriminate.
Qed.

Lemma Join_Split (s : string) (c : ascii) :
  Strings.Join (Strings.Split s c) (String c EmptyString) = s.
Proof.
  induction s as [|a s IH]; [reflexivity|].
  cbn [Strings.Split].
  pose proof (Split_not_nil s c) as Hne.
  destruct (Ascii.eqb a c) eqn:Hac.
  - apply Ascii.eqb_eq in Hac. subst a.
    destruct (Strings.Split s c) as [|h t]; [congruence|].
    change (Strings.Join (EmptyString :: h :: t) (String c EmptyString))
      with (String c (Strings.Join (h :: t) (String c EmptyString))).
    rewrite IH. reflexivity.
  - destruct (Strings.Split s c) as [|h t]; [congruence|].
    rewrite <- IH. destruct t; reflexivity.
Qed.


Lemma scan_none (parts : list string) (idx : list nat) :
  no_key_segment parts -> SanitizeScan.scan parts idx = None.
Proof.
  intros Hno. induction idx as [|i idx IH]; simpl; [reflexivity|].
  fold (is_operator (at_ parts i)).
  destruct (is_operator (at_ parts i)) eqn:Hop; simpl; [|exact IH].
  destruct (i + 1 <? List.length parts)%nat eqn:Hlt; [|exact IH].
  apply Nat.ltb_lt in Hlt.
  rewrite (Hno i Hop Hlt). simpl. exact IH.
Qed.

Lemma position_pattern_inv (parts : list string) :
  position_pattern parts = true ->
  (5 <= List.length parts)%nat
  /\ at_ parts 1 = "v2"
  /\ at_ parts 2 = "integrations"
  /\ (0 <? String.length (at_ parts 4))%nat = true
  /\ is_operator (at_ parts 3) = true.
Proof.
  unfold position_pattern. intros H.
  apply andb_prop in H. destruct H as [H Hop].
  apply andb_prop in H. destruct H as [H Hkey].
  apply andb_prop in H. destruct H as [H H2].
  apply andb_prop in H. destruct H as [Hlen H1].
  apply Nat.leb_le in Hlen. apply String.eqb_eq in H1, H2. auto.
Qed.

Lemma position_pattern_key (parts : list string) :
  position_pattern parts = true -> ~ no_key_segment parts.
Proof.
  intros H Hno.
  destruct (position_pattern_inv parts H) as (Hlen & _ & _ & Hkey & Hop).
  assert (E : at_ parts (3 + 1) = EmptyString)
    by (apply Hno; [exact Hop | lia]).
  simpl in E. rewrite E in Hkey. discriminate.
Qed.

Lemma Sanitize_Endpoint_pattern (endpoint : string) :
  Sanitize.Endpoint endpoint
  = let parts := Strings.Split endpoint "/" in
    if position_pattern parts
    then Strings.Join (set_at parts 4 "[REDACTED]") "/"
    else endpoint.
Proof.
  unfold Sanitize.Endpoint, position_pattern, is_operator. cbv zeta.
  destruct (_ && _ && _ && _); simpl; reflexivity.
Qed.

Lemma scan_position (parts : list string) :
  position_pattern parts = true ->
  is_operator (at_ parts 0) = false ->
  SanitizeScan.scan parts (seq 0 (List.length parts))
  = Some (Strings.Join (set_at parts 4 "[REDACTED]") "/").
Proof.
  intros H H0.
  destruct (position_pattern_inv parts H) as (Hlen & H1 & H2 & H4 & H3).
  assert (Hlt : (3 + 1 <? List.length parts)%nat = true)
    by (apply Nat.ltb_lt; lia).
  remember (List.length parts) as len eqn:Hn.
  destruct len as [|[|[|[|n]]]]; try lia.
  cbn [seq SanitizeScan.scan].
  fold (is_operator (at_ parts 0)). rewrite H0. cbn [andb].
  rewrite H1. cbn [String.eqb Ascii.eqb Bool.eqb orb andb].
  rewrite H2. cbn [String.eqb Ascii.eqb Bool.eqb orb andb].
  fold (is_operator (at_ parts 3)). rewrite H3. cbn [andb].
  rewrite <- Hn, Hlt.
  change (3 + 1)%nat with 4%nat. rewrite H4. reflexivity.
Qed.

(** C10, amended.  The two revisions return the same output
    on every input that the position-based one redacts and whose segment 0
    is not itself [operator(s)] (both redact segment 4), and on every input
    in which no [operator(s)] segment is followed by a non-empty segment
    (both return the input). *)
Theorem Endpoint_revisions_agree (endpoint : string) :
  let parts := Strings.Split endpoint "/" in
  (position_pattern parts = true /\ is_operator (at_ parts 0) = false)
  \/ no_key_segment parts ->
  SanitizeScan.Endpoint endpoint = Sanitize.Endpoint endpoint.
Proof.
  intros parts H.
  rewrite Sanitize_Endpoint_pattern. fold parts. cbv zeta.
  unfold SanitizeScan.Endpoint. fold parts.
  destruct H as [[Hp H0]|Hno].
  - rewrite Hp, (scan_position parts Hp H0). reflexivity.
  - rewrite (scan_none parts _ Hno).
    destruct (position_pattern parts) eqn:Hp; [|reflexivity].
    exfalso. exact (position_pattern_key parts Hp Hno).
Qed.

Lemma Endpoint_revisions_agree_witness :
  SanitizeScan.Endpoint "/v2/integrations/operators/secret123/idr/payment"
  = Sanitize.Endpoint "/v2/integrations/operators/secret123/idr/payment".
Proof.
  apply Endpoint_revisions_agree.
  left. split; vm_compute; reflexivity.
Defined.

(** C10 does not hold as stated: an [operators] segment outside
    position 3 is redacted by the scan and left by the position test. *)
Lemma Endpoint_revisions_differ :
  Sanitize.Endpoint "/api/operators/secret123/payment"
  = "/api/operators/secret123/payment"
  /\ SanitizeScan.Endpoint "/api/operators/secret123/payment"
     = "/api/operators/[REDACTED]/payment"
  /\ Sanitize.Endpoint "/api/operators/secret123/payment"
     <> SanitizeScan.Endpoint "/api/operators/secret123/payment".
Proof.
  repeat split; vm_compute; try reflexivity. discriminate.
Qed.

(* ================================================================== *)
(** * Part III.  Further properties of the code                       *)
(* ================================================================== *)

(** ** strings: [Split] and [Join] *)

Lemma Split_free (s : string) (c : ascii) :
  free_of c s = true -> Strings.Split s c = [s].
Proof.
  induction s as [|a s IH]; simpl; [reflexivity|].
  intros H. apply andb_prop in H. destruct H as [Ha Hs].
  apply negb_true_iff in Ha. rewrite Ha, (IH Hs). reflexivity.
Qed.

Lemma Split_app_sep (a rest : string) (c : ascii) :
  free_of c a = true ->
  Strings.Split (a ++ String c rest) c = a :: Strings.Split rest c.
Proof.
  induction a as [|x a IH]; simpl.
  - intros _. rewrite Ascii.eqb_refl. reflexivity.
  - intros H. apply andb_prop in H. destruct H as [Hx Ha].
    apply negb_true_iff in Hx. rewrite Hx, (IH Ha). reflexivity.
Qed.

Lemma Split_segments_free (s : string) (c : ascii) :
  Forall (fun p => free_of c p = true) (Strings.Split s c).
Proof.
  induction s as [|a s IH]; simpl.
  - repeat constructor.
  - destruct (Ascii.eqb a c) eqn:Hac.
    + constructor; [reflexivity | exact IH].
    + destruct (Strings.Split s c) as [|h t].
      * repeat constructor. simpl. rewrite Hac. reflexivity.
      * inversion IH as [|? ? Hh Ht]; subst.
        constructor; [|exact Ht]. simpl. rewrite Hac, Hh. reflexivity.
Qed.

Lemma Split_Join (l : list string) (c : ascii) :
  l <> [] ->
  Forall (fun p => free_of c p = true) l ->
  Strings.Split (Strings.Join l (String c EmptyString)) c = l.
Proof.
  intros Hne Hall. induction Hall as [|a l Ha Hl IH]; [congruence|].
  destruct l as [|b t].
  - simpl. apply Split_free. exact Ha.
  - change (Strings.Join (a :: b :: t) (String c EmptyString))
      with (a ++ String c (Strings.Join (b :: t) (String c EmptyString)))%string.
    rewrite Split_app_sep by exact Ha.
    rewrite IH by discriminate. reflexivity.
Qed.

Lemma append_nil_r (s : string) : (s ++ "")%string = s.
Proof. induction s as [|a s IH]; simpl; congruence. Qed.

Lemma append_assoc (a b c : string) :
  ((a ++ b) ++ c)%string = (a ++ (b ++ c))%string.
Proof. induction a as [|x a IH]; simpl; congruence. Qed.

Lemma length_append (a b : string) :
  String.length (a ++ b) = (String.length a + String.length b)%nat.
Proof. induction a as [|x a IH]; simpl; congruence. Qed.

Lemma set_at_length (l : list string) (i : nat) (v : string) :
  List.length (set_at l i v) = List.length l.
Proof.
  revert i. induction l as [|h t IH]; intros [|i]; simpl; auto.
Qed.

Lemma set_at_same (l : list string) (i : nat) (v : string) :
  (i < List.length l)%nat -> at_ (set_at l i v) i = v.
Proof.
  unfold at_. revert i. induction l as [|h t IH]; intros [|i] H; simpl in *;
    try lia; [reflexivity|]. apply IH. lia.
Qed.

Lemma set_at_other (l : list string) (i j : nat) (v : string) :
  i <> j -> at_ (set_at l i v) j = at_ l j.
Proof.
  unfold at_. revert i j.
  induction l as [|h t IH]; intros [|i] [|j] H; simpl; try congruence;
    try reflexivity.
  apply IH. congruence.
Qed.

Lemma set_at_twice (l : list string) (i : nat) (v : string) :
  set_at (set_at l i v) i v = set_at l i v.
Proof.
  revert i. induction l as [|h t IH]; intros [|i]; simpl; try reflexivity.
  rewrite IH. reflexivity.
Qed.

Lemma set_at_Forall (P : string -> Prop) (l : list string) (i : nat) (v : string) :
  P v -> Forall P l -> Forall P (set_at l i v).
Proof.
  intros Hv Hl. revert i.
  induction Hl as [|h t Hh Ht IH]; intros [|i]; simpl; auto.
Qed.

Lemma set_at_not_nil (l : list string) (i : nat) (v : string) :
  l <> [] -> set_at l i v <> [].
Proof. destruct l, i; simpl; congruence. Qed.

(** ** internal/sanitize: what [Endpoint] changes *)

Lemma scan_find (parts : list string) (idx : list nat) :
  SanitizeScan.scan parts idx
  = option_map
      (fun i => Strings.Join (set_at parts (i + 1) REDACTED) "/")
      (find (redactable parts) idx).
Proof.
  induction idx as [|i idx IH]; simpl; [reflexivity|].
  unfold redactable at 1. fold (is_operator (at_ parts i)).
  destruct (is_operator (at_ parts i)); simpl; [|exact IH].
  destruct (i + 1 <? List.length parts)%nat; simpl; [|exact IH].
  destruct (0 <? String.length (at_ parts (i + 1)))%nat; simpl;
    [reflexivity | exact IH].
Qed.

Lemma SanitizeScan_Endpoint_first_key (endpoint : string) :
  SanitizeScan.Endpoint endpoint
  = match first_key (Strings.Split endpoint "/") with
    | Some i =>
        Strings.Join (set_at (Strings.Split endpoint "/") (i + 1) REDACTED) "/"
    | None => endpoint
    end.
Proof.
  unfold SanitizeScan.Endpoint, first_key. rewrite scan_find.
  destruct (find _ _); reflexivity.
Qed.

Lemma redacted_segments (parts : list string) (k : nat) :
  parts <> [] ->
  Forall (fun p => free_of "/" p = true) parts ->
  Strings.Split (Strings.Join (set_at parts k REDACTED) "/") "/"
  = set_at parts k REDACTED.
Proof.
  intros Hne Hall. apply Split_Join.
  - apply set_at_not_nil. exact Hne.
  - apply set_at_Forall; [reflexivity | exact Hall].
Qed.

Lemma find_seq_first (f : nat -> bool) (n i : nat) :
  find f (seq 0 n) = Some i ->
  (i < n)%nat /\ f i = true /\ forall j, (j < i)%nat -> f j = false.
Proof.
  assert (G : forall k, find f (seq k n) = Some i ->
                        (k <= i < k + n)%nat /\ f i = true
                        /\ forall j, (k <= j < i)%nat -> f j = false).
  { induction n as [|n IH]; intros k H; simpl in H; [discriminate|].
    destruct (f k) eqn:Hk.
    - injection H as <-.
      split; [lia|]. split; [exact Hk|]. intros j Hj. lia.
    - destruct (IH (S k) H) as (Hr & Hi & Hlt).
      split; [lia|]. split; [exact Hi|].
      intros j Hj. destruct (Nat.eq_dec j k) as [->|Hne]; [exact Hk|].
      apply Hlt. lia. }
  intros H. destruct (G 0%nat H) as (Hr & Hi & Hlt).
  split; [lia|]. split; [exact Hi|]. intros j Hj. apply Hlt. lia.
Qed.

Lemma find_seq_ext (f g : nat -> bool) (n : nat) :
  (forall j, (j < n)%nat -> f j = g j) ->
  find f (seq 0 n) = find g (seq 0 n).
Proof.
  assert (G : forall k, (forall j, (k <= j < k + n)%nat -> f j = g j) ->
                        find f (seq k n) = find g (seq k n)).
  { induction n as [|n IH]; intros k H; simpl; [reflexivity|].
    rewrite (H k) by lia. destruct (g k); [reflexivity|].
    apply IH. intros j Hj. apply H. lia. }
  intros H. apply G. intros j Hj. apply H. lia.
Qed.

(** X1.  The scanning [Endpoint] keeps the number and the text of the
    segments of the path, except for one: the segment after the first
    [operator(s)] segment that has a non-empty successor becomes
    [[REDACTED]].  When there is no such segment the input is returned. *)
Theorem SanitizeScan_Endpoint_segments (endpoint : string) :
  let parts := Strings.Split endpoint "/" in
  match first_key parts with
  | None => SanitizeScan.Endpoint endpoint = endpoint
  | Some i =>
      Strings.Split (SanitizeScan.Endpoint endpoint) "/"
      = set_at parts (i + 1) REDACTED
      /\ is_operator (at_ parts i) = true
      /\ (i + 1 < List.length parts)%nat
      /\ at_ parts (i + 1) <> EmptyString
      /\ (forall j, (j < i)%nat -> redactable parts j = false)
  end.
Proof.
  intros parts. rewrite SanitizeScan_Endpoint_first_key. fold parts.
  destruct (first_key parts) as [i|] eqn:Hk; [|reflexivity].
  apply find_seq_first in Hk. destruct Hk as (Hi & Hred & Hfirst).
  unfold redactable in Hred.
  apply andb_prop in Hred. destruct Hred as [Hred Hkey].
  apply andb_prop in Hred. destruct Hred as [Hop Hlt].
  apply Nat.ltb_lt in Hlt.
  split.
  { apply redacted_segments;
      [apply Split_not_nil | apply Split_segments_free]. }
  repeat split; try assumption.
  intros E. rewrite E in Hkey. discriminate.
Qed.

Lemma redactable_after (parts : list string) (i j : nat) :
  redactable parts i = true ->
  (j <= i)%nat ->
  redactable (set_at parts (i + 1) REDACTED) j = redactable parts j
  \/ j = i.
Proof.
  intros Hi Hj. destruct (Nat.eq_dec j i) as [->|Hne]; [right; reflexivity|].
  left. unfold redactable.
  rewrite set_at_length, !set_at_other by lia. reflexivity.
Qed.

(** The scanning [Endpoint] leaves a sanitized endpoint as it is. *)
Lemma SanitizeScan_Endpoint_idem (endpoint : string) :
  SanitizeScan.Endpoint (SanitizeScan.Endpoint endpoint)
  = SanitizeScan.Endpoint endpoint.
Proof.
  rewrite (SanitizeScan_Endpoint_first_key endpoint).
  set (parts := Strings.Split endpoint "/").
  destruct (first_key parts) as [i|] eqn:Hk.
  2:{ rewrite SanitizeScan_Endpoint_first_key. fold parts. rewrite Hk.
      reflexivity. }
  rewrite SanitizeScan_Endpoint_first_key.
  rewrite redacted_segments
    by (apply Split_not_nil || apply Split_segments_free).
  set (parts' := set_at parts (i + 1) REDACTED).
  pose proof (find_seq_first _ _ _ Hk) as (Hi & Hred & Hfirst).
  assert (Hlt : (i + 1 < List.length parts)%nat).
  { unfold redactable in Hred.
    apply andb_prop in Hred. destruct Hred as [Hred _].
    apply andb_prop in Hred. destruct Hred as [_ Hlt].
    apply Nat.ltb_lt in Hlt. exact Hlt. }
  assert (Hk' : first_key parts' = Some i).
  { unfold first_key, parts'. rewrite set_at_length.
    assert (Hsplit : seq 0 (List.length parts)
                     = seq 0 i ++ i :: seq (S i) (List.length parts - S i)).
    { replace (List.length parts) with (i + S (List.length parts - S i))%nat
        at 1 by lia.
      rewrite seq_app. reflexivity. }
    rewrite Hsplit. clear Hsplit.
    assert (Hnone : forall l, (forall j, In j l -> (j < i)%nat) ->
                forall rest,
                  find (redactable (set_at parts (i + 1) REDACTED)) (l ++ rest)
                  = find (redactable (set_at parts (i + 1) REDACTED)) rest).
    { induction l as [|j l IH]; intros Hl rest; simpl; [reflexivity|].
      assert (Hj : (j < i)%nat) by (apply Hl; left; reflexivity).
      destruct (redactable_after parts i j Hred) as [E|E]; try lia.
      rewrite E, (Hfirst j Hj). apply IH. intros j' Hj'. apply Hl.
      right. exact Hj'. }
    rewrite Hnone by (intros j Hj; apply in_seq in Hj; lia).
    simpl.
    assert (E : redactable (set_at parts (i + 1) REDACTED) i = true).
    { unfold redactable. rewrite set_at_length.
      rewrite set_at_other by lia. rewrite set_at_same by lia.
      unfold redactable in Hred.
      apply andb_prop in Hred. destruct Hred as [Hred _]. rewrite Hred.
      reflexivity. }
    rewrite E. reflexivity. }
  rewrite Hk'. unfold parts'. rewrite set_at_twice. reflexivity.
Qed.

Lemma position_pattern_redacted (parts : list string) :
  position_pattern parts = true ->
  position_pattern (set_at parts 4 REDACTED) = true.
Proof.
  intros H.
  destruct (position_pattern_inv parts H) as (Hlen & H1 & H2 & H4 & H3).
  unfold position_pattern.
  rewrite set_at_length.
  rewrite (set_at_other parts 4 1), (set_at_other parts 4 2),
    (set_at_other parts 4 3) by lia.
  rewrite set_at_same by lia.
  rewrite H1, H2, H3.
  replace (5 <=? List.length parts)%nat with true
    by (symmetry; apply Nat.leb_le; exact Hlen).
  reflexivity.
Qed.

(** So does the position-based [Endpoint]. *)
Lemma Sanitize_Endpoint_idem (endpoint : string) :
  Sanitize.Endpoint (Sanitize.Endpoint endpoint) = Sanitize.Endpoint endpoint.
Proof.
  rewrite (Sanitize_Endpoint_pattern endpoint). cbv zeta.
  set (parts := Strings.Split endpoint "/").
  destruct (position_pattern parts) eqn:Hp.
  - rewrite Sanitize_Endpoint_pattern. cbv zeta.
    change "[REDACTED]" with REDACTED.
    rewrite redacted_segments
      by (apply Split_not_nil || apply Split_segments_free).
    rewrite position_pattern_redacted by exact Hp.
    rewrite set_at_twice. reflexivity.
  - rewrite Sanitize_Endpoint_pattern. cbv zeta. fold parts. rewrite Hp.
    reflexivity.
Qed.

(** X2.  Both revisions of [Endpoint] are idempotent: a sanitized endpoint
    is left as it is. *)
Theorem Endpoint_idempotent (endpoint : string) :
  SanitizeScan.Endpoint (SanitizeScan.Endpoint endpoint)
  = SanitizeScan.Endpoint endpoint
  /\ Sanitize.Endpoint (Sanitize.Endpoint endpoint)
     = Sanitize.Endpoint endpoint.
Proof.
  split; [apply SanitizeScan_Endpoint_idem | apply Sanitize_Endpoint_idem].
Qed.

Lemma is_operator_cases (op : string) :
  is_operator op = true -> op = "operator" \/ op = "operators".
Proof.
  unfold is_operator. intros H. apply orb_prop in H.
  destruct H as [H|H]; apply String.eqb_eq in H; auto.
Qed.

Lemma Join_cons (a : string) (l : list string) :
  l <> [] ->
  Strings.Join (a :: l) "/" = (a ++ "/" ++ Strings.Join l "/")%string.
Proof. destruct l; [congruence | reflexivity]. Qed.

Lemma canonical_segments (op key tail : string) :
  is_operator op = true ->
  free_of "/" key = true ->
  Strings.Split ("/v2/integrations/" ++ op ++ "/" ++ key ++ tail) "/"
  = match Strings.Split (key ++ tail) "/" with
    | h :: t => "" :: "v2" :: "integrations" :: op :: h :: t
    | [] => []
    end.
Proof.
  intros Hop Hkey.
  assert (Hfree : free_of "/" op = true)
    by (destruct (is_operator_cases op Hop) as [-> | ->]; reflexivity).
  change ("/v2/integrations/" ++ op ++ "/" ++ key ++ tail)%string
    with ("" ++ String "/" ("v2" ++ String "/" ("integrations"
            ++ String "/" (op ++ String "/" (key ++ tail)))))%string.
  rewrite !Split_app_sep by (reflexivity || exact Hfree).
  pose proof (Split_not_nil (key ++ tail) "/").
  destruct (Strings.Split (key ++ tail) "/"); [congruence | reflexivity].
Qed.

(** X3.  On the two documented shapes of an API path,
    [/v2/integrations/operator/{key}...] and
    [/v2/integrations/operators/{key}...], with a non-empty key, both
    revisions of [Endpoint] replace the key by [[REDACTED]] and keep what
    precedes and follows it; the tail is empty or starts at the next
    slash. *)
Theorem Endpoint_redacts_auth_key (op key rest : string) :
  is_operator op = true ->
  free_of "/" key = true ->
  key <> EmptyString ->
  let redacted := ("/v2/integrations/" ++ op ++ "/[REDACTED]")%string in
  Sanitize.Endpoint ("/v2/integrations/" ++ op ++ "/" ++ key) = redacted
  /\ SanitizeScan.Endpoint ("/v2/integrations/" ++ op ++ "/" ++ key) = redacted
  /\ Sanitize.Endpoint ("/v2/integrations/" ++ op ++ "/" ++ key ++ "/" ++ rest)
     = (redacted ++ "/" ++ rest)%string
  /\ SanitizeScan.Endpoint
       ("/v2/integrations/" ++ op ++ "/" ++ key ++ "/" ++ rest)
     = (redacted ++ "/" ++ rest)%string.
Proof.
  intros Hop Hkey Hne redacted.
  assert (Hfree : free_of "/" op = true)
    by (destruct (is_operator_cases op Hop) as [-> | ->]; reflexivity).
  assert (Hk0 : (0 <? String.length key)%nat = true)
    by (destruct key; [congruence | reflexivity]).
  assert (G : forall tail t,
             Strings.Split (key ++ tail) "/" = key :: t ->
             let e := ("/v2/integrations/" ++ op ++ "/" ++ key ++ tail)%string in
             Sanitize.Endpoint e
             = Strings.Join ("" :: "v2" :: "integrations" :: op :: REDACTED :: t) "/"
             /\ SanitizeScan.Endpoint e
                = Strings.Join ("" :: "v2" :: "integrations" :: op :: REDACTED :: t) "/").
  { intros tail t Ht e.
    assert (Hparts : Strings.Split e "/"
                     = "" :: "v2" :: "integrations" :: op :: key :: t).
    { unfold e. rewrite canonical_segments by assumption. rewrite Ht.
      reflexivity. }
    assert (Hp : position_pattern (Strings.Split e "/") = true).
    { rewrite Hparts. unfold position_pattern, at_. simpl.
      rewrite Hk0, Hop. reflexivity. }
    split.
    - rewrite Sanitize_Endpoint_pattern. cbv zeta. rewrite Hp, Hparts.
      reflexivity.
    - unfold SanitizeScan.Endpoint.
      rewrite (scan_position _ Hp) by (rewrite Hparts; reflexivity).
      rewrite Hparts. reflexivity. }
  assert (Hjoin : forall t,
             Strings.Join ("" :: "v2" :: "integrations" :: op :: REDACTED :: t) "/"
             = (redacted ++ match t with
                            | [] => ""
                            | _ => "/" ++ Strings.Join t "/"
                            end)%string).
  { intros t. unfold redacted, REDACTED.
    destruct (is_operator_cases op Hop) as [-> | ->]; destruct t; reflexivity. }
  destruct (G EmptyString []) as [G1 G2].
  { rewrite append_nil_r. apply Split_free. exact Hkey. }
  destruct (G ("/" ++ rest)%string (Strings.Split rest "/")) as [G3 G4].
  { change (key ++ "/" ++ rest)%string with (key ++ String "/" rest)%string.
    apply Split_app_sep. exact Hkey. }
  cbv zeta in G1, G2, G3, G4.
  rewrite append_nil_r in G1, G2.
  rewrite G1, G2, G3, G4, !Hjoin.
  pose proof (Split_not_nil rest "/") as Hnn.
  pose proof (Join_Split rest "/") as Hjs.
  destruct (Strings.Split rest "/") as [|h t]; [congruence|].
  rewrite Hjs, append_nil_r. auto.
Qed.

Lemma Endpoint_redacts_auth_key_witness :
  Sanitize.Endpoint "/v2/integrations/operators/secret123/idr/payment"
  = "/v2/integrations/operators/[REDACTED]/idr/payment"
  /\ SanitizeScan.Endpoint "/v2/integrations/operators/secret123/idr/payment"
     = "/v2/integrations/operators/[REDACTED]/idr/payment".
Proof.
  assert (Hne : "secret123" <> EmptyString) by discriminate.
  pose proof (Endpoint_redacts_auth_key
                "operators" "secret123" "idr/payment"
                eq_refl eq_refl Hne) as (_ & _ & H3 & H4).
  split; [exact H3 | exact H4].
Defined.

(** ** client: what [New] guarantees of a configuration *)

Lemma New_unfold (authKey secretKey : string) (opts : list Client.Option) :
  Client.New authKey secretKey opts
  = let c := apply_options opts (defaults authKey secretKey) in
    let c :=
      match Client.HTTPClient_ c with
      | None =>
          Client.set_HTTPClient
            (Some (Client.mkHTTPClient (Client.Timeout c))) c
      | Some _ => c
      end in
    Client.set_qrCfg
      (Some (fold_left (fun cfg opt => opt cfg) (Client.qrOpts c)
               Client.qrDefaults)) c.
Proof. reflexivity. Qed.

Lemma apply_options_app (xs ys : list Client.Option) (c : Client.Client) :
  apply_options (xs ++ ys) c = apply_options ys (apply_options xs c).
Proof. apply fold_left_app. Qed.

(** An invariant kept by every option of the package and true of the
    defaults holds of every client that [New] builds from such options;
    the HTTP client and the QR configuration that [New] adds afterwards
    do not matter to an invariant that does not read them. *)
Lemma New_invariant (P : Client.Client -> Prop)
    (authKey secretKey : string) (opts : list Client.Option) :
  (forall o c, sdk_option o -> P c -> P (o c)) ->
  (forall c h, P c -> P (Client.set_HTTPClient h c)) ->
  (forall c q, P c -> P (Client.set_qrCfg q c)) ->
  P (defaults authKey secretKey) ->
  Forall sdk_option opts ->
  P (Client.New authKey secretKey opts).
Proof.
  intros Hopt Hhttp Hqr H0 Hall. rewrite New_unfold. cbv zeta.
  apply Hqr.
  assert (H : P (apply_options opts (defaults authKey secretKey))).
  { revert H0. generalize (defaults authKey secretKey).
    unfold apply_options.
    induction Hall as [|o opts Ho _ IH]; intros c Hc; simpl; [exact Hc|].
    apply IH. apply Hopt; assumption. }
  destruct (Client.HTTPClient_ _); [exact H | apply Hhttp; exact H].
Qed.

(** [parseIPWhitelist] rewrites the two parsed lists and nothing else. *)
Lemma fold_parseEntry_eq (l : list string) (c : Client.Client) :
  fold_left Client.parseEntry l c
  = Client.set_parsedIPs (Client.parsedIPs c ++ literalsOf l)
      (Client.set_parsedIPNets (Client.parsedIPNets c ++ netsOf l) c).
Proof.
  revert c. induction l as [|s l IH]; intros c; simpl.
  - rewrite !app_nil_r. destruct c; reflexivity.
  - rewrite IH. unfold Client.parseEntry.
    destruct (Net.ParseCIDR s) as [[a ipNet]|]; simpl.
    + rewrite <- app_assoc. destruct c; reflexivity.
    + destruct (Net.ParseIP s) as [ip|]; simpl.
      * rewrite <- app_assoc. destruct c; reflexivity.
      * destruct c; reflexivity.
Qed.

Lemma WithCallbackIPWhitelist_eq (ips : list string) (c : Client.Client) :
  Client.WithCallbackIPWhitelist ips c
  = Client.set_parsedIPs (literalsOf ips)
      (Client.set_parsedIPNets (netsOf ips)
         (Client.set_CallbackIPWhitelist ips c)).
Proof.
  unfold Client.WithCallbackIPWhitelist, Client.parseIPWhitelist.
  rewrite fold_parseEntry_eq. destruct c; reflexivity.
Qed.

(** The cases of an invariant that an option does not touch. *)
Ltac untouched Hc :=
  first
    [ exact Hc
    | rewrite WithCallbackIPWhitelist_eq; exact Hc
    | unfold Client.WithTimeout, Client.WithRetries, Client.WithDebug,
        Client.WithLanguage, Client.WithLogger;
      repeat match goal with
             | |- context [if ?b then _ else _] => destruct b
             | |- context [match ?l with Some _ => _ | None => _ end] =>
                 destruct l
             end;
      exact Hc ].

(** The request timeout is at least 5 seconds: the default is 30 seconds
    and [WithTimeout] ignores a shorter one. *)
Lemma New_Timeout_min
    (authKey secretKey : string) (opts : list Client.Option) :
  Forall sdk_option opts ->
  5 * Time.Second <= Client.Timeout (Client.New authKey secretKey opts).
Proof.
  apply (New_invariant (fun c => 5 * Time.Second <= Client.Timeout c));
    try (intros; assumption).
  - intros o c Ho Hc. destruct Ho; try solve [untouched Hc].
    unfold Client.WithTimeout.
    destruct (5 * Time.Second <=? t) eqn:E; [|exact Hc].
    apply Z.leb_le in E. exact E.
  - vm_compute. discriminate.
Qed.


(** The retry count is not negative: [WithRetries] ignores a negative
    one. *)
Lemma New_Retries_min
    (authKey secretKey : string) (opts : list Client.Option) :
  Forall sdk_option opts ->
  0 <= Client.Retries (Client.New authKey secretKey opts).
Proof.
  apply (New_invariant (fun c => 0 <= Client.Retries c));
    try (intros; assumption).
  - intros o c Ho Hc. destruct Ho; try solve [untouched Hc].
    unfold Client.WithRetries.
    destruct (0 <=? n) eqn:E; [|exact Hc].
    apply Z.leb_le in E. exact E.
  - vm_compute. discriminate.
Qed.


Lemma TrimRight_no_suffix (s : string) (c : ascii) :
  ends_with c (Strings.TrimRight s c) = false.
Proof.
  induction s as [|a s IH]; simpl; [reflexivity|].
  destruct (Strings.TrimRight s c) as [|b r] eqn:E.
  - destruct (Ascii.eqb a c) eqn:Hac; simpl; [reflexivity | exact Hac].
  - exact IH.
Qed.

Lemma TrimRight_decompose (s : string) (c : ascii) :
  exists n, s = (Strings.TrimRight s c ++ replicate n c)%string.
Proof.
  induction s as [|a s [n IH]]; simpl.
  - exists 0%nat. reflexivity.
  - destruct (Strings.TrimRight s c) as [|b r] eqn:E.
    + destruct (Ascii.eqb a c) eqn:Hac.
      * apply Ascii.eqb_eq in Hac. subst a.
        exists (S n). simpl in *. congruence.
      * exists n. simpl in *. congruence.
    + exists n. simpl in *. congruence.
Qed.

Lemma New_fold_BaseURL
    (authKey secretKey : string) (opts : list Client.Option) (u : string) :
  Client.BaseURL (Client.New authKey secretKey (opts ++ [Client.WithBaseURL u]))
  = Strings.TrimRight u "/".
Proof.
  rewrite New_unfold, apply_options_app. cbv zeta.
  destruct (Client.HTTPClient_ _); reflexivity.
Qed.

(** X4.  The base URL of a client that [New] builds from options of the
    package never ends with a slash, and a [WithBaseURL] given last
    decides it: it is the given URL without its trailing slashes. *)
Theorem New_BaseURL_no_trailing_slash
    (authKey secretKey : string) (opts : list Client.Option) :
  Forall sdk_option opts ->
  ends_with "/" (Client.BaseURL (Client.New authKey secretKey opts)) = false
  /\ forall u : string,
       exists n : nat,
         u = (Client.BaseURL
                (Client.New authKey secretKey (opts ++ [Client.WithBaseURL u]))
              ++ replicate n "/")%string.
Proof.
  intros Hall. split.
  - revert Hall.
    apply (New_invariant (fun c => ends_with "/" (Client.BaseURL c) = false));
      try (intros; assumption).
    + intros o c Ho Hc. destruct Ho; try solve [untouched Hc].
      apply TrimRight_no_suffix.
    + reflexivity.
  - intros u. rewrite New_fold_BaseURL. apply TrimRight_decompose.
Qed.

Lemma New_BaseURL_no_trailing_slash_witness :
  ends_with "/"
    (Client.BaseURL
       (Client.New "auth" "secret"
          [Client.WithBaseURL "https://sandbox.api.com///"])) = false.
Proof.
  apply New_BaseURL_no_trailing_slash. repeat constructor.
Defined.

(** The language is a supported one: [WithLanguage] ignores any
    other. *)
Lemma New_Language_ok
    (authKey secretKey : string) (opts : list Client.Option) :
  Forall sdk_option opts ->
  I18n.IsValid (Client.Language (Client.New authKey secretKey opts)) = true.
Proof.
  apply (New_invariant (fun c => I18n.IsValid (Client.Language c) = true));
    try (intros; assumption).
  - intros o c Ho Hc. destruct Ho; try solve [untouched Hc].
    unfold Client.WithLanguage.
    destruct (I18n.IsValid l) eqn:E; [exact E | exact Hc].
  - reflexivity.
Qed.

(** X5.  Every client that [New] builds from options of the package has
    settings in their ranges, whatever values the options were given: a
    request timeout of at least 5 seconds, a retry count that is not negative
    and a supported language.  The options ignore a value outside the
    range. *)
Theorem New_settings_in_range
    (authKey secretKey : string) (opts : list Client.Option) :
  Forall sdk_option opts ->
  5 * Time.Second <= Client.Timeout (Client.New authKey secretKey opts)
  /\ 0 <= Client.Retries (Client.New authKey secretKey opts)
  /\ I18n.IsValid (Client.Language (Client.New authKey secretKey opts))
     = true.
Proof.
  intros H. split; [|split].
  - apply New_Timeout_min, H.
  - apply New_Retries_min, H.
  - apply New_Language_ok, H.
Qed.

Lemma New_settings_in_range_witness :
  5 * Time.Second
  <= Client.Timeout
       (Client.New "auth" "secret"
          [Client.WithTimeout (2 * Time.Second); Client.WithRetries (-1);
           Client.WithLanguage (I18n.Unsupported "xx")])
  /\ 0 <= Client.Retries
            (Client.New "auth" "secret"
               [Client.WithTimeout (2 * Time.Second); Client.WithRetries (-1);
                Client.WithLanguage (I18n.Unsupported "xx")])
  /\ I18n.IsValid
       (Client.Language
          (Client.New "auth" "secret"
             [Client.WithTimeout (2 * Time.Second); Client.WithRetries (-1);
              Client.WithLanguage (I18n.Unsupported "xx")])) = true.
Proof.
  apply (New_settings_in_range "auth" "secret"
           [Client.WithTimeout (2 * Time.Second); Client.WithRetries (-1);
            Client.WithLanguage (I18n.Unsupported "xx")]).
  repeat constructor.
Defined.


(** X6.  In every client that [New] builds from options of the package
    the parsed ranges and addresses are those of the list of entries it
    holds: the allow-list is parsed whenever it is set, and no other
    option touches it. *)
Theorem New_whitelist_in_sync
    (authKey secretKey : string) (opts : list Client.Option) :
  Forall sdk_option opts ->
  let c := Client.New authKey secretKey opts in
  whitelist_configured (Client.CallbackIPWhitelist c) c.
Proof.
  intros Hall c. unfold c. revert Hall.
  apply (New_invariant
           (fun c => whitelist_configured (Client.CallbackIPWhitelist c) c));
    try (intros; assumption).
  - intros o c0 Ho Hc. destruct Ho; try solve [untouched Hc].
    rewrite WithCallbackIPWhitelist_eq. repeat split.
  - repeat split.
Qed.

Lemma New_whitelist_in_sync_witness :
  whitelist_configured
    (Client.CallbackIPWhitelist client_documented) client_documented.
Proof.
  apply (New_whitelist_in_sync "auth" "secret"
           [Client.WithCallbackIPWhitelist
              ["192.168.1.1"; "10.0.0.0/8"; "2001:db8::/32"]]).
  constructor; [apply sdk_CallbackIPWhitelist | constructor].
Defined.

Lemma apply_keeps_http (opts : list Client.Option) (c : Client.Client) :
  Forall keeps_http opts ->
  Client.HTTPClient_ (apply_options opts c) = Client.HTTPClient_ c.
Proof.
  intros Hall. revert c. unfold apply_options.
  induction Hall as [|o opts Ho _ IH]; intros c; simpl; [reflexivity|].
  rewrite IH. apply Ho.
Qed.

Lemma New_HTTPClient_unfold
    (authKey secretKey : string) (opts : list Client.Option) :
  let c := apply_options opts (defaults authKey secretKey) in
  Client.Timeout (Client.New authKey secretKey opts) = Client.Timeout c
  /\ Client.HTTPClient_ (Client.New authKey secretKey opts)
     = match Client.HTTPClient_ c with
       | Some h => Some h
       | None => Some (Client.mkHTTPClient (Client.Timeout c))
       end.
Proof.
  rewrite New_unfold. cbv zeta.
  destruct (Client.HTTPClient_ (apply_options opts _)) eqn:E; simpl;
    rewrite ?E; auto.
Qed.

(** X7.  [New] always returns a client with an HTTP client, whatever the
    options are.  When no option installs one, it is a new one whose timeout
    is the configured request timeout, wherever [WithTimeout] stood among the
    options.  The last [WithHTTPClient] decides, whatever stood before it,
    another [WithHTTPClient] included: a client given there is kept as it
    is, and options that follow and leave the HTTP client alone, [WithTimeout]
    among them, do not change its timeout; a nil client given there is
    replaced by a new one with the configured request timeout. *)
Theorem New_HTTPClient
    (authKey secretKey : string) (opts before after : list Client.Option)
    (h : Client.HTTPClient) :
  (exists h' : Client.HTTPClient,
      Client.HTTPClient_ (Client.New authKey secretKey opts) = Some h')
  /\ (Forall keeps_http before ->
      Client.HTTPClient_ (Client.New authKey secretKey before)
      = Some (Client.mkHTTPClient
                (Client.Timeout (Client.New authKey secretKey before))))
  /\ (Forall keeps_http after ->
      Client.HTTPClient_
        (Client.New authKey secretKey
           (opts ++ [Client.WithHTTPClient (Some h)] ++ after))
      = Some h
      /\ Client.HTTPClient_
           (Client.New authKey secretKey
              (opts ++ [Client.WithHTTPClient None] ++ after))
         = Some (Client.mkHTTPClient
                   (Client.Timeout
                      (Client.New authKey secretKey
                         (opts ++ [Client.WithHTTPClient None] ++ after))))).
Proof.
  split; [|split].
  - destruct (New_HTTPClient_unfold authKey secretKey opts) as [_ ->].
    destruct (Client.HTTPClient_ (apply_options opts _)) as [h'|];
      eexists; reflexivity.
  - intros Hb.
    destruct (New_HTTPClient_unfold authKey secretKey before) as [-> ->].
    rewrite apply_keeps_http by exact Hb. reflexivity.
  - intros Ha. split.
    + destruct (New_HTTPClient_unfold authKey secretKey
                  (opts ++ [Client.WithHTTPClient (Some h)] ++ after))
        as [_ ->].
      rewrite !apply_options_app, (apply_keeps_http after) by exact Ha.
      reflexivity.
    + destruct (New_HTTPClient_unfold authKey secretKey
                  (opts ++ [Client.WithHTTPClient None] ++ after))
        as [-> ->].
      rewrite !apply_options_app, (apply_keeps_http after) by exact Ha.
      reflexivity.
Qed.

(** Every option of the package other than [WithHTTPClient] leaves the
    HTTP client alone. *)
Lemma package_options_keep_http :
  (forall u, keeps_http (Client.WithBaseURL u))
  /\ (forall t, keeps_http (Client.WithTimeout t))
  /\ (forall n, keeps_http (Client.WithRetries n))
  /\ (forall b, keeps_http (Client.WithDebug b))
  /\ (forall min max, keeps_http (Client.WithRetryWait min max))
  /\ (forall ips, keeps_http (Client.WithCallbackIPWhitelist ips))
  /\ (forall l, keeps_http (Client.WithLanguage l))
  /\ (forall l, keeps_http (Client.WithLogger l))
  /\ (forall d, keeps_http (Client.WithDigest d)).
Proof.
  repeat split; intros x; try intros y; try intros z; unfold keeps_http;
    try reflexivity.
  - unfold Client.WithTimeout. destruct (_ <=? _); reflexivity.
  - unfold Client.WithRetries. destruct (_ <=? _); reflexivity.
  - unfold Client.WithDebug. destruct x; [|reflexivity].
    simpl. destruct (Logger.isNop _); reflexivity.
  - rewrite WithCallbackIPWhitelist_eq. reflexivity.
  - unfold Client.WithLanguage. destruct (I18n.IsValid x); reflexivity.
  - unfold Client.WithLogger. destruct x; reflexivity.
Qed.

Lemma New_HTTPClient_witness :
  Client.HTTPClient_
    (Client.New "auth" "secret"
       ([Client.WithHTTPClient
           (Some (Client.mkHTTPClient (5 * Time.Second)));
         Client.WithRetries 5]
        ++ [Client.WithHTTPClient (Some (Client.mkHTTPClient Time.Second))]
        ++ [Client.WithTimeout (60 * Time.Second)]))
  = Some (Client.mkHTTPClient Time.Second).
Proof.
  assert (Ha : Forall keeps_http [Client.WithTimeout (60 * Time.Second)])
    by (repeat constructor; intros c; reflexivity).
  exact (proj1 (proj2 (proj2
           (New_HTTPClient "auth" "secret"
              [Client.WithHTTPClient
                 (Some (Client.mkHTTPClient (5 * Time.Second)));
               Client.WithRetries 5]
              [] [Client.WithTimeout (60 * Time.Second)]
              (Client.mkHTTPClient Time.Second))) Ha)).
Defined.

(** X8.  Setting the allow-list again replaces it: the entries of an
    earlier [WithCallbackIPWhitelist] leave no trace, and the option
    changes nothing but the list and its two parsed forms. *)
Theorem WithCallbackIPWhitelist_last_wins
    (first second : list string) (c : Client.Client) :
  Client.WithCallbackIPWhitelist second
    (Client.WithCallbackIPWhitelist first c)
  = Client.WithCallbackIPWhitelist second c
  /\ Client.parseIPWhitelist (Client.WithCallbackIPWhitelist second c)
     = Client.WithCallbackIPWhitelist second c
  /\ Client.WithCallbackIPWhitelist second c
     = Client.mkClient
         (Client.AuthKey c) (Client.SecretKey c) (Client.BaseURL c)
         (Client.HTTPClient_ c) (Client.Timeout c) (Client.Retries c)
         (Client.RetryWaitMin c) (Client.RetryWaitMax c)
         second (netsOf second) (Client.Debug c) (literalsOf second)
         (Client.Language c) (Client.logger c) (Client.digest c)
         (Client.qrOpts c) (Client.qrCfg c).
Proof.
  split; [|split].
  - rewrite !WithCallbackIPWhitelist_eq. reflexivity.
  - unfold Client.parseIPWhitelist.
    rewrite fold_parseEntry_eq, WithCallbackIPWhitelist_eq. reflexivity.
  - rewrite WithCallbackIPWhitelist_eq. reflexivity.
Qed.

(** X9.  [WithDebug(true)] installs the default logger only where no
    logger is set: it leaves a logger other than [Nop] in place, so with
    such a logger [WithLogger] and [WithDebug(true)] give the same client in
    either order.  With a nil logger the order matters: [WithLogger(nil)]
    given last silences the client again. *)
Theorem WithDebug_WithLogger_order (l : Logger.Handler) (c : Client.Client) :
  (Logger.isNop l = false ->
   Client.WithDebug true (Client.WithLogger (Some l) c)
   = Client.WithLogger (Some l) (Client.WithDebug true c))
  /\ (Logger.isNop (Client.logger c) = false ->
      Client.logger (Client.WithDebug true c) = Client.logger c)
  /\ Logger.isNop (Client.logger (Client.WithDebug true c)) = false
  /\ Client.logger (Client.WithDebug true (Client.WithLogger None c))
     = Logger.Default
  /\ Client.logger (Client.WithLogger None (Client.WithDebug true c))
     = Logger.Nop.
Proof.
  split; [|split; [|split; [|split]]].
  - intros Hl. unfold Client.WithDebug, Client.WithLogger. simpl.
    rewrite Hl. destruct (Logger.isNop (Client.logger c)); reflexivity.
  - intros Hc. unfold Client.WithDebug. simpl. rewrite Hc. reflexivity.
  - unfold Client.WithDebug. simpl.
    destruct (Logger.isNop (Client.logger c)) eqn:E; simpl;
      [reflexivity | exact E].
  - reflexivity.
  - reflexivity.
Qed.

(** ** client: the allow-list as a set of entries *)

Lemma IsIPWhitelisted_configured
    (ips : list string) (c : Client.Client) (ipStr : string) :
  whitelist_configured ips c ->
  ips <> [] ->
  (Client.IsIPWhitelisted c ipStr = true
   <-> exists ip, Net.ParseIP (hostOf ipStr) = Some ip
                  /\ (equals_literal ips ip \/ inside_range ips ip)).
Proof.
  intros Hcfg Hne. pose proof Hcfg as (Hw & _).
  rewrite IsIPWhitelisted_parsed by congruence.
  destruct (Net.ParseIP (hostOf ipStr)) as [ip|].
  - rewrite (configured_match ips c ip Hcfg). split.
    + intros H. exists ip. auto.
    + intros (ip' & E & H). injection E as ->. exact H.
  - split; [discriminate|]. intros (ip' & E & _). discriminate.
Qed.

Lemma match_incl (ips1 ips2 : list string) (ip : Net.IP) :
  incl ips1 ips2 ->
  equals_literal ips1 ip \/ inside_range ips1 ip ->
  equals_literal ips2 ip \/ inside_range ips2 ip.
Proof.
  intros Hincl [(s & w & Hs & H)|(s & a & n & Hs & H)].
  - left. exists s, w. split; [apply Hincl; exact Hs | exact H].
  - right. exists s, a, n. split; [apply Hincl; exact Hs | exact H].
Qed.

Lemma IsIPWhitelisted_incl
    (ips1 ips2 : list string) (c1 c2 : Client.Client) (ipStr : string) :
  whitelist_configured ips1 c1 ->
  whitelist_configured ips2 c2 ->
  ips1 <> [] ->
  incl ips1 ips2 ->
  Client.IsIPWhitelisted c1 ipStr = true ->
  Client.IsIPWhitelisted c2 ipStr = true.
Proof.
  intros H1 H2 Hne Hincl.
  assert (Hne2 : ips2 <> []).
  { destruct ips1 as [|s l]; [congruence|].
    intros E. subst ips2. apply (Hincl s). left. reflexivity. }
  rewrite (IsIPWhitelisted_configured ips1 c1 ipStr H1 Hne).
  rewrite (IsIPWhitelisted_configured ips2 c2 ipStr H2 Hne2).
  intros (ip & E & H). exists ip. split; [exact E|].
  apply (match_incl ips1 ips2); assumption.
Qed.

(** X10.  Adding entries to a non-empty allow-list never takes an
    allowed address away: what a client with the entries [ips1] allows, a
    client with those entries among its own allows too.  An empty list is
    the exception, as it allows everything. *)
Theorem IsIPWhitelisted_monotone
    (ips1 ips2 : list string) (c1 c2 : Client.Client) (ipStr : string) :
  whitelist_configured ips1 c1 ->
  whitelist_configured ips2 c2 ->
  ips1 <> [] ->
  incl ips1 ips2 ->
  Client.IsIPWhitelisted c1 ipStr = true ->
  Client.IsIPWhitelisted c2 ipStr = true.
Proof. apply IsIPWhitelisted_incl. Qed.

Lemma IsIPWhitelisted_monotone_witness :
  Client.IsIPWhitelisted client_documented "10.1.2.3:9999" = true.
Proof.
  assert (H1 : whitelist_configured ["10.0.0.0/8"] client_10_8)
    by (repeat split; vm_compute; reflexivity).
  assert (H2 : whitelist_configured
                 ["192.168.1.1"; "10.0.0.0/8"; "2001:db8::/32"]
                 client_documented)
    by (repeat split; vm_compute; reflexivity).
  assert (Hne : ["10.0.0.0/8"] <> @nil string) by discriminate.
  assert (Hincl : incl ["10.0.0.0/8"]
                    ["192.168.1.1"; "10.0.0.0/8"; "2001:db8::/32"]).
  { intros s [<-|[]]. right. left. reflexivity. }
  apply (IsIPWhitelisted_monotone _ _ client_10_8 client_documented
           "10.1.2.3:9999" H1 H2 Hne Hincl).
  vm_compute. reflexivity.
Defined.

(** X11.  The answer of [IsIPWhitelisted] does not depend on the order
    of the entries nor on how often one is repeated: two clients whose
    allow-lists have the same entries allow the same candidates. *)
Theorem IsIPWhitelisted_same_entries
    (ips1 ips2 : list string) (c1 c2 : Client.Client) (ipStr : string) :
  whitelist_configured ips1 c1 ->
  whitelist_configured ips2 c2 ->
  (forall s, In s ips1 <-> In s ips2) ->
  Client.IsIPWhitelisted c1 ipStr = Client.IsIPWhitelisted c2 ipStr.
Proof.
  intros H1 H2 Hsame.
  assert (I12 : incl ips1 ips2) by (intros s; apply Hsame).
  assert (I21 : incl ips2 ips1) by (intros s; apply Hsame).
  destruct ips1 as [|s1 l1].
  - destruct ips2 as [|s2 l2].
    + rewrite !IsIPWhitelisted_empty; [reflexivity | apply H2 | apply H1].
    + exfalso. apply (I21 s2). left. reflexivity.
  - assert (Hne1 : s1 :: l1 <> []) by discriminate.
    assert (Hne2 : ips2 <> []).
    { intros E. subst ips2. apply (I12 s1). left. reflexivity. }
    destruct (Client.IsIPWhitelisted c1 ipStr) eqn:E1.
    + symmetry.
      apply (IsIPWhitelisted_incl _ _ c1 c2 ipStr H1 H2 Hne1 I12 E1).
    + destruct (Client.IsIPWhitelisted c2 ipStr) eqn:E2; [|reflexivity].
      rewrite (IsIPWhitelisted_incl _ _ c2 c1 ipStr H2 H1 Hne2 I21 E2) in E1.
      discriminate.
Qed.

Lemma IsIPWhitelisted_same_entries_witness :
  Client.IsIPWhitelisted
    (Client.New "auth" "secret"
       [Client.WithCallbackIPWhitelist ["10.0.0.0/8"; "192.168.1.1"]])
    "192.168.1.1:8080"
  = Client.IsIPWhitelisted
      (Client.New "auth" "secret"
         [Client.WithCallbackIPWhitelist
            ["192.168.1.1"; "10.0.0.0/8"; "192.168.1.1"]])
      "192.168.1.1:8080".
Proof.
  apply (IsIPWhitelisted_same_entries
           ["10.0.0.0/8"; "192.168.1.1"]
           ["192.168.1.1"; "10.0.0.0/8"; "192.168.1.1"]).
  - repeat split; vm_compute; reflexivity.
  - repeat split; vm_compute; reflexivity.
  - intros s. simpl. tauto.
Defined.

(** ** net: host and port *)

Lemma free_of_app (c : ascii) (a b : string) :
  free_of c (a ++ b) = free_of c a && free_of c b.
Proof.
  induction a as [|x a IH]; simpl; [reflexivity|].
  rewrite IH, andb_assoc. reflexivity.
Qed.

Lemma IndexByte_free (s : string) (c : ascii) :
  free_of c s = true -> Strings.IndexByte s c = -1.
Proof.
  induction s as [|a s IH]; simpl; [reflexivity|].
  intros H. apply andb_prop in H. destruct H as [Ha Hs].
  apply negb_true_iff in Ha. rewrite Ha, (IH Hs). reflexivity.
Qed.

Lemma IndexByte_range (s : string) (c : ascii) :
  -1 <= Strings.IndexByte s c.
Proof.
  induction s as [|a s IH]; simpl; [lia|].
  destruct (Ascii.eqb a c); [lia|].
  destruct (Strings.IndexByte s c <? 0) eqn:E; [lia|].
  apply Z.ltb_ge in E. lia.
Qed.

Lemma IndexByte_first (a b : string) (c : ascii) :
  free_of c a = true ->
  Strings.IndexByte (a ++ String c b) c = Strings.len a.
Proof.
  unfold Strings.len.
  induction a as [|x a IH]; simpl.
  - intros _. rewrite Ascii.eqb_refl. reflexivity.
  - intros H. apply andb_prop in H. destruct H as [Hx Ha].
    apply negb_true_iff in Hx. rewrite Hx, (IH Ha).
    destruct (Z.of_nat (String.length a) <? 0) eqn:E.
    + apply Z.ltb_lt in E. lia.
    + lia.
Qed.

Lemma LastIndexByte_free (s : string) (c : ascii) :
  free_of c s = true -> Strings.LastIndexByte s c = -1.
Proof.
  induction s as [|a s IH]; simpl; [reflexivity|].
  intros H. apply andb_prop in H. destruct H as [Ha Hs].
  apply negb_true_iff in Ha. rewrite Ha, (IH Hs). reflexivity.
Qed.

Lemma LastIndexByte_last (a b : string) (c : ascii) :
  free_of c b = true ->
  Strings.LastIndexByte (a ++ String c b) c = Strings.len a.
Proof.
  unfold Strings.len. intros Hb.
  induction a as [|x a IH]; simpl.
  - rewrite (LastIndexByte_free b c Hb), Ascii.eqb_refl. reflexivity.
  - rewrite IH.
    destruct (0 <=? Z.of_nat (String.length a)) eqn:E.
    + lia.
    + apply Z.leb_gt in E. lia.
Qed.

Lemma substring_prefix (a b : string) :
  substring 0 (String.length a) (a ++ b) = a.
Proof.
  induction a as [|x a IH]; simpl.
  - destruct b; reflexivity.
  - rewrite IH. reflexivity.
Qed.

Lemma substring_all (s : string) : substring 0 (String.length s) s = s.
Proof.
  induction s as [|x s IH]; simpl; [reflexivity|]. rewrite IH. reflexivity.
Qed.

Lemma substring_skip (a b : string) (m : nat) :
  substring (String.length a) m (a ++ b) = substring 0 m b.
Proof.
  induction a as [|x a IH]; simpl; [reflexivity|]. exact IH.
Qed.

Lemma slice_prefix (a b : string) :
  Strings.slice (a ++ b) 0 (Strings.len a) = a.
Proof.
  unfold Strings.slice, Strings.len.
  rewrite Z.sub_0_r, Nat2Z.id. apply substring_prefix.
Qed.

Lemma slice_from_0 (s : string) : Strings.slice_from s 0 = s.
Proof.
  unfold Strings.slice_from, Strings.slice, Strings.len.
  rewrite Z.sub_0_r, Nat2Z.id. apply substring_all.
Qed.

Lemma slice_from_suffix (a b : string) :
  Strings.slice_from (a ++ b) (Strings.len a) = b.
Proof.
  unfold Strings.slice_from, Strings.slice, Strings.len.
  rewrite length_append, Nat2Z.id.
  replace (Z.to_nat (Z.of_nat (String.length a + String.length b)
                     - Z.of_nat (String.length a)))
    with (String.length b) by lia.
  rewrite substring_skip. apply substring_all.
Qed.

Lemma byte_is_head (s : string) (c : ascii) :
  Netip.byte_is s 0 c
  = match s with String a _ => Ascii.eqb a c | EmptyString => false end.
Proof. destruct s; reflexivity. Qed.

Lemma SplitHostPort_plain (host port : string) :
  free_of ":" host = true -> free_of "[" host = true ->
  free_of "]" host = true ->
  free_of ":" port = true -> free_of "[" port = true ->
  free_of "]" port = true ->
  Net.SplitHostPort (host ++ ":" ++ port) = Some (host, port).
Proof.
  intros H1 H2 H3 P1 P2 P3.
  change (host ++ ":" ++ port)%string with (host ++ String ":" port)%string.
  unfold Net.SplitHostPort.
  rewrite (LastIndexByte_last host port ":" P1).
  assert (Hlen : (Strings.len host <? 0) = false)
    by (apply Z.ltb_ge; unfold Strings.len; lia).
  rewrite Hlen.
  assert (Hhead : Netip.byte_is (host ++ String ":" port) 0 "[" = false).
  { rewrite byte_is_head. destruct host as [|x host]; simpl; [reflexivity|].
    simpl in H2. apply andb_prop in H2. destruct H2 as [H2 _].
    apply negb_true_iff in H2. exact H2. }
  rewrite Hhead, slice_prefix, (IndexByte_free host ":" H1).
  cbn [Z.leb Z.compare].
  rewrite slice_from_0.
  rewrite !IndexByte_free
    by (rewrite free_of_app; simpl; rewrite ?H2, ?H3, ?P2, ?P3; reflexivity).
  cbn [Z.leb Z.compare].
  replace (Strings.len host + 1) with (Strings.len (host ++ ":"))
    by (unfold Strings.len; rewrite length_append; simpl; lia).
  change (host ++ String ":" port)%string with (host ++ (":" ++ port))%string.
  rewrite <- append_assoc, slice_from_suffix. reflexivity.
Qed.

Lemma SplitHostPort_no_colon (s : string) :
  free_of ":" s = true -> Net.SplitHostPort s = None.
Proof.
  intros H. unfold Net.SplitHostPort.
  rewrite (LastIndexByte_free s ":" H). reflexivity.
Qed.

Lemma IsIPWhitelisted_hostOf (c : Client.Client) (x y : string) :
  hostOf x = hostOf y ->
  Client.IsIPWhitelisted c x = Client.IsIPWhitelisted c y.
Proof.
  intros H. unfold Client.IsIPWhitelisted.
  fold (hostOf x). fold (hostOf y). rewrite H. reflexivity.
Qed.

Lemma VerifyCallbackIP_hostOf (c : Client.Client) (x y : string) :
  hostOf x = hostOf y ->
  Client.VerifyCallbackIP c x = Client.VerifyCallbackIP c y.
Proof.
  intros H. unfold Client.VerifyCallbackIP.
  fold (hostOf x). fold (hostOf y).
  rewrite H, (IsIPWhitelisted_hostOf c x y H). reflexivity.
Qed.

(** X12.  The port of a candidate is ignored: for a host without colon
    or bracket and a port without them, [host:port] is answered as [host]
    is, by [IsIPWhitelisted] and by [VerifyCallbackIP] alike. *)
Theorem callback_port_ignored (c : Client.Client) (host port : string) :
  free_of ":" host = true -> free_of "[" host = true ->
  free_of "]" host = true ->
  free_of ":" port = true -> free_of "[" port = true ->
  free_of "]" port = true ->
  Client.IsIPWhitelisted c (host ++ ":" ++ port)
  = Client.IsIPWhitelisted c host
  /\ Client.VerifyCallbackIP c (host ++ ":" ++ port)
     = Client.VerifyCallbackIP c host.
Proof.
  intros H1 H2 H3 P1 P2 P3.
  assert (E : hostOf (host ++ ":" ++ port) = hostOf host).
  { unfold hostOf.
    rewrite SplitHostPort_plain, SplitHostPort_no_colon by assumption.
    reflexivity. }
  split; [apply IsIPWhitelisted_hostOf | apply VerifyCallbackIP_hostOf];
    exact E.
Qed.

Lemma callback_port_ignored_witness :
  Client.IsIPWhitelisted client_10_8 ("10.1.2.3" ++ ":" ++ "9999")
  = Client.IsIPWhitelisted client_10_8 "10.1.2.3".
Proof.
  apply (callback_port_ignored client_10_8 "10.1.2.3" "9999");
    reflexivity.
Defined.

Lemma slice_middle (a b c : string) :
  Strings.slice (a ++ b ++ c) (Strings.len a) (Strings.len a + Strings.len b)
  = b.
Proof.
  unfold Strings.slice, Strings.len.
  replace (Z.of_nat (String.length a) + Z.of_nat (String.length b)
           - Z.of_nat (String.length a))
    with (Z.of_nat (String.length b)) by lia.
  rewrite !Nat2Z.id, substring_skip. apply substring_prefix.
Qed.

Lemma SplitHostPort_bracketed (host port : string) :
  free_of "[" host = true -> free_of "]" host = true ->
  free_of ":" port = true -> free_of "[" port = true ->
  free_of "]" port = true ->
  Net.SplitHostPort ("[" ++ host ++ "]:" ++ port) = Some (host, port).
Proof.
  intros H2 H3 P1 P2 P3.
  set (hostport := ("[" ++ host ++ "]:" ++ port)%string).
  assert (Hlast : Strings.LastIndexByte hostport ":" = Strings.len host + 2).
  { replace hostport with (("[" ++ host ++ "]") ++ String ":" port)%string
      by (unfold hostport; rewrite ?append_assoc; reflexivity).
    rewrite (LastIndexByte_last _ port ":" P1).
    unfold Strings.len. simpl. rewrite length_append. simpl. lia. }
  assert (Hclose : Strings.IndexByte hostport "]" = Strings.len host + 1).
  { replace hostport with (("[" ++ host) ++ String "]" (":" ++ port))%string
      by (unfold hostport; rewrite ?append_assoc; reflexivity).
    rewrite IndexByte_first by (simpl; exact H3).
    unfold Strings.len. simpl. lia. }
  assert (Hlen : Strings.len hostport
                 = Strings.len host + 3 + Strings.len port).
  { unfold hostport, Strings.len. simpl. rewrite length_append. simpl. lia. }
  assert (Hpos : 0 <= Strings.len host) by (unfold Strings.len; lia).
  assert (Hposp : 0 <= Strings.len port) by (unfold Strings.len; lia).
  unfold Net.SplitHostPort.
  rewrite Hlast.
  replace (Strings.len host + 2 <? 0) with false by (symmetry; apply Z.ltb_ge; lia).
  replace (Netip.byte_is hostport 0 "[") with true by reflexivity.
  rewrite Hclose, Hlen.
  replace (Strings.len host + 1 <? 0) with false by (symmetry; apply Z.ltb_ge; lia).
  replace (Strings.len host + 1 + 1 =? Strings.len host + 3 + Strings.len port)
    with false by (symmetry; apply Z.eqb_neq; lia).
  replace (Strings.len host + 1 + 1 =? Strings.len host + 2)
    with true by (symmetry; apply Z.eqb_eq; lia).
  assert (Hhost : Strings.slice hostport 1 (Strings.len host + 1) = host).
  { pose proof (slice_middle "[" host ("]:" ++ port)) as Hs.
    change (Strings.len "[") with 1 in Hs.
    rewrite (Z.add_comm 1) in Hs. exact Hs. }
  assert (Hj : Strings.slice_from hostport 1 = (host ++ "]:" ++ port)%string).
  { exact (slice_from_suffix "[" (host ++ "]:" ++ port)). }
  assert (Hk : Strings.slice_from hostport (Strings.len host + 1 + 1)
               = (":" ++ port)%string).
  { replace hostport with (("[" ++ host ++ "]") ++ (":" ++ port))%string
      by (unfold hostport; rewrite ?append_assoc; reflexivity).
    replace (Strings.len host + 1 + 1) with (Strings.len ("[" ++ host ++ "]"))
      by (unfold Strings.len; simpl; rewrite length_append; simpl; lia).
    apply slice_from_suffix. }
  assert (Hp : Strings.slice_from hostport (Strings.len host + 2 + 1) = port).
  { replace hostport with (("[" ++ host ++ "]:") ++ port)%string
      by (unfold hostport; rewrite ?append_assoc; reflexivity).
    replace (Strings.len host + 2 + 1) with (Strings.len ("[" ++ host ++ "]:"))
      by (unfold Strings.len; simpl; rewrite length_append; simpl; lia).
    apply slice_from_suffix. }
  rewrite Hhost, Hj, Hk, Hp.
  rewrite !IndexByte_free
    by (rewrite ?free_of_app; simpl; rewrite ?H2, ?H3, ?P2, ?P3; reflexivity).
  reflexivity.
Qed.

(** X13.  In the bracketed form [[host]:port] of an IPv6 candidate the
    brackets and the port are removed before matching: the candidate is
    answered as the bare [host] is, for a host that carries no port of its
    own. *)
Theorem callback_bracketed_port_ignored
    (c : Client.Client) (host port : string) :
  free_of "[" host = true -> free_of "]" host = true ->
  free_of ":" port = true -> free_of "[" port = true ->
  free_of "]" port = true ->
  Net.SplitHostPort host = None ->
  Client.IsIPWhitelisted c ("[" ++ host ++ "]:" ++ port)
  = Client.IsIPWhitelisted c host
  /\ Client.VerifyCallbackIP c ("[" ++ host ++ "]:" ++ port)
     = Client.VerifyCallbackIP c host.
Proof.
  intros H2 H3 P1 P2 P3 Hnone.
  assert (E : hostOf ("[" ++ host ++ "]:" ++ port) = hostOf host).
  { unfold hostOf. rewrite SplitHostPort_bracketed, Hnone by assumption.
    reflexivity. }
  split; [apply IsIPWhitelisted_hostOf | apply VerifyCallbackIP_hostOf];
    exact E.
Qed.

Lemma callback_bracketed_port_ignored_witness :
  Client.IsIPWhitelisted client_documented ("[" ++ "2001:db8::1" ++ "]:" ++ "443")
  = Client.IsIPWhitelisted client_documented "2001:db8::1".
Proof.
  apply (callback_bracketed_port_ignored client_documented "2001:db8::1" "443");
    reflexivity.
Defined.

(** ** internal/signature and client: signatures as digests *)







Lemma apply_keeps_digest (opts : list Client.Option) (c : Client.Client) :
  Forall keeps_digest opts ->
  Client.digest (apply_options opts c) = Client.digest c.
Proof.
  intros Hall. revert c. unfold apply_options.
  induction Hall as [|o opts Ho _ IH]; intros c; simpl; [reflexivity|].
  rewrite IH. apply Ho.
Qed.

Lemma New_digest (authKey secretKey : string) (opts : list Client.Option) :
  Client.digest (Client.New authKey secretKey opts)
  = Client.digest (apply_options opts (defaults authKey secretKey)).
Proof.
  rewrite New_unfold. cbv zeta. destruct (Client.HTTPClient_ _); reflexivity.
Qed.

(** X15.  A client signs with MD5 unless told otherwise: when no option
    sets a digest, and also after [WithDigest(nil)] or [WithDigest(md5.New)]
    followed by options that leave the digest alone, [GenerateSignature] is
    the 32-character MD5 signature [Generate]. *)
Theorem GenerateSignature_default_md5
    (authKey secretKey data : string) (before after : list Client.Option) :
  Forall keeps_digest before ->
  Forall keeps_digest after ->
  ClientSignature.GenerateSignature
    (Client.New authKey secretKey before) data
  = Signature.Generate data
  /\ ClientSignature.GenerateSignature
       (Client.New authKey secretKey
          (before ++ [Client.WithDigest None] ++ after)) data
     = Signature.Generate data
  /\ ClientSignature.GenerateSignature
       (Client.New authKey secretKey
          (before ++ [Client.WithDigest (Some Signature.md5_New)] ++ after))
       data
     = Signature.Generate data
  /\ String.length (Signature.Generate data) = 32%nat.
Proof.
  intros Hb Ha. unfold ClientSignature.GenerateSignature.
  rewrite !New_digest, !apply_options_app.
  rewrite !(apply_keeps_digest after) by exact Ha.
  rewrite (apply_keeps_digest before) by exact Hb.
  split; [reflexivity|]. split; [reflexivity|]. split; [reflexivity|].
  unfold Signature.Generate, Signature.GenerateWithDigest.
  rewrite EncodeToString_length, (proj1 (MD5_Sum_bytes _)). reflexivity.
Qed.

Lemma GenerateSignature_default_md5_witness :
  ClientSignature.GenerateSignature
    (Client.New "auth" "secret" [Client.WithRetries 5]) "hello"
  = Signature.Generate "hello".
Proof.
  assert (Hb : Forall keeps_digest [Client.WithRetries 5])
    by (repeat constructor; intros c; reflexivity).
  exact (proj1 (GenerateSignature_default_md5 "auth" "secret" "hello"
                  [Client.WithRetries 5] [] Hb (Forall_nil _))).
Defined.

(** ** internal/sanitize: account numbers and names *)

(** The cases of [sanitize_test.go], with their non-ASCII inputs. *)
Example AccountNumber_tests :
  map SanitizeAccount.AccountNumber
    ["1234567890"; "12345678901234567890"; "12345"; "1234"; "123"; "1"; "";
     "ABC1234567890"; "日本語1234567890"; "123-456-7890"]
  = ["****7890"; "****7890"; "****2345"; "****"; "****"; "****"; "";
     "****7890"; "****7890"; "****7890"].
Proof. vm_compute. reflexivity. Qed.

Example AccountName_tests :
  map SanitizeAccount.AccountName
    ["John Doe"; "Alice"; "John Middle Doe"; ""; "   "; "A"; "日本 太郎";
     "John   Doe"; "john doe"]
  = ["J*** D***"; "A***"; "J*** M*** D***"; ""; ""; "A***"; "日*** 太***";
     "J*** D***"; "j*** d***"].
Proof. vm_compute. reflexivity. Qed.

Lemma of_bytes_bytes (s : string) :
  SanitizeAccount.of_bytes (Go.bytes s) = s.
Proof.
  unfold SanitizeAccount.of_bytes, Go.bytes, Go.byte_of_ascii.
  induction s as [|a s IH]; simpl; [reflexivity|].
  rewrite IH, N2Z.id, ascii_N_embedding. reflexivity.
Qed.

Lemma of_bytes_app (a b : list Z) :
  SanitizeAccount.of_bytes (a ++ b)
  = (SanitizeAccount.of_bytes a ++ SanitizeAccount.of_bytes b)%string.
Proof.
  unfold SanitizeAccount.of_bytes.
  induction a as [|x a IH]; simpl; [reflexivity|]. rewrite IH. reflexivity.
Qed.

Lemma bytes_append (a b : string) :
  Go.bytes (a ++ b) = Go.bytes a ++ Go.bytes b.
Proof.
  unfold Go.bytes. induction a as [|x a IH]; simpl; [reflexivity|].
  rewrite IH. reflexivity.
Qed.

Lemma of_bytes_length (l : list Z) :
  String.length (SanitizeAccount.of_bytes l) = List.length l.
Proof.
  unfold SanitizeAccount.of_bytes.
  induction l as [|x l IH]; simpl; congruence.
Qed.

Lemma skipn_bytes (s : string) (k : nat) :
  skipn k (Go.bytes s)
  = Go.bytes (substring k (String.length s - k) s).
Proof.
  revert k. induction s as [|a s IH]; intros [|k]; simpl; try reflexivity.
  - rewrite substring_all. reflexivity.
  - rewrite IH. reflexivity.
Qed.

(** *** Decoding *)

Lemma first_cases (b : Z) :
  In (Utf8.first b)
    [Utf8.as_; Utf8.xx; Utf8.s1; Utf8.s2; Utf8.s3; Utf8.s4; Utf8.s5;
     Utf8.s6; Utf8.s7].
Proof.
  unfold Utf8.first.
  repeat match goal with
         | |- context [if ?c then _ else _] => destruct c
         end; simpl; tauto.
Qed.

(** The decoder splits into one case for every code of [first]. *)
Ltac decode_code c :=
  let sz := eval vm_compute in (Z.land c 7) in
  let ar := eval vm_compute in (Utf8.acceptRanges (Z.shiftr c 4)) in
  let a := eval vm_compute in (Utf8.as_ <=? c) in
  let o := eval vm_compute in (Z.odd c) in
  let two := eval vm_compute in (sz <=? 2) in
  let three := eval vm_compute in (sz <=? 3) in
  change (Z.land c 7) with sz;
  change (Utf8.acceptRanges (Z.shiftr c 4)) with ar;
  change (Utf8.as_ <=? c) with a;
  change (Z.odd c) with o;
  change (sz <=? 2) with two;
  change (sz <=? 3) with three;
  cbv beta iota zeta.

Ltac decode_cases b :=
  unfold Utf8.DecodeRuneInString; cbv beta iota zeta;
  let H := fresh "Hfirst" in
  pose proof (first_cases b) as H; cbn [In] in H;
  destruct H as [H|[H|[H|[H|[H|[H|[H|[H|[H|H]]]]]]]]];
  [ rewrite <- H;
    match type of H with ?c = _ => decode_code c end .. | destruct H ].

Lemma Decode_width (s : list Z) :
  s <> [] ->
  (1 <= snd (Utf8.DecodeRuneInString s) <= List.length s)%nat.
Proof.
  destruct s as [|b l]; [congruence|]. intros _.
  decode_cases b;
    repeat match goal with
           | |- context [if ?c then _ else _] => destruct c eqn:?
           end;
    cbn [snd List.length];
    repeat match goal with
           | H : (_ <? _) = false |- _ => apply Z.ltb_ge in H
           end; cbn [List.length] in *; lia.
Qed.

Lemma Decode_ascii (b : Z) (l : list Z) :
  (b <? 128) = true -> Utf8.DecodeRuneInString (b :: l) = (b, 1%nat).
Proof.
  intros Hb. unfold Utf8.DecodeRuneInString, Utf8.first. rewrite Hb.
  reflexivity.
Qed.

Lemma runesLoop_length (fuel : nat) (s : list Z) :
  Utf8.runeCountLoop fuel s = Z.of_nat (List.length (Utf8.runesLoop fuel s)).
Proof.
  revert s. induction fuel as [|fuel IH]; intros s; [reflexivity|].
  cbn [Utf8.runeCountLoop Utf8.runesLoop].
  destruct s as [|b l]; [reflexivity|].
  destruct (Utf8.DecodeRuneInString (b :: l)) as [r w] eqn:E.
  cbn [snd List.length]. rewrite IH. lia.
Qed.

Lemma RuneCount_runes (s : list Z) :
  Utf8.RuneCountInString s = Z.of_nat (List.length (Utf8.runes s)).
Proof. apply runesLoop_length. Qed.

(** The fuel of the loop over the runes is enough: with more of it the
    loop gives the same runes. *)
Lemma runesLoop_fuel (fuel : nat) (s : list Z) :
  (List.length s <= fuel)%nat -> Utf8.runesLoop fuel s = Utf8.runes s.
Proof.
  unfold Utf8.runes.
  remember (List.length s) as n eqn:Hn.
  assert (Hle : (List.length s <= n)%nat) by lia. clear Hn.
  revert s fuel Hle.
  induction n as [|n IH]; intros s fuel Hle Hfuel.
  - destruct s; [|simpl in Hle; lia]. destruct fuel; reflexivity.
  - destruct fuel as [|fuel]; [destruct s; [reflexivity|simpl in Hfuel; lia]|].
    cbn [Utf8.runesLoop]. destruct s as [|b l]; [reflexivity|].
    pose proof (Decode_width (b :: l) ltac:(discriminate)) as Hw.
    destruct (Utf8.DecodeRuneInString (b :: l)) as [r w].
    cbn [snd] in Hw.
    assert (Hs : (List.length (skipn w (b :: l)) <= n)%nat).
    { rewrite length_skipn. cbn [List.length] in *. lia. }
    rewrite (IH _ fuel Hs); [reflexivity|lia].
Qed.

Lemma runes_count_le (s : list Z) :
  (List.length (Utf8.runes s) <= List.length s)%nat.
Proof.
  unfold Utf8.runes. generalize (List.length s) as fuel.
  intros fuel. revert s.
  induction fuel as [|fuel IH]; intros s; [simpl; lia|].
  cbn [Utf8.runesLoop]. destruct s as [|b l]; [simpl; lia|].
  destruct (Utf8.DecodeRuneInString (b :: l)) as [r w].
  cbn [List.length]. specialize (IH (skipn w (b :: l))). lia.
Qed.

Lemma runes_ascii (s : list Z) :
  forallb (fun b => b <? 128) s = true -> Utf8.runes s = s.
Proof.
  unfold Utf8.runes. induction s as [|b l IH]; [reflexivity|].
  cbn [forallb List.length Utf8.runesLoop]. intros H.
  apply andb_true_iff in H as [Hb Hl].
  rewrite (Decode_ascii b l Hb). cbn [skipn]. rewrite (IH Hl). reflexivity.
Qed.

Lemma EncodeRune_ascii (b : Z) : 0 <= b -> (b <? 128) = true ->
  Utf8.EncodeRune b = [b].
Proof.
  intros H0 Hb. apply Z.ltb_lt in Hb.
  unfold Utf8.EncodeRune, Go.uint32, Go.uint8.
  rewrite (Z.mod_small b (2 ^ 32)) by lia.
  rewrite (Z.mod_small b (2 ^ 8)) by lia.
  destruct (b <=? 127) eqn:E; [reflexivity|]. apply Z.leb_gt in E. lia.
Qed.

Lemma encode_ascii (l : list Z) :
  Forall Go.is_byte l -> forallb (fun b => b <? 128) l = true ->
  Utf8.encode l = l.
Proof.
  unfold Utf8.encode.
  induction 1 as [|b l Hb _ IH]; [reflexivity|].
  cbn [forallb flat_map]. intros H. apply andb_true_iff in H as [H1 H2].
  rewrite (EncodeRune_ascii b) by (unfold Go.is_byte in Hb; lia || exact H1).
  rewrite (IH H2). reflexivity.
Qed.

Lemma EncodeRune_length (r : Z) :
  (1 <= List.length (Utf8.EncodeRune r) <= 4)%nat.
Proof.
  unfold Utf8.EncodeRune.
  repeat match goal with
         | |- context [if ?c then _ else _] => destruct c
         end; simpl; lia.
Qed.

Lemma encode_length (rs : list Z) :
  (List.length (Utf8.encode rs) <= 4 * List.length rs)%nat.
Proof.
  unfold Utf8.encode. induction rs as [|r rs IH]; [simpl; lia|].
  cbn [flat_map List.length]. rewrite length_app.
  pose proof (EncodeRune_length r). lia.
Qed.

Lemma forallb_skipn {A : Type} (p : A -> bool) (k : nat) (l : list A) :
  forallb p l = true -> forallb p (skipn k l) = true.
Proof.
  revert l. induction k as [|k IH]; intros [|x l]; simpl; auto.
  intros H. apply andb_true_iff in H as [_ H]. auto.
Qed.

Lemma Forall_skipn {A : Type} (P : A -> Prop) (k : nat) (l : list A) :
  Forall P l -> Forall P (skipn k l).
Proof.
  revert l. induction k as [|k IH]; intros l H; [exact H|].
  destruct H; simpl; [constructor|auto].
Qed.

(** *** AccountNumber *)

Lemma AccountNumber_ascii_long (s : string) :
  ascii_only s = true -> (4 < String.length s)%nat ->
  SanitizeAccount.AccountNumber s
  = ("****" ++ substring (String.length s - 4) 4 s)%string.
Proof.
  intros Ha Hlen. unfold ascii_only in Ha.
  unfold SanitizeAccount.AccountNumber.
  destruct (String.eqb_spec s EmptyString) as [->|_]; [simpl in Hlen; lia|].
  rewrite RuneCount_runes, (runes_ascii _ Ha), length_bytes.
  destruct (Z.of_nat (String.length s) <=? 4) eqn:E;
    [apply Z.leb_le in E; lia|].
  f_equal.
  rewrite encode_ascii.
  - replace (Z.to_nat (Z.of_nat (String.length s) - 4))
      with (String.length s - 4)%nat by lia.
    rewrite skipn_bytes, of_bytes_bytes. f_equal. lia.
  - apply Forall_skipn, bytes_all_byte.
  - apply forallb_skipn, Ha.
Qed.

(** *** strings.Fields on ASCII input *)

Lemma fieldsASCII_space (a b : list Z) (cur : option (list Z)) :
  Fields.fieldsASCII (a ++ 32 :: b) cur
  = Fields.fieldsASCII a cur ++ Fields.fieldsASCII b None.
Proof.
  revert cur. induction a as [|x a IH]; intros cur.
  - destruct cur; reflexivity.
  - cbn [app Fields.fieldsASCII].
    destruct (Fields.asciiSpace x); destruct cur; rewrite IH; reflexivity.
Qed.

Lemma fieldsASCII_word (w : list Z) (cur : option (list Z)) :
  Forall (fun b => Fields.asciiSpace b = false) w ->
  Fields.fieldsASCII w cur
  = match cur with
    | Some f => [f ++ w]
    | None => match w with [] => [] | _ => [w] end
    end.
Proof.
  intros H. revert cur. induction H as [|b w Hb _ IH]; intros cur.
  - destruct cur; [rewrite app_nil_r|]; reflexivity.
  - cbn [Fields.fieldsASCII]. rewrite Hb.
    destruct cur; rewrite IH; [rewrite <- app_assoc|]; reflexivity.
Qed.

Lemma fieldsASCII_ok (s : list Z) (cur : option (list Z)) :
  Forall Go.is_byte s -> forallb (fun b => b <? 128) s = true ->
  match cur with Some f => word_ok f | None => True end ->
  Forall word_ok (Fields.fieldsASCII s cur).
Proof.
  intros Hs. revert cur. induction Hs as [|b s Hb _ IH]; intros cur Ha Hcur.
  - destruct cur; cbn [Fields.fieldsASCII];
      [constructor; [exact Hcur|constructor]|constructor].
  - cbn [forallb] in Ha. apply andb_true_iff in Ha as [Hb128 Ha].
    cbn [Fields.fieldsASCII].
    destruct (Fields.asciiSpace b) eqn:Hsp.
    + destruct cur; [constructor; [exact Hcur|]|]; apply IH; auto.
    + assert (Hgood : 0 <= b /\ (b <? 128) = true
                       /\ Fields.asciiSpace b = false)
        by (unfold Go.is_byte in Hb; repeat split; [lia|assumption..]).
      destruct cur as [f|]; apply IH; auto.
      * destruct Hcur as [Hne Hall]. split.
        -- destruct f; [congruence|discriminate].
        -- apply Forall_app. split; [exact Hall|repeat constructor; tauto].
      * split; [discriminate|repeat constructor; tauto].
Qed.

Lemma Fields_ascii (s : string) :
  ascii_only s = true ->
  Fields.Fields (Go.bytes s) = Fields.fieldsASCII (Go.bytes s) None.
Proof.
  unfold ascii_only, Fields.Fields, Utf8.RuneSelf. intros ->. reflexivity.
Qed.

(** *** AccountName *)

Lemma maskWord_ok (w : list Z) :
  word_ok w ->
  exists c : ascii,
    SanitizeAccount.maskWord w = String c "***"
    /\ Go.byte_of_ascii c = Go.index w 0.
Proof.
  intros [Hne Hall]. destruct w as [|b w]; [congruence|].
  inversion Hall as [|? ? [H0 [H128 Hsp]] _]; subst.
  exists (ascii_of_N (Z.to_N b)). split.
  - unfold SanitizeAccount.maskWord, Utf8.runes.
    cbn [List.length Utf8.runesLoop]. rewrite (Decode_ascii b w H128).
    rewrite (EncodeRune_ascii b H0 H128). reflexivity.
  - unfold Go.byte_of_ascii, Go.index. cbn [nth].
    apply Z.ltb_lt in H128.
    rewrite N_ascii_embedding by lia. lia.
Qed.

Lemma AccountName_ascii_eq (s : string) :
  ascii_only s = true ->
  SanitizeAccount.AccountName s
  = Strings.Join
      (map SanitizeAccount.maskWord (Fields.fieldsASCII (Go.bytes s) None))
      " ".
Proof.
  intros Ha. unfold SanitizeAccount.AccountName.
  destruct (String.eqb_spec s EmptyString) as [->|_]; [reflexivity|].
  rewrite (Fields_ascii s Ha).
  destruct (Fields.fieldsASCII (Go.bytes s) None); reflexivity.
Qed.

Lemma bytes_cons (c : ascii) (s : string) :
  Go.bytes (String c s) = Go.byte_of_ascii c :: Go.bytes s.
Proof. reflexivity. Qed.

Lemma maskWord_bytes (c : ascii) (rest : string) :
  (Go.byte_of_ascii c <? 128) = true ->
  SanitizeAccount.maskWord (Go.bytes (String c rest)) = String c "***".
Proof.
  intros Hc. rewrite bytes_cons.
  unfold SanitizeAccount.maskWord, Utf8.runes.
  cbn [List.length Utf8.runesLoop]. rewrite (Decode_ascii _ _ Hc).
  rewrite (EncodeRune_ascii _ (proj1 (is_byte_of_ascii c)) Hc).
  change [Go.byte_of_ascii c] with (Go.bytes (String c EmptyString)).
  rewrite of_bytes_bytes. reflexivity.
Qed.

Lemma space_not_free (c : ascii) :
  Fields.asciiSpace (Go.byte_of_ascii c) = false ->
  Ascii.eqb c " " = false.
Proof.
  intros H. destruct (Ascii.eqb_spec c " "%char) as [->|]; [|reflexivity].
  discriminate H.
Qed.

Lemma maskWord_masked (w : list Z) :
  word_ok w ->
  masked_initial (SanitizeAccount.maskWord w) = true
  /\ ascii_only (SanitizeAccount.maskWord w) = true.
Proof.
  intros Hw. destruct (maskWord_ok w Hw) as [c [-> Hc]].
  destruct Hw as [Hne Hall]. destruct w as [|b w]; [congruence|].
  inversion Hall as [|? ? [H0 [H128 Hsp]] _]; subst.
  unfold Go.index in Hc. cbn [nth] in Hc.
  unfold masked_initial, ascii_only. rewrite bytes_cons, Hc.
  cbn [forallb]. rewrite Hsp, H128. split; reflexivity.
Qed.

Lemma masked_initial_inv (m : string) :
  masked_initial m = true ->
  exists c, m = String c "***"
            /\ Fields.asciiSpace (Go.byte_of_ascii c) = false.
Proof.
  destruct m as [|c rest]; [discriminate|]. unfold masked_initial.
  intros H. apply andb_true_iff in H as [H1 H2].
  apply negb_true_iff in H1. apply String.eqb_eq in H2. subst rest.
  exists c. split; [reflexivity|exact H1].
Qed.

Lemma masked_free (m : string) :
  masked_initial m = true -> free_of " " m = true.
Proof.
  intros H. destruct (masked_initial_inv m H) as [c [-> Hc]].
  cbn [free_of]. rewrite (space_not_free c Hc). reflexivity.
Qed.

Lemma masked_words (ws : list (list Z)) :
  Forall word_ok ws ->
  Forall (fun m => masked_initial m = true /\ ascii_only m = true)
    (map SanitizeAccount.maskWord ws).
Proof.
  induction 1 as [|w ws Hw _ IH]; constructor;
    [apply maskWord_masked; exact Hw | exact IH].
Qed.

Lemma words_of (s : string) :
  ascii_only s = true ->
  Forall word_ok (Fields.fieldsASCII (Go.bytes s) None).
Proof.
  intros Ha. apply fieldsASCII_ok; [apply bytes_all_byte|exact Ha|exact I].
Qed.

Lemma Join_app (l1 l2 : list string) (sep : string) :
  l1 <> [] -> l2 <> [] ->
  Strings.Join (l1 ++ l2) sep
  = (Strings.Join l1 sep ++ sep ++ Strings.Join l2 sep)%string.
Proof.
  intros H1 H2. induction l1 as [|a l1 IH]; [congruence|].
  destruct l1 as [|b l1].
  - destruct l2 as [|c l2]; [congruence|]. reflexivity.
  - change (Strings.Join ((a :: b :: l1) ++ l2) sep)
      with (a ++ sep ++ Strings.Join ((b :: l1) ++ l2) sep)%string.
    rewrite IH by discriminate.
    change (Strings.Join (a :: b :: l1) sep)
      with (a ++ sep ++ Strings.Join (b :: l1) sep)%string.
    rewrite !append_assoc. reflexivity.
Qed.

Lemma Join_masked_empty (ms : list string) :
  Forall (fun m => masked_initial m = true /\ ascii_only m = true) ms ->
  String.eqb (Strings.Join ms " ") EmptyString
  = match ms with [] => true | _ => false end.
Proof.
  intros H. destruct H as [|m ms [Hm _] _]; [reflexivity|].
  destruct (masked_initial_inv m Hm) as [c [-> _]].
  destruct ms; reflexivity.
Qed.

Lemma ascii_only_app (a b : string) :
  ascii_only (a ++ b) = ascii_only a && ascii_only b.
Proof. unfold ascii_only. rewrite bytes_append. apply forallb_app. Qed.

Lemma AccountName_beside_ascii (a b : string) :
  ascii_only a = true -> ascii_only b = true ->
  SanitizeAccount.AccountName (a ++ " " ++ b)
  = beside (SanitizeAccount.AccountName a) (SanitizeAccount.AccountName b).
Proof.
  intros Ha Hb.
  assert (Hab : ascii_only (a ++ " " ++ b) = true).
  { rewrite !ascii_only_app, Ha, Hb. reflexivity. }
  rewrite !AccountName_ascii_eq by assumption.
  rewrite bytes_append. change (Go.bytes (" " ++ b)) with (32 :: Go.bytes b).
  rewrite fieldsASCII_space, map_app.
  pose proof (masked_words _ (words_of a Ha)) as Ma.
  pose proof (masked_words _ (words_of b Hb)) as Mb.
  unfold beside. rewrite (Join_masked_empty _ Ma), (Join_masked_empty _ Mb).
  destruct (map SanitizeAccount.maskWord
              (Fields.fieldsASCII (Go.bytes a) None)) as [|x xs] eqn:Ea.
  - reflexivity.
  - destruct (map SanitizeAccount.maskWord
                (Fields.fieldsASCII (Go.bytes b) None)) as [|y ys] eqn:Eb.
    + rewrite app_nil_r. reflexivity.
    + apply Join_app; discriminate.
Qed.

Lemma AccountName_word_ascii (c : ascii) (w : string) :
  ascii_only (String c w) = true -> no_space (String c w) = true ->
  SanitizeAccount.AccountName (String c w) = String c "***".
Proof.
  intros Ha Hn. rewrite AccountName_ascii_eq by exact Ha.
  rewrite fieldsASCII_word.
  - rewrite bytes_cons at 1. cbn [map Strings.Join].
    apply maskWord_bytes. unfold ascii_only in Ha. rewrite bytes_cons in Ha.
    cbn [forallb] in Ha. apply andb_true_iff in Ha. tauto.
  - unfold no_space in Hn. apply Forall_forall. intros x Hx.
    rewrite forallb_forall in Hn. apply negb_true_iff, Hn, Hx.
Qed.

Lemma AccountName_segments_ascii (s : string) :
  ascii_only s = true ->
  SanitizeAccount.AccountName s <> EmptyString ->
  forallb masked_initial (Strings.Split (SanitizeAccount.AccountName s) " ")
  = true.
Proof.
  intros Ha. rewrite AccountName_ascii_eq by exact Ha.
  pose proof (masked_words _ (words_of s Ha)) as M.
  destruct (map SanitizeAccount.maskWord
              (Fields.fieldsASCII (Go.bytes s) None)) as [|x xs] eqn:E.
  - intros H. exfalso. apply H. reflexivity.
  - intros _. rewrite Split_Join.
    + apply forallb_forall. intros m Hm.
      rewrite Forall_forall in M. apply M, Hm.
    + discriminate.
    + apply Forall_forall. intros m Hm. apply masked_free.
      rewrite Forall_forall in M. apply M, Hm.
Qed.

Lemma ascii_only_Join (ms : list string) :
  Forall (fun m => masked_initial m = true /\ ascii_only m = true) ms ->
  ascii_only (Strings.Join ms " ") = true.
Proof.
  induction 1 as [|m ms [_ Hm] Hms IH]; [reflexivity|].
  destruct ms as [|m' ms]; [exact Hm|].
  change (Strings.Join (m :: m' :: ms) " ")
    with (m ++ " " ++ Strings.Join (m' :: ms) " ")%string.
  rewrite !ascii_only_app, Hm, IH. reflexivity.
Qed.

Lemma fields_masked (ms : list string) :
  Forall (fun m => masked_initial m = true /\ ascii_only m = true) ms ->
  map SanitizeAccount.maskWord
    (Fields.fieldsASCII (Go.bytes (Strings.Join ms " ")) None) = ms.
Proof.
  induction 1 as [|m ms [Hm Hma] Hms IH]; [reflexivity|].
  destruct (masked_initial_inv m Hm) as [c [-> Hc]].
  assert (Hw : Fields.fieldsASCII (Go.bytes (String c "***")) None
               = [Go.bytes (String c "***")]).
  { rewrite fieldsASCII_word; [reflexivity|].
    rewrite bytes_cons. constructor; [exact Hc|].
    repeat constructor. }
  assert (Hmask : SanitizeAccount.maskWord (Go.bytes (String c "***"))
                  = String c "***").
  { apply maskWord_bytes. unfold ascii_only in Hma.
    rewrite bytes_cons in Hma. cbn [forallb] in Hma.
    apply andb_true_iff in Hma. tauto. }
  destruct ms as [|m' ms].
  - cbn [Strings.Join]. rewrite Hw. cbn [map]. rewrite Hmask. reflexivity.
  - change (Strings.Join (String c "***" :: m' :: ms) " ")
      with (String c "***" ++ " " ++ Strings.Join (m' :: ms) " ")%string.
    rewrite bytes_append.
    change (Go.bytes (" " ++ Strings.Join (m' :: ms) " "))
      with (32 :: Go.bytes (Strings.Join (m' :: ms) " ")).
    rewrite fieldsASCII_space, map_app, IH, Hw. cbn [map].
    rewrite Hmask. reflexivity.
Qed.

Lemma AccountName_idempotent_ascii (s : string) :
  ascii_only s = true ->
  SanitizeAccount.AccountName (SanitizeAccount.AccountName s)
  = SanitizeAccount.AccountName s.
Proof.
  intros Ha. rewrite (AccountName_ascii_eq s Ha).
  pose proof (masked_words _ (words_of s Ha)) as M.
  rewrite AccountName_ascii_eq by (apply ascii_only_Join; exact M).
  rewrite fields_masked by exact M. reflexivity.
Qed.

(** *** AccountNumber: what is shown and what is not *)

Lemma AccountNumber_short (s : string) :
  s <> EmptyString -> (String.length s <= 4)%nat ->
  SanitizeAccount.AccountNumber s = "****".
Proof.
  intros Hne Hlen. unfold SanitizeAccount.AccountNumber.
  destruct (String.eqb_spec s EmptyString) as [->|_]; [congruence|].
  rewrite RuneCount_runes.
  pose proof (runes_count_le (Go.bytes s)) as Hc.
  rewrite length_bytes in Hc.
  destruct (Z.of_nat (List.length (Utf8.runes (Go.bytes s))) <=? 4) eqn:E;
    [reflexivity|]. apply Z.leb_gt in E. lia.
Qed.

Lemma substring_length (n m : nat) (s : string) :
  (n + m <= String.length s)%nat -> String.length (substring n m s) = m.
Proof.
  revert n m. induction s as [|a s IH]; intros [|n] [|m] H; simpl in *;
    try reflexivity; try lia.
  - rewrite (IH 0%nat m) by lia. reflexivity.
  - apply IH. lia.
  - apply IH. lia.
Qed.

Lemma ascii_only_substring (n m : nat) (s : string) :
  ascii_only s = true -> ascii_only (substring n m s) = true.
Proof.
  unfold ascii_only.
  revert n m. induction s as [|a s IH]; intros [|n] [|m] H;
    try reflexivity.
  - rewrite bytes_cons in H. cbn [forallb] in H.
    apply andb_true_iff in H as [Ha Hs].
    cbn [substring]. rewrite bytes_cons. cbn [forallb].
    rewrite Ha. exact (IH 0%nat m Hs).
  - rewrite bytes_cons in H. cbn [forallb] in H.
    apply andb_true_iff in H as [_ Hs]. exact (IH n 0%nat Hs).
  - rewrite bytes_cons in H. cbn [forallb] in H.
    apply andb_true_iff in H as [_ Hs]. exact (IH n (Datatypes.S m) Hs).
Qed.

(** X16.  [AccountNumber] on any string, valid UTF-8 or not: the result is
    empty exactly for the empty input; otherwise it begins with four stars
    and is at most twenty bytes long, and an input of at most four bytes gives
    the four stars alone. *)
Theorem AccountNumber_shape (s : string) :
  (SanitizeAccount.AccountNumber s = EmptyString <-> s = EmptyString)
  /\ (s <> EmptyString ->
      substring 0 4 (SanitizeAccount.AccountNumber s) = "****")
  /\ (String.length (SanitizeAccount.AccountNumber s) <= 20)%nat
  /\ (s <> EmptyString -> (String.length s <= 4)%nat ->
      SanitizeAccount.AccountNumber s = "****").
Proof.
  rewrite <- !and_assoc. split; [|exact (AccountNumber_short s)].
  rewrite !and_assoc.
  unfold SanitizeAccount.AccountNumber.
  destruct (String.eqb_spec s EmptyString) as [->|Hne].
  - repeat split; simpl; try lia; congruence.
  - destruct (Utf8.RuneCountInString (Go.bytes s) <=? 4) eqn:E.
    + repeat split; simpl; try lia; try congruence; discriminate.
    + apply Z.leb_gt in E. rewrite RuneCount_runes in *.
      split; [split; [cbn [append]; discriminate|congruence]|].
      split; [intros _; exact (substring_prefix "****" _)|].
      cbn [append String.length]. rewrite of_bytes_length.
      pose proof (encode_length
        (skipn (Z.to_nat (Z.of_nat (List.length (Utf8.runes (Go.bytes s))) - 4))
           (Utf8.runes (Go.bytes s)))) as Hl.
      rewrite length_skipn in Hl. lia.
Qed.

(** X17.  For an ASCII account number of more than four characters
    [AccountNumber] returns four stars followed by exactly the last four
    characters of the input. *)
Theorem AccountNumber_last_four (s : string) :
  ascii_only s = true -> (4 < String.length s)%nat ->
  SanitizeAccount.AccountNumber s
  = ("****" ++ substring (String.length s - 4) 4 s)%string.
Proof. apply AccountNumber_ascii_long. Qed.

Lemma AccountNumber_last_four_witness :
  ascii_only "1234567890" = true /\ (4 < String.length "1234567890")%nat
  /\ SanitizeAccount.AccountNumber "1234567890" = "****7890".
Proof.
  split; [reflexivity|]. split; [simpl; lia|].
  apply (AccountNumber_last_four "1234567890"); [reflexivity|simpl; lia].
Defined.

(** X18.  Masking an ASCII account number twice is the same as masking it
    once. *)
Theorem AccountNumber_idempotent (s : string) :
  ascii_only s = true ->
  SanitizeAccount.AccountNumber (SanitizeAccount.AccountNumber s)
  = SanitizeAccount.AccountNumber s.
Proof.
  intros Ha.
  destruct (String.eqb_spec s EmptyString) as [->|Hne]; [reflexivity|].
  destruct (Nat.le_gt_cases (String.length s) 4) as [Hle|Hgt].
  - rewrite (AccountNumber_short s Hne Hle). reflexivity.
  - rewrite (AccountNumber_ascii_long s Ha Hgt).
    set (t := substring (String.length s - 4) 4 s).
    assert (Ht : String.length t = 4%nat)
      by (apply substring_length; lia).
    assert (Hta : ascii_only t = true)
      by (apply ascii_only_substring; exact Ha).
    rewrite AccountNumber_ascii_long.
    + f_equal. rewrite length_append, Ht.
      change (String.length "****" + 4 - 4)%nat with (String.length "****").
      rewrite substring_skip. rewrite <- Ht. apply substring_all.
    + rewrite ascii_only_app, Hta. reflexivity.
    + rewrite length_append, Ht. simpl. lia.
Qed.

Lemma AccountNumber_idempotent_witness :
  ascii_only "1234567890" = true
  /\ SanitizeAccount.AccountNumber (SanitizeAccount.AccountNumber "1234567890")
     = SanitizeAccount.AccountNumber "1234567890".
Proof.
  split; [reflexivity|].
  apply (AccountNumber_idempotent "1234567890"). reflexivity.
Defined.

(** *** AccountName: initials only *)

(** X19.  For an ASCII account name whose masked form is not empty, every
    piece of the result between single spaces is one character that is no
    white space followed by three stars. *)
Theorem AccountName_segments (s : string) :
  ascii_only s = true ->
  SanitizeAccount.AccountName s <> EmptyString ->
  forallb masked_initial (Strings.Split (SanitizeAccount.AccountName s) " ")
  = true.
Proof. apply AccountName_segments_ascii. Qed.

Lemma AccountName_segments_witness :
  ascii_only "John  van Doe" = true
  /\ SanitizeAccount.AccountName "John  van Doe" <> EmptyString
  /\ forallb masked_initial
       (Strings.Split (SanitizeAccount.AccountName "John  van Doe") " ")
     = true.
Proof.
  split; [reflexivity|]. split; [vm_compute; discriminate|].
  apply (AccountName_segments "John  van Doe");
    [reflexivity | vm_compute; discriminate].
Defined.

(** X20.  An ASCII word without white space is masked to its first
    character followed by three stars. *)
Theorem AccountName_word (c : ascii) (w : string) :
  ascii_only (String c w) = true -> no_space (String c w) = true ->
  SanitizeAccount.AccountName (String c w) = String c "***".
Proof. apply AccountName_word_ascii. Qed.

Lemma AccountName_word_witness :
  ascii_only "Alice" = true /\ no_space "Alice" = true
  /\ SanitizeAccount.AccountName "Alice" = "A***".
Proof.
  split; [reflexivity|]. split; [reflexivity|].
  apply (AccountName_word "A" "lice"); reflexivity.
Defined.

(** X21.  Masking two ASCII names joined by a space gives the two masked
    names, with one space between them when neither is empty. *)
Theorem AccountName_beside (a b : string) :
  ascii_only a = true -> ascii_only b = true ->
  SanitizeAccount.AccountName (a ++ " " ++ b)
  = beside (SanitizeAccount.AccountName a) (SanitizeAccount.AccountName b).
Proof. apply AccountName_beside_ascii. Qed.

Lemma AccountName_beside_witness :
  ascii_only "John " = true /\ ascii_only " Doe" = true
  /\ SanitizeAccount.AccountName ("John " ++ " " ++ " Doe") = "J*** D***".
Proof.
  split; [reflexivity|]. split; [reflexivity|].
  apply (AccountName_beside "John " " Doe"); reflexivity.
Defined.

(** X22.  Masking an ASCII account name twice is the same as masking it
    once. *)
Theorem AccountName_idempotent (s : string) :
  ascii_only s = true ->
  SanitizeAccount.AccountName (SanitizeAccount.AccountName s)
  = SanitizeAccount.AccountName s.
Proof. apply AccountName_idempotent_ascii. Qed.

Lemma AccountName_idempotent_witness :
  ascii_only "John Doe" = true
  /\ SanitizeAccount.AccountName (SanitizeAccount.AccountName "John Doe")
     = SanitizeAccount.AccountName "John Doe".
Proof.
  split; [reflexivity|].
  apply (AccountName_idempotent "John Doe"). reflexivity.
Defined.

(** ** client: helpers.go *)

(** *** The verb %d *)

Lemma fmtDigits_app (fuel : nat) (u : Z) (buf : string) :
  Fmt.fmtDigits fuel u buf
  = (Fmt.fmtDigits fuel u EmptyString ++ buf)%string.
Proof.
  revert u buf. induction fuel as [|fuel IH]; intros u buf;
    cbn [Fmt.fmtDigits]; [reflexivity|].
  destruct (10 <=? u); [|reflexivity].
  rewrite (IH _ (String _ buf)), (IH _ (String _ EmptyString)).
  rewrite append_assoc. reflexivity.
Qed.

Lemma digit_byte (d : Z) :
  0 <= d < 10 -> Go.byte_of_ascii (Fmt.digit d) = 48 + d.
Proof.
  intros H. unfold Go.byte_of_ascii, Fmt.digit.
  rewrite N_ascii_embedding by lia. lia.
Qed.

Lemma dec_digit (acc d : Z) (rest : string) :
  0 <= d < 10 ->
  dec acc (String (Fmt.digit d) rest) = dec (acc * 10 + d) rest.
Proof.
  intros H. cbn [dec]. rewrite (digit_byte d H).
  replace ((48 <=? 48 + d) && (48 + d <=? 57)) with true.
  - f_equal. lia.
  - symmetry. apply andb_true_iff. split; apply Z.leb_le; lia.
Qed.

Lemma fmtDigits_dec (fuel : nat) (u : Z) (buf : string) :
  0 <= u < 10 ^ (Z.of_nat fuel + 1) ->
  dec 0 (Fmt.fmtDigits fuel u buf) = dec u buf.
Proof.
  revert u buf. induction fuel as [|fuel IH]; intros u buf Hu.
  - cbn [Fmt.fmtDigits]. change (10 ^ (Z.of_nat 0 + 1)) with 10 in Hu.
    rewrite dec_digit by lia. f_equal.
  - cbn [Fmt.fmtDigits].
    destruct (10 <=? u) eqn:E.
    + apply Z.leb_le in E.
      replace (Z.of_nat (Datatypes.S fuel) + 1)
        with (Z.succ (Z.of_nat fuel + 1)) in Hu by lia.
      rewrite Z.pow_succ_r in Hu by lia.
      pose proof (Z.div_mod u 10 ltac:(lia)) as Hdm.
      pose proof (Z.mod_pos_bound u 10 ltac:(lia)) as Hm.
      rewrite IH.
      * rewrite dec_digit by lia. f_equal. lia.
      * split; [apply Z.div_pos; lia|].
        apply Z.div_lt_upper_bound; lia.
    + apply Z.leb_gt in E. rewrite dec_digit by lia. f_equal.
Qed.

Lemma dec_free (c : ascii) (s : string) (acc v : Z) :
  (48 <=? Go.byte_of_ascii c) && (Go.byte_of_ascii c <=? 57) = false ->
  dec acc s = Some v -> free_of c s = true.
Proof.
  intros Hc. revert acc. induction s as [|a s IH]; intros acc H;
    [reflexivity|].
  cbn [dec] in H. cbn [free_of].
  destruct ((48 <=? Go.byte_of_ascii a) && (Go.byte_of_ascii a <=? 57))
    eqn:Ea; [|discriminate].
  rewrite (IH _ H), andb_true_r. apply negb_true_iff.
  destruct (Ascii.eqb_spec a c) as [->|]; [congruence|reflexivity].
Qed.

Lemma zeros_none (k : Z) (buf : string) :
  k <= 0 -> Fmt.zeros (Z.to_nat k) buf = buf.
Proof. intros H. replace (Z.to_nat k) with 0%nat by lia. reflexivity. Qed.

Lemma int64_abs (a : Z) : int64 a -> 0 <= Z.abs a < 10 ^ (Z.of_nat 19 + 1).
Proof.
  unfold int64. intros H. change (10 ^ (Z.of_nat 19 + 1))
    with 100000000000000000000.
  change (2 ^ 63) with 9223372036854775808 in H. lia.
Qed.

(** [%d] of an [int64]: the decimal digits of the absolute value, after a
    minus sign for a negative value. *)
Lemma Sprintf_d_spec (a : Z) :
  int64 a ->
  exists ds : string,
    dec 0 ds = Some (Z.abs a)
    /\ Fmt.Sprintf_d a = if a <? 0 then String "-" ds else ds.
Proof.
  intros Ha. pose proof (int64_abs a Ha) as Hb.
  exists (Fmt.fmtDigits 19 (Z.abs a) EmptyString). split.
  - rewrite fmtDigits_dec by exact Hb. reflexivity.
  - unfold Fmt.Sprintf_d, Fmt.fmtInteger.
    change ((0 <? 0) && (a <? 0)) with false. cbv beta iota zeta.
    rewrite zeros_none by (unfold Strings.len; lia).
    destruct (a <? 0) eqn:E.
    + apply Z.ltb_lt in E. rewrite Z.abs_neq by lia. reflexivity.
    + apply Z.ltb_ge in E. rewrite Z.abs_eq by lia. reflexivity.
Qed.

Lemma Sprintf_d_no_dot (a : Z) :
  int64 a -> free_of "." (Fmt.Sprintf_d a) = true.
Proof.
  intros Ha. destruct (Sprintf_d_spec a Ha) as [ds [Hd ->]].
  pose proof (dec_free "." ds 0 _ eq_refl Hd) as Hf.
  destruct (a <? 0); [cbn [free_of]; rewrite Hf; reflexivity | exact Hf].
Qed.

(** *** Grouping in threes *)

Lemma Join_unfold (t : string) (ts : list string) (sep : string) :
  Strings.Join (t :: ts) sep
  = match ts with
    | [] => t
    | _ => (t ++ sep ++ Strings.Join ts sep)%string
    end.
Proof. destruct ts; reflexivity. Qed.

Lemma len_append (a b : string) :
  Strings.len (a ++ b) = Strings.len a + Strings.len b.
Proof. unfold Strings.len. rewrite length_append. lia. Qed.

Lemma len_nat (t : string) (k : nat) :
  String.length t = k -> Strings.len t = Z.of_nat k.
Proof. unfold Strings.len. intros ->. reflexivity. Qed.

Lemma groupLoop_chunks (ts : list string) :
  Forall (fun t => String.length t = 3%nat) ts ->
  forall (str pre res : string) (r : Z) (fuel : nat),
    str = (pre ++ flatten ts)%string ->
    (List.length ts <= fuel)%nat ->
    r <= Strings.len pre ->
    Helpers.groupLoop fuel str r (Strings.len str) (Strings.len pre) res
    = (res ++ match ts with
              | [] => EmptyString
              | _ => (if (r <? Strings.len pre)%Z then "." else EmptyString)
                     ++ Strings.Join ts "."
              end)%string.
Proof.
  induction 1 as [|t ts Ht Hts IH]; intros str pre res r fuel Hstr Hfuel Hr.
  - cbn [flatten fold_right] in Hstr. rewrite append_nil_r in *. subst str.
    destruct fuel; cbn [Helpers.groupLoop]; [reflexivity|].
    rewrite Z.ltb_irrefl. reflexivity.
  - destruct fuel as [|fuel]; [cbn [List.length] in Hfuel; lia|].
    cbn [flatten fold_right] in Hstr. fold (flatten ts) in Hstr.
    pose proof (len_nat t 3 Ht) as Ht3. change (Z.of_nat 3) with 3 in Ht3.
    assert (Hlen : Strings.len str
                   = Strings.len pre + 3 + Strings.len (flatten ts)).
    { subst str. rewrite !len_append, Ht3. lia. }
    assert (Hlt : (Strings.len pre <? Strings.len str) = true).
    { apply Z.ltb_lt. unfold Strings.len in *. lia. }
    cbn [Helpers.groupLoop]. rewrite Hlt.
    assert (Hslice : Strings.slice str (Strings.len pre) (Strings.len pre + 3)
                     = t).
    { subst str. rewrite <- Ht3. apply slice_middle. }
    rewrite Hslice.
    assert (Hpre : Strings.len pre + 3 = Strings.len (pre ++ t))
      by (rewrite len_append, Ht3; reflexivity).
    rewrite Hpre.
    rewrite (IH str (pre ++ t)%string).
    + rewrite Join_unfold.
      assert (Hdot : (r <? Strings.len (pre ++ t)) = true)
        by (apply Z.ltb_lt; lia).
      rewrite Hdot.
      destruct ts as [|t' ts];
        destruct (r <? Strings.len pre);
        rewrite ?append_nil_r, ?append_assoc; reflexivity.
    + rewrite append_assoc. exact Hstr.
    + cbn [List.length] in Hfuel. lia.
    + lia.
Qed.

Lemma triples_exist (k : nat) (s : string) :
  String.length s = (3 * k)%nat ->
  exists ts : list string,
    s = flatten ts
    /\ Forall (fun t => String.length t = 3%nat) ts
    /\ List.length ts = k.
Proof.
  revert s. induction k as [|k IH]; intros s Hs.
  - destruct s; [|simpl in Hs; lia]. exists []. repeat split. constructor.
  - destruct s as [|a [|b [|c s]]]; try (simpl in Hs; lia).
    destruct (IH s) as [ts [-> [Hall Hlen]]]; [simpl in Hs; lia|].
    exists (String a (String b (String c EmptyString)) :: ts).
    repeat split; [constructor; [reflexivity|exact Hall] | simpl; lia].
Qed.

Lemma substring_split (r : nat) (s : string) :
  (r <= String.length s)%nat ->
  s = (substring 0 r s ++ substring r (String.length s - r) s)%string.
Proof.
  revert r. induction s as [|a s IH]; intros [|r] H; simpl in *;
    try reflexivity; try lia.
  - rewrite substring_all. reflexivity.
  - f_equal. apply IH. lia.
Qed.

Lemma fmtDigits_nonempty (fuel : nat) (u : Z) (buf : string) :
  (1 <= String.length (Fmt.fmtDigits fuel u buf))%nat.
Proof.
  revert u buf. induction fuel as [|fuel IH]; intros u buf;
    cbn [Fmt.fmtDigits]; [simpl; lia|].
  destruct (10 <=? u); [apply IH | simpl; lia].
Qed.

Lemma Sprintf_d_nonempty (a : Z) :
  (1 <= String.length (Fmt.Sprintf_d a))%nat.
Proof.
  unfold Fmt.Sprintf_d, Fmt.fmtInteger.
  change ((0 <? 0) && (a <? 0)) with false. cbv beta iota zeta.
  rewrite zeros_none by (unfold Strings.len; lia).
  destruct (a <? 0); [simpl; lia | apply fmtDigits_nonempty].
Qed.

(** What [FormatAmountIDR] does to the text [str] of the amount. *)
Lemma FormatAmountIDR_chunks (a : Z) :
  exists chunks : list string,
    Helpers.FormatAmountIDR a = ("Rp " ++ Strings.Join chunks ".")%string
    /\ flatten chunks = Fmt.Sprintf_d a
    /\ grouped chunks = true.
Proof.
  unfold Helpers.FormatAmountIDR.
  pose proof (Sprintf_d_nonempty a) as Hne.
  set (str := Fmt.Sprintf_d a) in *.
  destruct (Strings.len str <=? 3) eqn:E3.
  - apply Z.leb_le in E3. unfold Strings.len in E3.
    exists [str]. cbn [Strings.Join flatten fold_right grouped forallb].
    rewrite append_nil_r. repeat split.
    rewrite andb_true_r. apply andb_true_iff.
    split; apply Nat.leb_le; lia.
  - apply Z.leb_gt in E3. cbv zeta.
    assert (Hrem : Z.rem (Strings.len str) 3 = Strings.len str mod 3)
      by (apply Z.rem_mod_nonneg; unfold Strings.len; lia).
    rewrite Hrem.
    pose proof (Z.mod_pos_bound (Strings.len str) 3 ltac:(lia)) as Hr.
    pose proof (Z.div_mod (Strings.len str) 3 ltac:(lia)) as Hdm.
    set (r := Strings.len str mod 3) in *.
    set (q := Strings.len str / 3) in *.
    assert (Hq : 1 <= q) by lia.
    assert (Hsplit := substring_split (Z.to_nat r) str
                        ltac:(unfold Strings.len in *; lia)).
    set (head := substring 0 (Z.to_nat r) str) in *.
    set (rest := substring (Z.to_nat r) (String.length str - Z.to_nat r) str)
      in *.
    assert (Hhead : String.length head = Z.to_nat r).
    { apply substring_length. unfold Strings.len in *. lia. }
    assert (Hrest : String.length rest = (3 * Z.to_nat q)%nat).
    { apply (f_equal String.length) in Hsplit.
      rewrite length_append, Hhead in Hsplit.
      unfold Strings.len in *. lia. }
    destruct (triples_exist _ _ Hrest) as [ts [Hts [Hall Hlen]]].
    assert (Hloop := groupLoop_chunks ts Hall str head).
    assert (Hlenhead : Strings.len head = r)
      by (unfold Strings.len; rewrite Hhead; lia).
    rewrite Hlenhead in Hloop.
    assert (Hfuel : (List.length ts <= String.length str)%nat)
      by (unfold Strings.len in *; lia).
    assert (Hstr : str = (head ++ flatten ts)%string)
      by (rewrite <- Hts; exact Hsplit).
    destruct ts as [|t ts]; [cbn [List.length] in Hlen; lia|].
    destruct (0 <? r) eqn:Er.
    + apply Z.ltb_lt in Er.
      replace (3 <? Strings.len str) with true
        by (symmetry; apply Z.ltb_lt; lia).
      rewrite Hloop by (assumption || lia).
      rewrite Z.ltb_irrefl.
      exists (head :: t :: ts). split; [|split].
      * unfold Strings.slice. rewrite Z.sub_0_r.
        change (Z.to_nat 0) with 0%nat. fold head.
        rewrite (Join_unfold head). rewrite !append_assoc. reflexivity.
      * exact (eq_sym Hstr).
      * cbn [grouped]. rewrite Hhead.
        apply andb_true_iff. split;
          [apply andb_true_iff; split; apply Nat.leb_le; lia|].
        apply forallb_forall. intros g Hg.
        rewrite Forall_forall in Hall. apply Nat.eqb_eq, Hall, Hg.
    + apply Z.ltb_ge in Er. assert (r = 0) by lia.
      rewrite Hloop by (assumption || lia).
      rewrite Z.ltb_irrefl.
      exists (t :: ts). split; [|split].
      * reflexivity.
      * destruct head; [exact (eq_sym Hstr)|simpl in Hhead; lia].
      * cbn [grouped]. inversion Hall as [|? ? Ht Hts']; subst.
        rewrite Ht. apply forallb_forall. intros g Hg.
        rewrite Forall_forall in Hts'. apply Nat.eqb_eq, Hts', Hg.
Qed.

Lemma free_of_flatten (c : ascii) (l : list string) :
  free_of c (flatten l) = true -> Forall (fun p => free_of c p = true) l.
Proof.
  induction l as [|x l IH]; intros H; [constructor|].
  cbn [flatten fold_right] in H. rewrite free_of_app in H.
  apply andb_true_iff in H as [Hx Hl]. constructor; [exact Hx|exact (IH Hl)].
Qed.

Lemma ReplaceAll_app (a b : string) (old : ascii) (new : string) :
  Helpers.ReplaceAll (a ++ b) old new
  = (Helpers.ReplaceAll a old new ++ Helpers.ReplaceAll b old new)%string.
Proof.
  induction a as [|x a IH]; [reflexivity|]. cbn [append Helpers.ReplaceAll].
  rewrite IH. destruct (Ascii.eqb x old); [rewrite append_assoc|];
    reflexivity.
Qed.

Lemma ReplaceAll_free (s : string) (old : ascii) (new : string) :
  free_of old s = true -> Helpers.ReplaceAll s old new = s.
Proof.
  induction s as [|x s IH]; [reflexivity|]. cbn [free_of Helpers.ReplaceAll].
  intros H. apply andb_true_iff in H as [Hx Hs].
  apply negb_true_iff in Hx. rewrite Hx, (IH Hs). reflexivity.
Qed.

Lemma undot_Join (l : list string) :
  Forall (fun p => free_of "." p = true) l ->
  undot (Strings.Join l ".") = flatten l.
Proof.
  unfold undot. induction 1 as [|x l Hx Hl IH]; [reflexivity|].
  rewrite Join_unfold. cbn [flatten fold_right]. fold (flatten l).
  destruct l as [|y l].
  - cbn [flatten fold_right]. rewrite append_nil_r.
    apply ReplaceAll_free, Hx.
  - rewrite !ReplaceAll_app, IH, (ReplaceAll_free x _ _ Hx). reflexivity.
Qed.

Lemma grouped_not_nil (l : list string) : grouped l = true -> l <> [].
Proof. destruct l; [discriminate|discriminate]. Qed.

Lemma figures_Rp (x : string) : figures ("Rp " ++ x) = x.
Proof. exact (slice_from_suffix "Rp " x). Qed.

Lemma FormatAmountIDR_figures (a : Z) :
  int64 a ->
  substring 0 3 (Helpers.FormatAmountIDR a) = "Rp "
  /\ undot (figures (Helpers.FormatAmountIDR a)) = Fmt.Sprintf_d a
  /\ grouped (Strings.Split (figures (Helpers.FormatAmountIDR a)) ".") = true.
Proof.
  intros Ha. destruct (FormatAmountIDR_chunks a) as [chunks [-> [Hflat Hg]]].
  assert (Hfree : Forall (fun p => free_of "." p = true) chunks).
  { apply free_of_flatten. rewrite Hflat. apply Sprintf_d_no_dot, Ha. }
  rewrite figures_Rp. split; [exact (substring_prefix "Rp " _)|]. split.
  - rewrite undot_Join by exact Hfree. exact Hflat.
  - rewrite (Split_Join chunks "." (grouped_not_nil _ Hg) Hfree). exact Hg.
Qed.

(** X23.  For every [int64] amount the result of [FormatAmountIDR] is
    ["Rp "] followed by the characters of the decimal form of the amount, in
    their order, with dots between groups: a first group of one to three
    characters, every later group of exactly three. *)
Theorem FormatAmountIDR_groups (a : Z) :
  int64 a ->
  substring 0 3 (Helpers.FormatAmountIDR a) = "Rp "
  /\ undot (figures (Helpers.FormatAmountIDR a)) = Fmt.Sprintf_d a
  /\ grouped (Strings.Split (figures (Helpers.FormatAmountIDR a)) ".") = true.
Proof. apply FormatAmountIDR_figures. Qed.

Lemma FormatAmountIDR_groups_witness :
  int64 1234567
  /\ Helpers.FormatAmountIDR 1234567 = "Rp 1.234.567"
  /\ (substring 0 3 (Helpers.FormatAmountIDR 1234567) = "Rp "
      /\ undot (figures (Helpers.FormatAmountIDR 1234567))
         = Fmt.Sprintf_d 1234567
      /\ grouped (Strings.Split (figures (Helpers.FormatAmountIDR 1234567)) ".")
         = true).
Proof.
  split; [unfold int64; lia|]. split; [reflexivity|].
  apply (FormatAmountIDR_groups 1234567). unfold int64. lia.
Defined.

(** X24.  For an amount that is not negative, the digits of the result of
    [FormatAmountIDR], read without the dots, are the decimal digits of the
    amount. *)
Theorem FormatAmountIDR_value (a : Z) :
  0 <= a < 2 ^ 63 ->
  dec 0 (undot (figures (Helpers.FormatAmountIDR a))) = Some a.
Proof.
  intros Ha. assert (Hi : int64 a) by (unfold int64; lia).
  destruct (FormatAmountIDR_figures a Hi) as [_ [-> _]].
  destruct (Sprintf_d_spec a Hi) as [ds [Hd ->]].
  replace (a <? 0) with false by (symmetry; apply Z.ltb_ge; lia).
  rewrite Hd. f_equal. lia.
Qed.

Lemma FormatAmountIDR_value_witness :
  0 <= 50000 < 2 ^ 63
  /\ dec 0 (undot (figures (Helpers.FormatAmountIDR 50000))) = Some 50000.
Proof.
  split; [lia|]. apply (FormatAmountIDR_value 50000). lia.
Defined.

Lemma fmtDigits_hundreds (u : Z) :
  100 <= u < 1000 ->
  Fmt.fmtDigits 19 u EmptyString
  = String (Fmt.digit (u / 10 / 10))
      (String (Fmt.digit (u / 10 - u / 10 / 10 * 10))
         (String (Fmt.digit (u - u / 10 * 10)) EmptyString)).
Proof.
  intros Hu.
  assert (H1 : 10 <= u / 10 < 100).
  { split; [apply Z.div_le_lower_bound; lia
           |apply Z.div_lt_upper_bound; lia]. }
  assert (H2 : 1 <= u / 10 / 10 < 10).
  { split; [apply Z.div_le_lower_bound; lia
           |apply Z.div_lt_upper_bound; lia]. }
  change 19%nat with (Datatypes.S (Datatypes.S (Datatypes.S 16))).
  cbn [Fmt.fmtDigits].
  replace (10 <=? u) with true by (symmetry; apply Z.leb_le; lia).
  replace (10 <=? u / 10) with true by (symmetry; apply Z.leb_le; lia).
  replace (10 <=? u / 10 / 10) with false by (symmetry; apply Z.leb_gt; lia).
  reflexivity.
Qed.

(** X25.  An amount from -999 to -100 is formatted with a dot directly
    after the minus sign: ["Rp -."] followed by the three digits. *)
Theorem FormatAmountIDR_negative_hundreds (a : Z) :
  -1000 < a <= -100 ->
  Helpers.FormatAmountIDR a = ("Rp -." ++ Fmt.Sprintf_d (- a))%string.
Proof.
  intros Ha. unfold Helpers.FormatAmountIDR, Fmt.Sprintf_d, Fmt.fmtInteger.
  change ((0 <? 0) && (a <? 0)) with false.
  change ((0 <? 0) && (- a <? 0)) with false. cbv beta iota zeta.
  rewrite !zeros_none by (unfold Strings.len; lia).
  replace (a <? 0) with true by (symmetry; apply Z.ltb_lt; lia).
  replace (- a <? 0) with false by (symmetry; apply Z.ltb_ge; lia).
  rewrite (fmtDigits_hundreds (- a)) by lia.
  reflexivity.
Qed.

Lemma FormatAmountIDR_negative_hundreds_witness :
  -1000 < -100 <= -100 /\ Helpers.FormatAmountIDR (-100) = "Rp -.100".
Proof.
  split; [lia|]. apply (FormatAmountIDR_negative_hundreds (-100)). lia.
Defined.

(** *** Transaction identifiers *)

Lemma zeros_length (k : nat) (buf : string) :
  String.length (Fmt.zeros k buf) = (k + String.length buf)%nat.
Proof.
  revert buf. induction k as [|k IH]; intros buf; [reflexivity|].
  cbn [Fmt.zeros]. rewrite IH. simpl. lia.
Qed.

Lemma fmtDigits_short (u : Z) :
  0 <= u < 1000 ->
  (String.length (Fmt.fmtDigits 19 u EmptyString) <= 3)%nat.
Proof.
  intros Hu.
  change 19%nat with (Datatypes.S (Datatypes.S (Datatypes.S 16))).
  cbn [Fmt.fmtDigits].
  destruct (10 <=? u) eqn:E1; [|simpl; lia].
  destruct (10 <=? u / 10) eqn:E2; [|simpl; lia].
  replace (10 <=? u / 10 / 10) with false; [simpl; lia|].
  symmetry. apply Z.leb_gt.
  apply Z.div_lt_upper_bound; [lia|].
  apply Z.div_lt_upper_bound; lia.
Qed.

(** [%03d] of a number below a thousand has three digits. *)
Lemma Sprintf_03d_length (r : Z) :
  0 <= r < 1000 -> String.length (Fmt.Sprintf_03d r) = 3%nat.
Proof.
  intros Hr. unfold Fmt.Sprintf_03d, Fmt.fmtInteger.
  replace (r <? 0) with false by (symmetry; apply Z.ltb_ge; lia).
  cbn [andb]. rewrite andb_false_r. cbv beta iota zeta.
  rewrite zeros_length.
  pose proof (fmtDigits_short r Hr) as H3.
  pose proof (fmtDigits_nonempty 19 r EmptyString) as H1.
  unfold Strings.len. lia.
Qed.

Lemma shorten_length (prefix : string) :
  String.length (Helpers.shorten prefix)
  = Nat.min 3 (String.length prefix).
Proof.
  unfold Helpers.shorten, Strings.len.
  destruct (3 <? Z.of_nat (String.length prefix)) eqn:E.
  - apply Z.ltb_lt in E. unfold Strings.slice.
    change (Z.to_nat 0) with 0%nat. change (Z.to_nat (3 - 0)) with 3%nat.
    rewrite substring_length by lia. lia.
  - apply Z.ltb_ge in E. lia.
Qed.

Lemma shorten_twice (prefix : string) :
  Helpers.shorten (Helpers.shorten prefix) = Helpers.shorten prefix.
Proof.
  pose proof (shorten_length prefix) as H.
  unfold Helpers.shorten at 1. unfold Strings.len.
  replace (3 <? Z.of_nat (String.length (Helpers.shorten prefix)))
    with false; [reflexivity|].
  symmetry. apply Z.ltb_ge. lia.
Qed.

Lemma GenerateTransactionID_len (prefix timestamp : string)
    (randomNum : option Z) (nanosecond : Z) :
  String.length timestamp = 14%nat ->
  match randomNum with
  | Some r => 0 <= r < 1000
  | None => 0 <= nanosecond
  end ->
  String.length
    (Helpers.GenerateTransactionID prefix timestamp randomNum nanosecond)
  = (Nat.min 3 (String.length prefix) + 17)%nat.
Proof.
  intros Hts Henv. unfold Helpers.GenerateTransactionID.
  destruct randomNum as [r|];
    rewrite !length_append, shorten_length, Hts, Sprintf_03d_length; try lia.
  pose proof (Z.rem_bound_pos nanosecond 1000 Henv ltac:(lia)). lia.
Qed.

(** X26.  With a timestamp of fourteen characters, and a random number
    below a thousand or, when the random source fails, the nanoseconds of the
    clock, the result of [GenerateTransactionID] has seventeen characters more
    than the prefix has, of which at most three count: never more than
    twenty. *)
Theorem GenerateTransactionID_length (prefix timestamp : string)
    (randomNum : option Z) (nanosecond : Z) :
  String.length timestamp = 14%nat ->
  match randomNum with
  | Some r => 0 <= r < 1000
  | None => 0 <= nanosecond
  end ->
  String.length
    (Helpers.GenerateTransactionID prefix timestamp randomNum nanosecond)
  = (Nat.min 3 (String.length prefix) + 17)%nat
  /\ (String.length
        (Helpers.GenerateTransactionID prefix timestamp randomNum nanosecond)
      <= 20)%nat.
Proof.
  intros Hts Henv.
  rewrite (GenerateTransactionID_len _ _ _ _ Hts Henv). lia.
Qed.

Lemma GenerateTransactionID_length_witness :
  String.length "20260126143022" = 14%nat
  /\ 0 <= 123 < 1000
  /\ Helpers.GenerateTransactionID "TXNS" "20260126143022" (Some 123) 0
     = "TXN20260126143022123"
  /\ (String.length
        (Helpers.GenerateTransactionID "TXNS" "20260126143022" (Some 123) 0)
      = (Nat.min 3 (String.length "TXNS") + 17)%nat
      /\ (String.length
            (Helpers.GenerateTransactionID "TXNS" "20260126143022"
               (Some 123%Z) 0%Z) <= 20)%nat).
Proof.
  split; [reflexivity|]. split; [lia|]. split; [reflexivity|].
  apply (GenerateTransactionID_length "TXNS" "20260126143022" (Some 123) 0);
    [reflexivity | cbv beta iota; lia].
Defined.

Lemma EncodeToString_app (a b : list Z) :
  Hex.EncodeToString (a ++ b)
  = (Hex.EncodeToString a ++ Hex.EncodeToString b)%string.
Proof.
  induction a as [|x a IH]; [reflexivity|].
  cbn [app Hex.EncodeToString append]. rewrite IH. reflexivity.
Qed.

Lemma lower_hex_not_hyphen (c : ascii) :
  is_lower_hex c = true -> Ascii.eqb c "-" = false.
Proof.
  intros H. destruct (Ascii.eqb_spec c "-"%char) as [->|]; [|reflexivity].
  discriminate H.
Qed.

Lemma byte_high (v : Z) : Go.is_byte v -> 0 <= Z.shiftr v 4 < 16.
Proof.
  unfold Go.is_byte. intros H. rewrite Z.shiftr_div_pow2 by lia.
  change (2 ^ 4) with 16. split.
  - apply Z.div_pos; lia.
  - apply Z.div_lt_upper_bound; lia.
Qed.

Lemma byte_low (v : Z) : 0 <= Z.land v 15 < 16.
Proof.
  change 15 with (Z.ones 4). rewrite Z.land_ones by lia.
  apply Z.mod_pos_bound. reflexivity.
Qed.

Lemma EncodeToString_no_hyphen (src : list Z) :
  Forall Go.is_byte src -> free_of "-" (Hex.EncodeToString src) = true.
Proof.
  induction 1 as [|v src Hv _ IH]; [reflexivity|].
  cbn [Hex.EncodeToString free_of].
  rewrite (lower_hex_not_hyphen _ (hexdigit_lower _ (byte_high v Hv))).
  rewrite (lower_hex_not_hyphen _ (hexdigit_lower _ (byte_low v))).
  exact IH.
Qed.

Lemma Forall_take {A : Type} (P : A -> Prop) (k : nat) (l : list A) :
  Forall P l -> Forall P (firstn k l).
Proof.
  revert l. induction k as [|k IH]; intros l H; [constructor|].
  destruct H; simpl; constructor; auto.
Qed.

Lemma sub_is_byte (u : list Z) (lo hi : nat) :
  Forall Go.is_byte u -> Forall Go.is_byte (Uuid.sub u lo hi).
Proof.
  intros H. unfold Uuid.sub. apply Forall_take, Forall_skipn, H.
Qed.

Lemma sub_join (u : list Z) :
  List.length u = 16%nat ->
  Uuid.sub u 0 4 ++ Uuid.sub u 4 6 ++ Uuid.sub u 6 8 ++ Uuid.sub u 8 10
  ++ Uuid.sub u 10 16 = u.
Proof.
  intros H.
  do 16 (destruct u as [|? u]; [discriminate H|]).
  destruct u; [reflexivity|discriminate H].
Qed.

Lemma uuid_without_hyphens (u : Uuid.UUID) :
  List.length u = 16%nat -> Forall Go.is_byte u ->
  Helpers.ReplaceAll (Uuid.String_ u) "-" EmptyString = Hex.EncodeToString u.
Proof.
  intros Hlen Hu. unfold Uuid.String_.
  rewrite !ReplaceAll_app.
  rewrite !(ReplaceAll_free (Hex.EncodeToString _))
    by (apply EncodeToString_no_hyphen, sub_is_byte, Hu).
  change (Helpers.ReplaceAll "-" "-" EmptyString) with EmptyString.
  cbn [append]. rewrite <- !EncodeToString_app, (sub_join u Hlen).
  reflexivity.
Qed.

(** X27.  For a UUID of sixteen bytes [GenerateUUIDTransactionID] returns
    the first three bytes of the prefix (all of a shorter one) followed by the
    first seventeen hexadecimal digits of the UUID: never more than twenty
    characters. *)
Theorem GenerateUUIDTransactionID_hex (prefix timestamp : string)
    (u : Uuid.UUID) (randomNum : option Z) (nanosecond : Z) :
  List.length u = 16%nat -> Forall Go.is_byte u ->
  Helpers.GenerateUUIDTransactionID prefix (Some u) timestamp randomNum
    nanosecond
  = (Helpers.shorten prefix ++ substring 0 17 (Hex.EncodeToString u))%string
  /\ String.length
       (Helpers.GenerateUUIDTransactionID prefix (Some u) timestamp randomNum
          nanosecond)
     = (Nat.min 3 (String.length prefix) + 17)%nat.
Proof.
  intros Hlen Hu. unfold Helpers.GenerateUUIDTransactionID.
  rewrite (uuid_without_hyphens u Hlen Hu).
  assert (H32 : String.length (Hex.EncodeToString u) = 32%nat)
    by (rewrite EncodeToString_length, Hlen; reflexivity).
  unfold Strings.len. rewrite H32. change (17 <? Z.of_nat 32) with true.
  cbv beta iota. unfold Strings.slice.
  change (Z.to_nat 0) with 0%nat. change (Z.to_nat (17 - 0)) with 17%nat.
  split; [reflexivity|].
  rewrite length_append, shorten_length, substring_length by lia.
  reflexivity.
Qed.

Lemma GenerateUUIDTransactionID_hex_witness :
  Helpers.GenerateUUIDTransactionID "TXN"
    (Some [61; 102; 193; 108; 157; 182; 66; 16; 167; 22; 68; 102; 85; 68; 0; 0])
    "20260126143022" None 0
  = "TXN3d66c16c9db64210a".
Proof.
  refine (eq_trans (proj1 (GenerateUUIDTransactionID_hex "TXN" "20260126143022"
    [61; 102; 193; 108; 157; 182; 66; 16; 167; 22; 68; 102; 85; 68; 0; 0]
    None 0 _ _)) _).
  - reflexivity.
  - repeat constructor; unfold Go.is_byte; lia.
  - reflexivity.
Defined.

(** When no UUID can be made, [GenerateUUIDTransactionID] returns what
    [GenerateTransactionID] returns for the same prefix. *)
Lemma GenerateUUIDTransactionID_fallback (prefix timestamp : string)
    (randomNum : option Z) (nanosecond : Z) :
  Helpers.GenerateUUIDTransactionID prefix None timestamp randomNum nanosecond
  = Helpers.GenerateTransactionID prefix timestamp randomNum nanosecond.
Proof.
  unfold Helpers.GenerateUUIDTransactionID, Helpers.GenerateTransactionID.
  rewrite shorten_twice. reflexivity.
Qed.

(** *** BuildReturnURL *)

Lemma counts_acc (s : string) (sc hc : Z) :
  Url.counts s sc hc
  = (sc + fst (Url.counts s 0 0), hc + snd (Url.counts s 0 0)).
Proof.
  revert sc hc. induction s as [|a s IH]; intros sc hc.
  - cbn [Url.counts fst snd]. f_equal; lia.
  - cbn [Url.counts].
    destruct (Url.shouldEscape (Go.byte_of_ascii a));
      [destruct (Go.byte_of_ascii a =? 32)|].
    + rewrite (IH (sc + 1) hc), (IH (0 + 1) 0). cbn [fst snd]. f_equal; lia.
    + rewrite (IH sc (hc + 1)), (IH 0 (0 + 1)). cbn [fst snd]. f_equal; lia.
    + apply IH.
Qed.

Lemma counts_nonneg (s : string) :
  0 <= fst (Url.counts s 0 0) /\ 0 <= snd (Url.counts s 0 0).
Proof.
  induction s as [|a s IH]; [cbn; lia|].
  cbn [Url.counts].
  destruct (Url.shouldEscape (Go.byte_of_ascii a));
    [destruct (Go.byte_of_ascii a =? 32)|]; try exact IH;
    rewrite counts_acc; cbn [fst snd]; lia.
Qed.

Lemma escapeLoop_plusSpaces (s : string) :
  snd (Url.counts s 0 0) = 0 -> Url.escapeLoop s = Url.plusSpaces s.
Proof.
  induction s as [|a s IH]; [reflexivity|].
  cbn [Url.counts Url.escapeLoop Url.plusSpaces].
  destruct (Go.byte_of_ascii a =? 32) eqn:E32.
  - apply Z.eqb_eq in E32. rewrite E32.
    change (Url.shouldEscape 32) with true. cbv iota.
    rewrite counts_acc. cbn [snd]. intros H. rewrite IH by lia. reflexivity.
  - destruct (Url.shouldEscape (Go.byte_of_ascii a)).
    + rewrite counts_acc. cbn [snd]. intros H.
      pose proof (counts_nonneg s). lia.
    + intros H. rewrite (IH H). reflexivity.
Qed.

Lemma plusSpaces_none (s : string) :
  fst (Url.counts s 0 0) = 0 -> snd (Url.counts s 0 0) = 0 ->
  Url.plusSpaces s = s.
Proof.
  induction s as [|a s IH]; [reflexivity|].
  cbn [Url.counts Url.plusSpaces].
  destruct (Go.byte_of_ascii a =? 32) eqn:E32.
  - apply Z.eqb_eq in E32. rewrite E32.
    change (Url.shouldEscape 32) with true. cbv iota.
    rewrite counts_acc. cbn [fst]. intros H.
    pose proof (counts_nonneg s). lia.
  - destruct (Url.shouldEscape (Go.byte_of_ascii a)).
    + rewrite counts_acc. cbn [snd]. intros _ H.
      pose proof (counts_nonneg s). lia.
    + intros H1 H2. rewrite (IH H1 H2). reflexivity.
Qed.

(** The two short cuts of [escape] give what its last loop gives. *)
Lemma escape_loop (s : string) : Url.escape s = Url.escapeLoop s.
Proof.
  unfold Url.escape.
  destruct (Url.counts s 0 0) as [sc hc] eqn:E.
  assert (Hsc : fst (Url.counts s 0 0) = sc) by (rewrite E; reflexivity).
  assert (Hhc : snd (Url.counts s 0 0) = hc) by (rewrite E; reflexivity).
  destruct (sc =? 0) eqn:E1; destruct (hc =? 0) eqn:E2; cbn [andb];
    try reflexivity.
  - apply Z.eqb_eq in E1, E2. rewrite E1 in Hsc. rewrite E2 in Hhc.
    rewrite escapeLoop_plusSpaces by exact Hhc.
    symmetry. apply plusSpaces_none; assumption.
  - apply Z.eqb_eq in E2. rewrite E2 in Hhc.
    symmetry. apply escapeLoop_plusSpaces. exact Hhc.
Qed.

Lemma upperhexdigit_safe (n : Z) :
  0 <= n < 16 ->
  query_safe (Url.upperhexdigit n) = true
  /\ upperhexval (Url.upperhexdigit n) = n.
Proof.
  intros Hn. unfold Url.upperhexdigit.
  assert (Hk : exists k, n = Z.of_nat k /\ (k < 16)%nat)
    by (exists (Z.to_nat n); lia).
  destruct Hk as [k [-> Hk]]. rewrite Nat2Z.id.
  do 16 (destruct k as [|k]; [split; reflexivity|]).
  lia.
Qed.

Lemma escapeLoop_safe (s : string) :
  forallb query_safe (list_ascii_of_string (Url.escapeLoop s)) = true.
Proof.
  induction s as [|a s IH]; [reflexivity|].
  cbn [Url.escapeLoop].
  destruct (Go.byte_of_ascii a =? 32); [exact IH|].
  destruct (Url.shouldEscape (Go.byte_of_ascii a)) eqn:E.
  - cbn [list_ascii_of_string forallb].
    rewrite (proj1 (upperhexdigit_safe _
                      (byte_high _ (is_byte_of_ascii a)))).
    rewrite (proj1 (upperhexdigit_safe _ (byte_low _))).
    exact IH.
  - cbn [list_ascii_of_string forallb]. unfold query_safe at 1.
    rewrite E. exact IH.
Qed.

Lemma byte_nibbles_sum (c : Z) :
  Go.is_byte c -> 16 * Z.shiftr c 4 + Z.land c 15 = c.
Proof.
  unfold Go.is_byte. intros H. rewrite Z.shiftr_div_pow2 by lia.
  change 15 with (Z.ones 4). rewrite Z.land_ones by lia.
  change (2 ^ 4) with 16. symmetry. apply Z.div_mod. lia.
Qed.

Lemma ascii_of_byte (a : ascii) :
  ascii_of_N (Z.to_N (Go.byte_of_ascii a)) = a.
Proof.
  unfold Go.byte_of_ascii. rewrite N2Z.id. apply ascii_N_embedding.
Qed.

(** Reading back what [escape] wrote gives the text that was escaped. *)
Lemma unescape_escapeLoop (s : string) :
  unescape (Url.escapeLoop s) = s.
Proof.
  induction s as [|a s IH]; [reflexivity|].
  cbn [Url.escapeLoop].
  destruct (Go.byte_of_ascii a =? 32) eqn:E32.
  - apply Z.eqb_eq in E32.
    assert (a = " "%char) by (apply byte_of_ascii_inj; exact E32).
    subst a. cbn [unescape]. rewrite Ascii.eqb_refl, IH. reflexivity.
  - destruct (Url.shouldEscape (Go.byte_of_ascii a)) eqn:E.
    + cbn [unescape].
      change (Ascii.eqb "%" "+") with false.
      change (Ascii.eqb "%" "%") with true. cbv iota.
      rewrite (proj2 (upperhexdigit_safe _
                        (byte_high _ (is_byte_of_ascii a)))).
      rewrite (proj2 (upperhexdigit_safe _ (byte_low _))).
      rewrite (byte_nibbles_sum _ (is_byte_of_ascii a)).
      rewrite ascii_of_byte, IH. reflexivity.
    + cbn [unescape].
      destruct (Ascii.eqb_spec a "+"%char) as [->|_]; [discriminate E|].
      destruct (Ascii.eqb_spec a "%"%char) as [->|_]; [discriminate E|].
      rewrite IH. reflexivity.
Qed.

Lemma Contains_free (s : string) (c : ascii) :
  Helpers.Contains s c = negb (free_of c s).
Proof.
  unfold Helpers.Contains.
  destruct (free_of c s) eqn:E.
  - rewrite (IndexByte_free s c E). reflexivity.
  - cbn [negb]. apply Z.leb_le.
    induction s as [|a s IH]; [discriminate E|].
    cbn [free_of] in E. cbn [Strings.IndexByte].
    destruct (Ascii.eqb a c); [lia|].
    cbn [negb andb] in E. specialize (IH E).
    destruct (Strings.IndexByte s c <? 0) eqn:El;
      [apply Z.ltb_lt in El; lia | lia].
Qed.

Lemma BuildReturnURL_value (p r : string) :
  return_value p (Helpers.BuildReturnURL p r) = Url.escapeLoop r.
Proof.
  unfold return_value, Helpers.BuildReturnURL, Url.QueryEscape.
  rewrite escape_loop.
  set (sep := if Helpers.Contains p "?" then "&" else "?").
  assert (Hlen : Strings.len p + 8 = Strings.len (p ++ sep ++ "return=")).
  { rewrite !len_append. unfold sep.
    destruct (Helpers.Contains p "?"); reflexivity. }
  rewrite Hlen.
  replace (p ++ sep ++ "return=" ++ Url.escapeLoop r)%string
    with ((p ++ sep ++ "return=") ++ Url.escapeLoop r)%string
    by (rewrite !append_assoc; reflexivity).
  apply slice_from_suffix.
Qed.

(** X28.  Whatever the return URL is, what [BuildReturnURL] writes after
    [return=] is made of letters, digits and the characters [-_.~+%] only, so
    the value cannot end the parameter or begin another one; and undoing the
    escaping gives the return URL back, byte for byte. *)
Theorem BuildReturnURL_value_safe (paymentURL returnURL : string) :
  forallb query_safe
    (list_ascii_of_string
       (return_value paymentURL
          (Helpers.BuildReturnURL paymentURL returnURL))) = true
  /\ unescape
       (return_value paymentURL
          (Helpers.BuildReturnURL paymentURL returnURL))
     = returnURL.
Proof.
  rewrite BuildReturnURL_value.
  split; [apply escapeLoop_safe | apply unescape_escapeLoop].
Qed.

Lemma Split_app_last (a b : string) (c : ascii) :
  free_of c b = true ->
  Strings.Split (a ++ String c b) c = Strings.Split a c ++ [b].
Proof.
  intros Hb. induction a as [|x a IH].
  - cbn [append Strings.Split]. rewrite Ascii.eqb_refl, (Split_free b c Hb).
    reflexivity.
  - cbn [append Strings.Split]. rewrite IH.
    pose proof (Split_not_nil a c) as Hne.
    destruct (Ascii.eqb x c); [reflexivity|].
    destruct (Strings.Split a c); [congruence|reflexivity].
Qed.

Lemma safe_free (c : ascii) (e : string) :
  query_safe c = false ->
  forallb query_safe (list_ascii_of_string e) = true ->
  free_of c e = true.
Proof.
  intros Hc. induction e as [|a e IH]; [reflexivity|].
  cbn [list_ascii_of_string forallb free_of]. intros H.
  apply andb_true_iff in H as [Ha He]. rewrite (IH He), andb_true_r.
  apply negb_true_iff.
  destruct (Ascii.eqb_spec a c) as [->|]; [congruence|reflexivity].
Qed.

(** X29.  [BuildReturnURL] adds exactly one piece.  For a payment URL
    with a question mark, the result cut at every [&] has the pieces of the
    payment URL and then the parameter [return]; for one without, the result
    cut at every [?] is the payment URL and the parameter [return]. *)
Theorem BuildReturnURL_one_parameter (paymentURL returnURL : string) :
  (Helpers.Contains paymentURL "?" = true ->
   Strings.Split (Helpers.BuildReturnURL paymentURL returnURL) "&"
   = Strings.Split paymentURL "&"
     ++ [("return=" ++ Url.QueryEscape returnURL)%string])
  /\ (Helpers.Contains paymentURL "?" = false ->
      Strings.Split (Helpers.BuildReturnURL paymentURL returnURL) "?"
      = [paymentURL; ("return=" ++ Url.QueryEscape returnURL)%string]).
Proof.
  unfold Helpers.BuildReturnURL, Url.QueryEscape.
  rewrite escape_loop.
  pose proof (escapeLoop_safe returnURL) as Hsafe.
  split; intros Hc; rewrite Hc.
  - apply (Split_app_last paymentURL
             ("return=" ++ Url.escapeLoop returnURL) "&").
    rewrite free_of_app. apply andb_true_iff.
    split; [reflexivity | apply safe_free; [reflexivity|exact Hsafe]].
  - transitivity (Strings.Split paymentURL "?"
                  ++ [("return=" ++ Url.escapeLoop returnURL)%string]).
    + apply (Split_app_last paymentURL
               ("return=" ++ Url.escapeLoop returnURL) "?").
      rewrite free_of_app. apply andb_true_iff.
      split; [reflexivity | apply safe_free; [reflexivity|exact Hsafe]].
    + rewrite Split_free; [reflexivity|].
      rewrite Contains_free in Hc. apply negb_false_iff in Hc. exact Hc.
Qed.

(** ** client: qr_option.go *)

Lemma QR_fold_size (qopts : list Client.QROption) (cfg : Client.qrConfig) :
  Forall qr_option qopts -> 0 < Client.size cfg ->
  0 < Client.size (fold_left (fun cfg opt => opt cfg) qopts cfg).
Proof.
  intros H. revert cfg. induction H as [|o qopts Ho _ IH]; intros cfg Hc;
    [exact Hc|].
  cbn [fold_left]. apply IH. destruct Ho as [pixels|level|[fg|]|[bg|]];
    try exact Hc.
  unfold QROptions.WithQRSize. destruct (0 <? pixels) eqn:E; [|exact Hc].
  apply Z.ltb_lt in E. exact E.
Qed.

(** X30.  When the QR options that a client holds after its options are
    applied are options of the package, [New] resolves them to a configuration
    with a positive image size: [WithQRSize] ignores a size that is not
    positive.  Without any QR option it is the default configuration, of 256
    pixels. *)
Theorem New_QR_size_positive
    (authKey secretKey : string) (opts : list Client.Option) :
  Forall qr_option
    (Client.qrOpts (apply_options opts (defaults authKey secretKey))) ->
  exists cfg : Client.qrConfig,
    Client.qrCfg (Client.New authKey secretKey opts) = Some cfg
    /\ 0 < Client.size cfg
    /\ (Client.qrOpts (apply_options opts (defaults authKey secretKey)) = []
        -> cfg = Client.qrDefaults).
Proof.
  intros H. rewrite New_unfold. cbv zeta.
  set (c := apply_options opts (defaults authKey secretKey)) in *.
  exists (fold_left (fun cfg opt => opt cfg) (Client.qrOpts c)
            Client.qrDefaults).
  split; [destruct (Client.HTTPClient_ c); reflexivity|]. split.
  - apply QR_fold_size; [exact H | reflexivity].
  - intros ->. reflexivity.
Qed.

Lemma New_QR_size_positive_witness :
  exists cfg : Client.qrConfig,
    Client.qrCfg
      (Client.New "auth" "secret"
         [set_qrOpts [QROptions.WithQRSize 512; QROptions.WithQRSize (-1)]])
    = Some cfg
    /\ 0 < Client.size cfg
    /\ (Client.qrOpts
          (apply_options
             [set_qrOpts [QROptions.WithQRSize 512; QROptions.WithQRSize (-1)]]
             (defaults "auth" "secret")) = []
        -> cfg = Client.qrDefaults).
Proof.
  apply (New_QR_size_positive "auth" "secret"
           [set_qrOpts [QROptions.WithQRSize 512; QROptions.WithQRSize (-1)]]).
  constructor; [apply qr_Size|]. constructor; [apply qr_Size|constructor].
Defined.
